(** * Markprompt: ingestion orchestrator, website crawler, completion engine
      and client stream decoder, embedded in Rocq.

    Source files covered:
    - [src/lib/context/training.tsx]              (module [Training])
    - [src/packages/core/index.js]                (module [Core])
    - [src/unnamed/part_000], imported as [@/lib/completions]
                                                  (module [Completions])
    - [src/pages/api/v1/openai/completions/[project].ts] (module [Handler])
    - [src/lib/hooks/use-sources.ts]              (module [Sources])

    The modules [TrainAll], [Pool], [Crawl], [Callbacks], [Retrieval] and
    [Serving] carry the rest of [training.tsx], [submitPrompt] for callbacks
    that may throw, and the notions in which the further properties of
    these files are stated.

    Part I holds the definitions, Part II the theorems. *)

From Stdlib Require Import ZArith QArith List String Ascii Bool Arith Lia.
From Stdlib Require Import DecimalString DecimalNat Permutation Sorted.
Import ListNotations.

Local Open Scope string_scope.
Local Open Scope list_scope.
Local Open Scope nat_scope.

Notation "a +++ b" := (String.append a b) (at level 60, right associativity).

(* ===================================================================== *)
(** * Part I. Definitions                                                 *)
(* ===================================================================== *)

(** ** JavaScript values shared by the modules *)
Module Js.

(** What an [await] settles to: the promise is fulfilled with a value or
    rejected with a thrown value. *)
Inductive Settled (E A : Type) : Type :=
| Fulfilled (a : A)
| Rejected (e : E).
Arguments Fulfilled {E A} a.
Arguments Rejected {E A} e.

(** [a || b] on strings: the empty string is falsy. *)
Definition strOr (a : option string) (b : string) : string :=
  match a with
  | Some s => if String.eqb s "" then b else s
  | None => b
  end.

(** [xs || []] on an array that may be [undefined] / [null]. *)
Definition listOr {A : Type} (xs : option (list A)) : list A :=
  match xs with Some l => l | None => [] end.

(** [Array.prototype.includes] on strings. *)
Definition includes (xs : list string) (x : string) : bool :=
  existsb (String.eqb x) xs.

(** lodash [uniq]: the first occurrence of every element, in order. *)
Fixpoint uniqFrom (seen : list string) (xs : list string) : list string :=
  match xs with
  | [] => []
  | x :: r => if includes seen x then uniqFrom seen r
              else x :: uniqFrom (x :: seen) r
  end.
Definition uniq (xs : list string) : list string := uniqFrom [] xs.

(** [s.split('/').slice(-1)[0]]: the text after the last slash. *)
Fixpoint lastSegmentFrom (acc s : string) : string :=
  match s with
  | EmptyString => acc
  | String c r =>
      if Ascii.eqb c "/" then lastSegmentFrom "" r
      else lastSegmentFrom (acc +++ String c "") r
  end.
Definition lastSegment (s : string) : string := lastSegmentFrom "" s.

End Js.

(* --------------------------------------------------------------------- *)
(** ** [src/lib/context/training.tsx]                                     *)
(* --------------------------------------------------------------------- *)
Module Training.
Import Js.

(** [DbSource['type']]. *)
Inductive SourceType : Type :=
| github | motif | website | nango | file_upload | api_upload.

Definition isWebsite (t : SourceType) : bool :=
  match t with website => true | _ => false end.

(** [FileData] of [@/types/types], and the partial record [getFileData]
    resolves to. *)
Record FileData : Type := mkFileData {
  path : string;
  name : string;
  content : string;
  metadata : option string;
  contentType : option string }.

Record PartialFileData : Type := mkPartial {
  p_name : option string;
  p_content : option string;
  p_metadata : option string;
  p_contentType : option string }.

(** A value caught by [catch (e: any)]: only [e.status] and [e.name] are
    inspected, the rest is carried for [JSON.stringify]. *)
Record Thrown : Type := mkThrown {
  status : option Z;
  ename : option string;
  detail : string }.

Definition Await := Settled Thrown.

(** [TrainingState]. *)
Inductive TrainingState : Type :=
| idle
| fetching_data
| loading (progress total : nat) (filename : string)
| cancel_requested
| complete (errs : list string).

(** One row of [supabase.from('files').select('path,checksum')]. *)
Record ChecksumRow : Type := mkRow {
  row_path : string;
  row_checksum : option string }.

(** Observable effects, in the order they happen. *)
Inductive Event : Type :=
| ConsoleInfo (words : list string)
| ConsoleError (msg : string)
| GetFileData (index : nat) (p : string)
| FileDataSettled (index : nat) (r : Await (option PartialFileData))
| ProcessFile (sourceId : string) (file : FileData)
| ToastQuota
| ToastError (msg : string)
| FileProcessed (p : string)
| OnError (msg : string).

(** The provider's React state ([state], [errors]), the [stopFlag] ref and
    the log of effects. *)
Record World : Type := mkWorld {
  state : TrainingState;
  errors : list string;
  stopFlag : bool;
  log : list Event }.

Definition setState (s : TrainingState) (w : World) : World :=
  mkWorld s (errors w) (stopFlag w) (log w).
Definition setErrors (f : list string -> list string) (w : World) : World :=
  mkWorld (state w) (f (errors w)) (stopFlag w) (log w).
Definition setStopFlag (b : bool) (w : World) : World :=
  mkWorld (state w) (errors w) b (log w).
Definition emit (e : Event) (w : World) : World :=
  mkWorld (state w) (errors w) (stopFlag w) (log w ++ [e]).

(** What the module imports from ['../utils'], ['../api'] and
    ['@/types/types']; none of them is part of the files at hand. *)
Record Imports : Type := mkImports {
  shouldIncludeFileWithPath :
    string -> list string -> list string -> bool -> bool;
  createChecksum : string -> string;
  processFile : string -> FileData -> Await unit;
  API_ERROR_ID_CONTENT_TOKEN_QUOTA_EXCEEDED : string;
  JSON_stringify : Thrown -> string }.

(** What the hooks give the provider: [config.include], [config.exclude]
    and [project?.id].  The code only tests [!project?.id]: [project_id] is
    [Some id] for a project whose id is truthy, and [None] when there is no
    project or its id is falsy. *)
Record Hooks : Type := mkHooks {
  config_include : option (list string);
  config_exclude : option (list string);
  project_id : option string }.

(** The arguments of [generateEmbeddings]. *)
Record Args : Type := mkArgs {
  sourceId : string;
  sourceType : SourceType;
  numFiles : nat;
  forceRetrain : bool;
  getFilePath : nat -> string;
  getFileData : nat -> Await (option PartialFileData);
  onFileProcessed : bool (* whether the optional callback was given *) }.

(** [generateEmbeddingForFile] suspended at one of its two [await]s. *)
Inductive Task : Type :=
| AwaitFileData (index : nat) (p : string) (prevChecksum : option string)
| AwaitProcessFile (index : nat) (file : FileData) (fileDataName : option string).

Definition taskIndex (t : Task) : nat :=
  match t with
  | AwaitFileData i _ _ => i
  | AwaitProcessFile i _ _ => i
  end.

Inductive Outcome : Type :=
| Returned
| Threw (e : Thrown)
| Suspended (t : Task).

(** [checksums?.find((c) => c.path === path)?.checksum] *)
Definition findChecksum (checksums : list ChecksumRow) (p : string)
  : option string :=
  match find (fun c => String.eqb (row_path c) p) checksums with
  | Some c => row_checksum c
  | None => None
  end.

(** [prevChecksum === currentChecksum] *)
Definition sameChecksum (prev : option string) (cur : string) : bool :=
  match prev with Some c => String.eqb c cur | None => false end.

(** [onFileProcessed?.(path)] *)
Definition callOnFileProcessed (a : Args) (p : string) (w : World) : World :=
  if onFileProcessed a then emit (FileProcessed p) w else w.

(** [e.status === 403 && e.name === API_ERROR_ID_CONTENT_TOKEN_QUOTA_EXCEEDED] *)
Definition isQuotaExceeded (U : Imports) (e : Thrown) : bool :=
  match status e, ename e with
  | Some s, Some n =>
      Z.eqb s 403 && String.eqb n (API_ERROR_ID_CONTENT_TOKEN_QUOTA_EXCEEDED U)
  | _, _ => false
  end.

Definition errorProcessingFile (U : Imports) (p : string) (e : Thrown) : string :=
  "Error processing file " +++ p +++ ": " +++ JSON_stringify U e.

(** [shouldIncludeFileWithPath(path, config.include || [],
      config.exclude || [], sourceType === 'website')] *)
Definition included (U : Imports) (H : Hooks) (a : Args) (p : string) : bool :=
  shouldIncludeFileWithPath U p
    (listOr (config_include H)) (listOr (config_exclude H))
    (isWebsite (sourceType a)).

(** The [file] built from the resolved data of item [index]. *)
Definition fileOf (a : Args) (index : nat) (fileData : PartialFileData)
  : FileData :=
  mkFileData (getFilePath a index) (strOr (p_name fileData) "")
    (strOr (p_content fileData) "")
    (p_metadata fileData) (p_contentType fileData).

(** [prevChecksum === currentChecksum && !forceRetrain] for a file. *)
Definition skips (U : Imports) (a : Args) (checksums : list ChecksumRow)
    (f : FileData) : bool :=
  sameChecksum (findChecksum checksums (path f)) (createChecksum U (content f))
  && negb (forceRetrain a).

(** [generateEmbeddingForFile], from its entry to [await getFileData(index)]. *)
Definition startFile (U : Imports) (H : Hooks) (a : Args)
    (checksums : list ChecksumRow) (index : nat) (w : World)
  : World * Outcome :=
  if stopFlag w then (w, Returned)
  else
    let p := getFilePath a index in
    if negb (included U H a p)
    then (emit (ConsoleInfo ["Ignoring"; p]) w, Returned)
    else
      let w := setState (loading (index + 1) (numFiles a) (lastSegment p)) w in
      let prevChecksum := findChecksum checksums p in
      (emit (GetFileData index p) w, Suspended (AwaitFileData index p prevChecksum)).

(** ... from the settled [getFileData] to [await processFile(sourceId, file)]. *)
Definition afterFileData (U : Imports) (a : Args)
    (index : nat) (p : string) (prevChecksum : option string)
    (r : Await (option PartialFileData)) (w : World) : World * Outcome :=
  let w := emit (FileDataSettled index r) w in
  match r with
  | Rejected e => (w, Threw e)
  | Fulfilled None => (w, Returned)
  | Fulfilled (Some fileData) =>
      let currentChecksum := createChecksum U (strOr (p_content fileData) "") in
      if sameChecksum prevChecksum currentChecksum && negb (forceRetrain a)
      then (emit (ConsoleInfo ["Skipping"; p; "(already processed)"]) w, Returned)
      else
        let w := emit (ConsoleInfo ["Processing"; p]) w in
        let file := mkFileData p (strOr (p_name fileData) "")
                      (strOr (p_content fileData) "")
                      (p_metadata fileData) (p_contentType fileData) in
        (emit (ProcessFile (sourceId a) file) w,
         Suspended (AwaitProcessFile index file (p_name fileData)))
  end.

(** ... and from the settled [processFile] to the end. *)
Definition afterProcessFile (U : Imports) (a : Args)
    (file : FileData) (fileDataName : option string)
    (r : Await unit) (w : World) : World * Outcome :=
  match r with
  | Fulfilled _ => (callOnFileProcessed a (path file) w, Returned)
  | Rejected e =>
      if isQuotaExceeded U e then
        let w := emit ToastQuota w in
        let w := callOnFileProcessed a (path file) w in
        let w := setState idle w in
        (w, Threw e)
      else
        let w := emit (ConsoleError (errorProcessingFile U (path file) e)) w in
        let w := emit (ToastError
                   ("Error processing file " +++
                    match fileDataName with Some n => n | None => "undefined" end
                    +++ ": " +++ JSON_stringify U e)) w in
        let w := setErrors
                   (fun errs => errs ++ [errorProcessingFile U (path file) e]) w in
        (callOnFileProcessed a (path file) w, Returned)
  end.

(** Resuming a suspended call: the awaited collaborator settles. *)
Definition resumeFile (U : Imports) (a : Args) (t : Task) (w : World)
  : World * Outcome :=
  match t with
  | AwaitFileData index p prev =>
      afterFileData U a index p prev (getFileData a index) w
  | AwaitProcessFile index file nm =>
      afterProcessFile U a file nm (processFile U (sourceId a) file) w
  end.

(** [generateEmbeddingForFile] run alone, every [await] resumed at once. *)
Definition generateEmbeddingForFile (U : Imports) (H : Hooks) (a : Args)
    (checksums : list ChecksumRow) (index : nat) (w : World)
  : World * Outcome :=
  match startFile U H a checksums index w with
  | (w1, Suspended t1) =>
      match resumeFile U a t1 w1 with
      | (w2, Suspended t2) => resumeFile U a t2 w2
      | done => done
      end
  | done => done
  end.

(** The function handed to [limit(...)]: the call above inside
    [try ... catch (e) { console.error(...) }]. *)
Definition guarded (U : Imports) (a : Args) (index : nat)
    (r : World * Outcome) : World * option Task :=
  match r with
  | (w, Returned) => (w, None)
  | (w, Suspended t) => (w, Some t)
  | (w, Threw e) =>
      (emit (ConsoleError (errorProcessingFile U (getFilePath a index) e)) w, None)
  end.

(** *** The pool of [pLimit(5)] under [Promise.all]

    [p-limit] starts the queued functions oldest first and keeps at most
    five in flight; a function that ends, by returning or by throwing, makes
    room for the next one.  The order in which the awaited promises settle
    is the event loop's, so it is an input of the model. *)
Definition concurrency : nat := 5.

(** The state of a run: the world, the indices not yet started, oldest
    first, and the calls in flight. *)
Record Run : Type := mkRun {
  world : World;
  queue : list nat;
  active : list Task }.

(** What the event loop does next: start the oldest queued call (only while
    fewer than five are in flight), resume the [k]-th call in flight, or run
    [stopGeneratingEmbeddings] for a click of the user. *)
Inductive Choice : Type :=
| Start
| Resume (k : nat)
| Stop.

(** [stopGeneratingEmbeddings] *)
Definition stopGeneratingEmbeddings (w : World) : World :=
  setState cancel_requested (setStopFlag true w).

(** The list without its [k]-th element. *)
Fixpoint removeNth {A : Type} (k : nat) (l : list A) : list A :=
  match l, k with
  | [], _ => []
  | _ :: r, O => r
  | x :: r, S k' => x :: removeNth k' r
  end.

(** A call that is suspended again stays in flight. *)
Definition keep (ts : list Task) (o : option Task) : list Task :=
  match o with Some t => ts ++ [t] | None => ts end.

(** One turn of the event loop.  A choice that cannot be taken (nothing
    queued, five calls in flight, no [k]-th call) changes nothing. *)
Definition step (U : Imports) (H : Hooks) (a : Args)
    (checksums : list ChecksumRow) (c : Choice) (r : Run) : Run :=
  match c with
  | Stop => mkRun (stopGeneratingEmbeddings (world r)) (queue r) (active r)
  | Start =>
      match queue r with
      | index :: q =>
          if List.length (active r) <? concurrency then
            let (w, o) := guarded U a index
                            (startFile U H a checksums index (world r)) in
            mkRun w q (keep (active r) o)
          else r
      | [] => r
      end
  | Resume k =>
      match nth_error (active r) k with
      | Some t =>
          let (w, o) := guarded U a (taskIndex t) (resumeFile U a t (world r)) in
          mkRun w (queue r) (keep (removeNth k (active r)) o)
      | None => r
      end
  end.

Definition steps (U : Imports) (H : Hooks) (a : Args)
    (checksums : list ChecksumRow) (cs : list Choice) (r : Run) : Run :=
  fold_left (fun r c => step U H a checksums c r) cs r.

(** The default order once the given choices are used up: start whatever may
    start, else resume the oldest call in flight. *)
Definition nextChoice (r : Run) : option Choice :=
  match queue r, active r with
  | [], [] => None
  | _ :: _, ts =>
      if List.length ts <? concurrency then Some Start else Some (Resume 0)
  | [], _ :: _ => Some (Resume 0)
  end.

(** The run to its end in the default order, [fuel] turns at most. *)
Fixpoint drain (U : Imports) (H : Hooks) (a : Args)
    (checksums : list ChecksumRow) (fuel : nat) (r : Run) : Run :=
  match fuel with
  | O => r
  | S fuel' =>
      match nextChoice r with
      | None => r
      | Some c => drain U H a checksums fuel' (step U H a checksums c r)
      end
  end.

(** A call in flight needs at most two more resumptions, a queued one a start
    and two resumptions. *)
Definition taskWeight (t : Task) : nat :=
  match t with AwaitFileData _ _ _ => 2 | AwaitProcessFile _ _ _ => 1 end.
Definition remaining (r : Run) : nat :=
  3 * List.length (queue r) + list_sum (map taskWeight (active r)).

(** [await Promise.all(Array.from(Array(numFiles).keys()).map(...))] under an
    event loop that follows [sched] and then the default order. *)
Definition promiseAll (U : Imports) (H : Hooks) (a : Args)
    (checksums : list ChecksumRow) (sched : list Choice) (w : World) : Run :=
  let r := steps U H a checksums sched (mkRun w (seq 0 (numFiles a)) []) in
  drain U H a checksums (remaining r) r.

(** [generateEmbeddings]; [query] is what the Supabase query for the stored
    checksums settles to (its [data] may be [null]).  The result tells
    whether the returned promise was rejected. *)
Definition generateEmbeddings (U : Imports) (H : Hooks) (a : Args)
    (query : Await (option (list ChecksumRow))) (sched : list Choice)
    (w : World) : World * option Thrown :=
  match project_id H with
  | None => (w, None)
  | Some _ =>
      let w := setErrors (fun _ => []) w in
      let w := setStopFlag false w in
      match query with
      | Rejected e => (w, Some e)
      | Fulfilled checksums =>
          let r := promiseAll U H a (listOr checksums) sched w in
          (setState idle (world r), None)
      end
  end.

(** *** The website branch of [_trainSource] *)

(** What it imports from ['../integrations/website'], ['../utils'] and
    ['../utils.nodeps'].  [extractLinksFromHtml] answering [None] stands for
    a call that throws. *)
Record WebImports : Type := mkWebImports {
  fetchPageContent : string -> Await (option string);
  extractLinksFromHtml : string -> option (list string);
  isHrefFromBaseUrl : string -> string -> bool;
  completeHrefWithBaseUrl : string -> string -> string;
  removeTrailingSlashQueryParamsAndHash : string -> string;
  toNormalizedUrl : string -> string;
  toNormalizedOrigin : string -> string;
  isSitemapUrl : string -> bool;
  fetchSitemapUrls : string -> Await (list string);
  getNameFromUrlOrPath : string -> string }.

(** What the surroundings answer during the [k]-th call of
    [generateEmbeddings]: the stored checksums and the order of the event
    loop. *)
Record Rounds : Type := mkRounds {
  checksumsAt : nat -> Await (option (list ChecksumRow));
  schedAt : nat -> list Choice }.

(** The [getFileData] closure of [generateEmbeddingsForUrls]. *)
Definition pageData (W : WebImports) (urls : list string) (i : nat)
  : Await (option PartialFileData) :=
  let url := nth i urls "" in
  match fetchPageContent W url with
  | Rejected e => Rejected e
  | Fulfilled None => Fulfilled None
  | Fulfilled (Some c) =>
      if String.eqb c "" then Fulfilled None
      else Fulfilled (Some (mkPartial (Some (getNameFromUrlOrPath W url))
                                      (Some c) None None))
  end.

(** [processedContent]: what the closure pushed, in the order pushed. *)
Definition pushed (evs : list Event) : list string :=
  flat_map (fun e =>
    match e with
    | FileDataSettled _ (Fulfilled (Some fd)) =>
        match p_content fd with Some c => [c] | None => [] end
    | _ => []
    end) evs.

Definition urlArgs (W : WebImports) (src : string) (force : bool)
    (cb : bool) (urls : list string) : Args :=
  mkArgs src website (List.length urls) force
         (fun i => nth i urls "") (pageData W urls) cb.

Definition generateEmbeddingsForUrls (U : Imports) (W : WebImports)
    (H : Hooks) (R : Rounds) (src : string) (force cb : bool)
    (round : nat) (urls : list string) (w : World)
  : World * Await (list string) :=
  match generateEmbeddings U H (urlArgs W src force cb urls)
          (checksumsAt R round) (schedAt R round) w with
  | (w', Some e) => (w', Rejected e)
  | (w', None) =>
      (w', Fulfilled (pushed (skipn (List.length (log w)) (log w'))))
  end.

Fixpoint traverse {A B : Type} (f : A -> option B) (xs : list A)
  : option (list B) :=
  match xs with
  | [] => Some []
  | x :: r =>
      match f x, traverse f r with
      | Some y, Some ys => Some (y :: ys)
      | _, _ => None
      end
  end.

(** [uniq(processedContent.flatMap(extractLinksFromHtml))
      .filter(isHrefFromBaseUrl).map(removeTrailing...(complete...))
      .filter(isPresent)] *)
Definition discoveredLinks (W : WebImports) (baseUrl : string)
    (processedContent : list string) : option (list string) :=
  match traverse (extractLinksFromHtml W) processedContent with
  | None => None
  | Some hrefs =>
      Some (map (fun href =>
                   removeTrailingSlashQueryParamsAndHash W
                     (completeHrefWithBaseUrl W baseUrl href))
                (filter (isHrefFromBaseUrl W baseUrl) (uniq (List.concat hrefs))))
  end.

(** The [while (linksToProcess.length > 0)] loop.  [None]: out of fuel. *)
Fixpoint discover (U : Imports) (W : WebImports) (H : Hooks) (R : Rounds)
    (src : string) (force cb : bool) (baseUrl : string)
    (fuel round : nat) (processedLinks linksToProcess : list string)
    (w : World) : option (World * list string) :=
  match linksToProcess with
  | [] => Some (w, processedLinks)
  | _ :: _ =>
      match fuel with
      | O => None
      | S fuel' =>
          match generateEmbeddingsForUrls U W H R src force cb round
                  linksToProcess w with
          | (w', Rejected _) => Some (w', processedLinks)
          | (w', Fulfilled processedContent) =>
              match discoveredLinks W baseUrl processedContent with
              | None => Some (w', processedLinks)
              | Some found =>
                  let processedLinks' := processedLinks ++ linksToProcess in
                  discover U W H R src force cb baseUrl fuel' (S round)
                    processedLinks'
                    (filter (fun link => negb (includes processedLinks' link))
                            found)
                    w'
              end
          end
      end
  end.

(** [case 'website'] of [_trainSource]. *)
Definition trainWebsite (U : Imports) (W : WebImports) (H : Hooks)
    (R : Rounds) (src data_url : string) (force cb : bool)
    (fuel : nat) (w : World) : option World :=
  let baseUrl := toNormalizedUrl W data_url in
  let origin := toNormalizedOrigin W baseUrl in
  let failed (e : Thrown) (w : World) :=
    emit (OnError ("Error processing website " +++ origin +++ ": "
                   +++ detail e)) w in
  if isSitemapUrl W baseUrl then
    match fetchSitemapUrls W baseUrl with
    | Rejected e => Some (failed e w)
    | Fulfilled sitemapUrls =>
        match generateEmbeddingsForUrls U W H R src force cb 0
                (firstn 10 sitemapUrls) w with
        | (w', Rejected e) => Some (failed e w')
        | (w', Fulfilled _) => Some w'
        end
    end
  else
    match discover U W H R src force cb baseUrl fuel 0 []
            [removeTrailingSlashQueryParamsAndHash W data_url] w with
    | Some (w', _) => Some w'
    | None => None
    end.

(** The URLs handed to [fetchPageContent], in the order of the calls. *)
Definition fetched (evs : list Event) : list string :=
  flat_map (fun e => match e with GetFileData _ url => [url] | _ => [] end) evs.

(** The files handed to [processFile], in the order of the calls. *)
Definition processed (evs : list Event) : list FileData :=
  flat_map (fun e => match e with ProcessFile _ f => [f] | _ => [] end) evs.

(** *** Notions used to state the properties *)

(** The events appended between two worlds. *)
Definition since (w w' : World) : list Event :=
  skipn (List.length (log w)) (log w').

(** [emits Q w w']: going from [w] to [w'] appended events satisfying [Q]. *)
Definition emits (Q : list Event -> Prop) (w w' : World) : Prop :=
  exists evs, log w' = log w ++ evs /\ Q evs.

(** In the words of the specification: [c] is the checksum stored for the
    path [p], that of the first row stored for [p].  The code finds it with
    [findChecksum] and compares it with [sameChecksum]. *)
Definition storedChecksum (checksums : list ChecksumRow) (p c : string)
  : Prop :=
  exists before row after,
    checksums = before ++ row :: after /\
    Forall (fun r => row_path r <> p) before /\
    row_path row = p /\ row_checksum row = Some c.

(** What holds of the events of a run of [generateEmbeddings]: every call
    of a collaborator is the call the code makes for some index below
    [numFiles], and a settled [getFileData] is followed by [processFile]
    exactly when the checksum test does not skip the file. *)
Definition wellFormed (U : Imports) (H : Hooks) (a : Args)
    (checksums : list ChecksumRow) (evs : list Event) : Prop :=
  (forall i u, In (GetFileData i u) evs ->
     i < numFiles a /\ u = getFilePath a i /\ included U H a u = true) /\
  (forall i r, In (FileDataSettled i r) evs ->
     i < numFiles a /\ r = getFileData a i) /\
  (forall i fd, In (FileDataSettled i (Fulfilled (Some fd))) evs ->
     skips U a checksums (fileOf a i fd) = false ->
     In (ProcessFile (sourceId a) (fileOf a i fd)) evs) /\
  (forall s f, In (ProcessFile s f) evs ->
     s = sourceId a /\ skips U a checksums f = false /\
     exists i fd, In (FileDataSettled i (Fulfilled (Some fd))) evs /\
                  f = fileOf a i fd).

(** A suspended call belongs to the run. *)
Definition taskOk (a : Args) (checksums : list ChecksumRow) (t : Task) : Prop :=
  match t with
  | AwaitFileData i p prev =>
      i < numFiles a /\ p = getFilePath a i /\ prev = findChecksum checksums p
  | AwaitProcessFile i f _ => i < numFiles a /\ path f = getFilePath a i
  end.

Definition runOk (a : Args) (checksums : list ChecksumRow) (r : Run) : Prop :=
  Forall (fun i => i < numFiles a) (queue r) /\ Forall (taskOk a checksums) (active r).

(** A message of the error list that does not report a quota error. *)
Definition ordinaryError (U : Imports) (msg : string) : Prop :=
  exists p e, msg = errorProcessingFile U p e /\ isQuotaExceeded U e = false.

(** While nobody asked to stop: the indices below [k] were started, and each
    included one is waiting for its data or has had it settled. *)
Definition progressed (U : Imports) (H : Hooks) (a : Args)
    (checksums : list ChecksumRow) (w0 : World) (r : Run) : Prop :=
  stopFlag (world r) = false /\
  exists k evs, log (world r) = log w0 ++ evs /\
    k <= numFiles a /\ queue r = seq k (numFiles a - k) /\
    forall i, i < k -> included U H a (getFilePath a i) = true ->
      In (AwaitFileData i (getFilePath a i)
            (findChecksum checksums (getFilePath a i))) (active r) \/
      In (FileDataSettled i (getFileData a i)) evs.

(** A finite site: every same-origin link of a page of [universe] leads,
    once normalised, to a URL of [universe]. *)
Definition closedSite (W : WebImports) (baseUrl : string)
    (universe : list string) : Prop :=
  forall u c hrefs href,
    In u universe ->
    fetchPageContent W u = Fulfilled (Some c) ->
    extractLinksFromHtml W c = Some hrefs ->
    In href hrefs ->
    isHrefFromBaseUrl W baseUrl href = true ->
    In (removeTrailingSlashQueryParamsAndHash W
          (completeHrefWithBaseUrl W baseUrl href)) universe.

(** The URLs of [universe] not yet among the processed links. *)
Definition unvisited (universe processedLinks : list string) : nat :=
  List.length (filter (fun u => negb (includes processedLinks u)) universe).

(** The events after the first quota toast. *)
Fixpoint afterQuota (evs : list Event) : list Event :=
  match evs with
  | [] => []
  | ToastQuota :: r => r
  | _ :: r => afterQuota r
  end.

(** An event that is no call of a collaborator of the run. *)
Definition quiet (e : Event) : Prop :=
  match e with
  | GetFileData _ _ | FileDataSettled _ _ | ProcessFile _ _ => False
  | _ => True
  end.

(** Closes [log w' = log w ++ ?evs] once [w'] is a tower of updates of [w]. *)
Ltac logs :=
  cbn [log emit setState setErrors setStopFlag fst snd];
  rewrite <- ?app_assoc; cbn [app]; reflexivity.

End Training.

(** *** Concrete runs of the orchestrator and of the crawler *)
Module TrainingExamples.
Import Js Training.

Definition quotaError : Thrown :=
  mkThrown (Some 403%Z) (Some "content_token_quota_exceeded") "quota exceeded".

Definition fileName (i : nat) : string :=
  "docs/f" +++ String (ascii_of_nat (48 + i)) "" +++ ".md".

(** Every path is included, a checksum is the content itself, and
    [processFile] rejects [docs/f3.md] with the quota error. *)
Definition quotaOnThird : Imports :=
  mkImports (fun _ _ _ _ => true) (fun c => c)
    (fun _ f => if String.eqb (path f) "docs/f3.md"
                then Rejected quotaError else Fulfilled tt)
    "content_token_quota_exceeded" detail.

Definition hooks : Hooks := mkHooks None None (Some "project-1").

Definition bodyOf (i : nat) : PartialFileData :=
  mkPartial (Some (fileName i)) (Some ("body of " +++ fileName i)) None None.

(** Seven files, none of them seen before. *)
Definition sevenFiles : Args :=
  mkArgs "source-1" github 7 false fileName
    (fun i => Fulfilled (Some (bodyOf i))) true.

Definition fresh : World := mkWorld idle [] false [].

(** The first five calls start; the data of item 3 and then its
    [processFile] settle before anything else does. *)
Definition thirdFirst : list Choice :=
  [Start; Start; Start; Start; Start; Resume 3; Resume 4].

(** A site of two pages: the root links to two anchors of [/a], and [/a]
    links back to the root. *)
Fixpoint cutAt (s : string) : string :=
  match s with
  | EmptyString => EmptyString
  | String c r =>
      if Ascii.eqb c "?" || Ascii.eqb c "#" then EmptyString
      else String c (cutAt r)
  end.

Fixpoint dropTrailingSlashes (s : string) : string :=
  match s with
  | EmptyString => EmptyString
  | String c r =>
      match dropTrailingSlashes r with
      | EmptyString => if Ascii.eqb c "/" then EmptyString else String c EmptyString
      | r' => String c r'
      end
  end.

Definition twoPages : WebImports :=
  mkWebImports
    (fun url =>
       if String.eqb url "https://x.io" then Fulfilled (Some "root page")
       else if String.eqb url "https://x.io/a" then Fulfilled (Some "page a")
       else Fulfilled None)
    (fun html =>
       if String.eqb html "root page" then Some ["/a#intro"; "/a#usage"]
       else if String.eqb html "page a" then Some ["/"]
       else Some [])
    (fun _ href => String.prefix "/" href)
    (fun _ href => "https://x.io" +++ href)
    (fun url => dropTrailingSlashes (cutAt url))
    (fun url => url)
    (fun _ => "https://x.io")
    (fun _ => false)
    (fun _ => Fulfilled [])
    lastSegment.

Definition everyFileOk : Imports :=
  mkImports (fun _ _ _ _ => true) (fun c => c) (fun _ _ => Fulfilled tt)
    "content_token_quota_exceeded" detail.

(** The same seven files, to be retrained whatever their checksums. *)
Definition sevenFilesAnew : Args :=
  mkArgs "source-1" github 7 true fileName
    (fun i => Fulfilled (Some (bodyOf i))) true.

(** The table of checksums when [docs/f0.md] was stored as it is now, and
    when it was stored with another content. *)
Definition upToDate : list ChecksumRow :=
  [mkRow "docs/f9.md" (Some "body of docs/f9.md");
   mkRow "docs/f0.md" (Some "body of docs/f0.md")].
Definition outOfDate : list ChecksumRow :=
  [mkRow "docs/f9.md" (Some "body of docs/f0.md");
   mkRow "docs/f0.md" (Some "stale")].

Definition calmRounds : Rounds :=
  mkRounds (fun _ => Fulfilled (Some [])) (fun _ => []).

End TrainingExamples.

(* --------------------------------------------------------------------- *)
(** ** [src/packages/core/index.js]                                       *)
(* --------------------------------------------------------------------- *)
Module Core.
Import Js.

(** A JavaScript string is held as the bytes of its UTF-8 encoding; a
    byte sequence read from the network is a [string] as well. *)

Definition DEFAULT_MODEL : string := "gpt-3.5-turbo".
Definition I_DONT_KNOW_MESSAGE : string :=
  "Sorry, I am not sure how to answer that.".
Definition MARKPROMPT_COMPLETIONS_URL : string :=
  "https://api.markprompt.com/v1/completions".
Definition STREAM_SEPARATOR : string := "___START_RESPONSE_STREAM___".

(** *** String operations of the platform *)

(** [s.startsWith(sep)] *)
Fixpoint startsWith (sep s : string) : bool :=
  match sep, s with
  | EmptyString, _ => true
  | String _ _, EmptyString => false
  | String a sep', String b s' => Ascii.eqb a b && startsWith sep' s'
  end.

(** [s.slice(n)] *)
Fixpoint drop (n : nat) (s : string) : string :=
  match n, s with
  | O, _ => s
  | S _, EmptyString => EmptyString
  | S n', String _ s' => drop n' s'
  end.

(** [s.includes(sep)] *)
Fixpoint includes (s sep : string) : bool :=
  startsWith sep s ||
  match s with
  | EmptyString => false
  | String _ s' => includes s' sep
  end.

(** The text before the first occurrence of [sep] and the text after it. *)
Fixpoint cut (sep s : string) : option (string * string) :=
  if startsWith sep s then Some (EmptyString, drop (String.length sep) s)
  else
    match s with
    | EmptyString => None
    | String c s' =>
        match cut sep s' with
        | Some (b, a) => Some (String c b, a)
        | None => None
        end
    end.

(** [s.split(sep)] for a separator that is not empty: the pieces between
    the occurrences of [sep], found from the left.  A string of length [n]
    has at most [n + 1] pieces. *)
Fixpoint pieces (fuel : nat) (sep s : string) : list string :=
  match fuel with
  | O => [s]
  | S fuel' =>
      match cut sep s with
      | Some (b, a) => b :: pieces fuel' sep a
      | None => [s]
      end
  end.
Definition split (s sep : string) : list string :=
  pieces (S (String.length s)) sep s.

(** [parts[i]] *)
Definition part (i : nat) (parts : list string) : string := nth i parts "".

(** *** [TextDecoder.decode(bytes)], called without [{stream: true}]

    The UTF-8 decoder of the Encoding standard.  Every call starts afresh: a
    well-formed sequence is kept as it is, every ill-formed one, also a
    sequence cut short by the end of the bytes, becomes U+FFFD, and a
    leading byte order mark is dropped. *)
Definition replacement : string :=
  String (ascii_of_nat 239) (String (ascii_of_nat 191) (String (ascii_of_nat 189) "")).
Definition byteOrderMark : string :=
  String (ascii_of_nat 239) (String (ascii_of_nat 187) (String (ascii_of_nat 191) "")).

Inductive Lead : Type :=
| Single
| Need (more lower upper : nat)
| Invalid.

Definition lead (n : nat) : Lead :=
  if n <=? 127 then Single
  else if (194 <=? n) && (n <=? 223) then Need 1 128 191
  else if (224 <=? n) && (n <=? 239) then
    Need 2 (if n =? 224 then 160 else 128) (if n =? 237 then 159 else 191)
  else if (240 <=? n) && (n <=? 244) then
    Need 3 (if n =? 240 then 144 else 128) (if n =? 244 then 143 else 191)
  else Invalid.

Fixpoint utf8 (needed lower upper : nat) (seen : string) (bytes : string)
  : string :=
  match bytes with
  | EmptyString => match needed with O => "" | S _ => replacement end
  | String b rest =>
      let n := nat_of_ascii b in
      let afresh :=
        match lead n with
        | Single => String b (utf8 0 128 191 "" rest)
        | Need more lo hi => utf8 more lo hi (String b "") rest
        | Invalid => replacement +++ utf8 0 128 191 "" rest
        end in
      match needed with
      | O => afresh
      | S more =>
          if (lower <=? n) && (n <=? upper) then
            match more with
            | O => seen +++ String b (utf8 0 128 191 "" rest)
            | S _ => utf8 more 128 191 (seen +++ String b "") rest
            end
          else replacement +++ afresh
      end
  end.

Definition decode (bytes : string) : string :=
  if startsWith byteOrderMark bytes then utf8 0 128 191 "" (drop 3 bytes)
  else utf8 0 128 191 "" bytes.

(** *** [submitPrompt] *)

(** [options]; an absent field is [undefined]. *)
Record Options : Type := mkOptions {
  completionsUrl : option string;
  iDontKnowMessage : option string;
  model : option string;
  promptTemplate : option string }.

Definition noOptions : Options := mkOptions None None None None.

(** [options?.[key] ?? value] *)
Definition orDefault (o : option string) (d : string) : string :=
  match o with Some v => v | None => d end.

(** [options.iDontKnowMessage] once the defaults are filled in. *)
Definition fallbackMessage (options : option Options) : string :=
  orDefault (iDontKnowMessage
               (match options with Some o => o | None => noOptions end))
            I_DONT_KNOW_MESSAGE.

(** What is sent: the URL and the fields of the JSON body. *)
Record Request : Type := mkRequest {
  req_url : string;
  req_prompt : string;
  req_model : string;
  req_iDontKnowMessage : string;
  req_promptTemplate : option string;
  req_projectKey : string }.

Definition requestOf (prompt projectKey : string) (options : option Options)
  : Request :=
  let given := match options with Some o => o | None => noOptions end in
  mkRequest
    (orDefault (completionsUrl given) MARKPROMPT_COMPLETIONS_URL)
    prompt
    (orDefault (model given) DEFAULT_MODEL)
    (fallbackMessage options)
    (match promptTemplate given with
     | Some t => if String.eqb t "" then None else Some t
     | None => None
     end)
    projectKey.

(** The body of a response: the byte chunks its reader yields, and, when the
    stream breaks after them, the error [reader.read()] rejects with. *)
Record Body : Type := mkBody {
  chunks : list string;
  broken : option string }.

(** [fetch] throws, or answers with [res.ok], [res.body] and what
    [res.text()] settles to.  An error is held as its message. *)
Inductive Fetched : Type :=
| FetchThrows (error : string)
| Response (ok : bool) (body : option Body) (text : Settled string string).

(** The platform: [fetch] and [JSON.parse] ([None]: it throws), over the
    values [J] that [JSON.parse] yields, among them the empty array. *)
Record Platform (J : Type) : Type := mkPlatform {
  emptyArray : J;
  JSON_parse : string -> option J;
  fetch : Request -> Fetched }.
Arguments mkPlatform {J}.
Arguments emptyArray {J}.
Arguments JSON_parse {J}.
Arguments fetch {J}.

(** The calls of the three callbacks. *)
Inductive Callback (J : Type) : Type :=
| AnswerChunk (answerChunk : string)
| References (references : J)
| Error (message : string).
Arguments AnswerChunk {J} answerChunk.
Arguments References {J} references.
Arguments Error {J} message.

(** The variables of the reading loop and the callbacks called so far. *)
Record Reading (J : Type) : Type := mkReading {
  startText : string;
  didHandleHeader : bool;
  refs : J;
  calls : list (Callback J) }.
Arguments mkReading {J}.
Arguments startText {J}.
Arguments didHandleHeader {J}.
Arguments refs {J}.
Arguments calls {J}.

(** The body of the [while (!done)] loop for one decoded [chunkValue]. *)
Definition onChunk {J : Type} (P : Platform J) (chunkValue : string)
    (r : Reading J) : Reading J :=
  if negb (didHandleHeader r) then
    let startText := startText r +++ chunkValue in
    if includes startText STREAM_SEPARATOR then
      let parts := split startText STREAM_SEPARATOR in
      let refs := match JSON_parse P (part 0 parts) with
                  | Some v => v
                  | None => refs r
                  end in
      mkReading startText true refs (calls r ++ [AnswerChunk (part 1 parts)])
    else mkReading startText false (refs r) (calls r)
  else
    mkReading (startText r) true (refs r) (calls r ++ [AnswerChunk chunkValue]).

(** The loop over the chunks [reader.read()] yields ... *)
Definition readSome {J : Type} (P : Platform J) (bytes : list string)
    (r : Reading J) : Reading J :=
  fold_left (fun r chunk => onChunk P (decode chunk) r) bytes r.

(** ... and then over [{done: true}], whose [value] is [undefined] and
    decodes to the empty string. *)
Definition readAll {J : Type} (P : Platform J) (bytes : list string)
    (r : Reading J) : Reading J :=
  onChunk P (decode "") (readSome P bytes r).

(** How the promise of [submitPrompt] settles. *)
Inductive Settlement : Type :=
| Resolves
| Rejects (message : string).

(** [submitPrompt] for callbacks that return: the calls it makes and how
    its promise settles.  [onChunk], [readSome] and [readAll] above are the
    loop for such callbacks.  The module [Callbacks] below follows the same
    code for callbacks of which a call may throw. *)
Definition submitPrompt {J : Type} (P : Platform J)
    (prompt projectKey : string) (options : option Options)
  : list (Callback J) * Settlement :=
  if String.eqb projectKey "" then ([], Rejects "A projectKey is required.")
  else if String.eqb prompt "" then ([], Resolves)
  else
    let iDontKnowMessage := fallbackMessage options in
    let failed (before : list (Callback J)) (error : string) :=
      (before ++ [AnswerChunk iDontKnowMessage; Error error], Resolves) in
    match fetch P (requestOf prompt projectKey options) with
    | FetchThrows error => failed [] error
    | Response ok body text =>
        match (if ok then body else None) with
        | None =>
            match text with
            | Fulfilled t => failed [] t
            | Rejected error => failed [] error
            end
        | Some b =>
            let start := mkReading "" false (emptyArray P) [] in
            match broken b with
            | Some error => failed (calls (readSome P (chunks b) start)) error
            | None =>
                let r := readAll P (chunks b) start in
                (calls r ++ [References (refs r)], Resolves)
            end
        end
    end.

(** *** Notions used to state the properties *)

(** The concatenation of the answer chunks and the reference lists handed
    to the callbacks. *)
Fixpoint answerText {J : Type} (cs : list (Callback J)) : string :=
  match cs with
  | [] => ""
  | AnswerChunk t :: r => t +++ answerText r
  | _ :: r => answerText r
  end.


(** The platform [P] with a [fetch] that answers with status ok and a body
    that yields the chunks [bytes] and then ends. *)
Definition serving {J : Type} (P : Platform J) (bytes : list string)
  : Platform J :=
  mkPlatform (emptyArray P) (JSON_parse P)
    (fun _ => Response true (Some (mkBody bytes None)) (Fulfilled "")).

(** The chunks put together again. *)
Definition joined (bytes : list string) : string :=
  fold_right String.append "" bytes.


(** The request fails outright: [fetch] throws, or the response is not ok
    or has no body. *)
Definition failsOutright (f : Fetched) : bool :=
  match f with
  | FetchThrows _ => true
  | Response ok body _ =>
      negb ok || match body with Some _ => false | None => true end
  end.

(** No byte of the string is above 127. *)
Fixpoint isAscii (s : string) : bool :=
  match s with
  | EmptyString => true
  | String c r => (nat_of_ascii c <=? 127) && isAscii r
  end.

End Core.

(** *** Concrete responses for the decoder *)
Module CoreExamples.
Import Js Core.

Definition quote : ascii := ascii_of_nat 34.

(** [JSON.stringify] of an array of strings that need no escaping. *)
Fixpoint jsonItems (paths : list string) : string :=
  match paths with
  | [] => ""
  | [p] => String quote p +++ String quote ""
  | p :: r => String quote p +++ String quote "," +++ jsonItems r
  end.
Definition jsonPaths (paths : list string) : string :=
  "[" +++ jsonItems paths +++ "]".

(** [JSON.parse] on arrays of strings without escapes; any other text is
    refused, which is all the examples below need. *)
Inductive Parsing : Type :=
| Opening
| Item (first : bool)
| Within (acc : string)
| Between
| Closed.

Fixpoint parsePathsFrom (st : Parsing) (found : list string) (s : string)
  : option (list string) :=
  match s with
  | EmptyString => match st with Closed => Some found | _ => None end
  | String c r =>
      match st with
      | Opening =>
          if Ascii.eqb c "[" then parsePathsFrom (Item true) found r else None
      | Item first =>
          if Ascii.eqb c quote then parsePathsFrom (Within "") found r
          else if first && Ascii.eqb c "]" then parsePathsFrom Closed found r
          else None
      | Within acc =>
          if Ascii.eqb c quote then parsePathsFrom Between (found ++ [acc]) r
          else parsePathsFrom (Within (acc +++ String c "")) found r
      | Between =>
          if Ascii.eqb c "," then parsePathsFrom (Item false) found r
          else if Ascii.eqb c "]" then parsePathsFrom Closed found r
          else None
      | Closed => None
      end
  end.
Definition parsePaths (s : string) : option (list string) :=
  parsePathsFrom Opening [] s.

(** A platform whose [fetch] throws. *)
Definition offline : Platform (list string) :=
  mkPlatform [] parsePaths (fun _ => FetchThrows "Failed to fetch").

Definition header : string := jsonPaths ["docs/a.md"].

(** The scenario of the protocol: the header and the first words in one
    chunk, the rest in another. *)
Definition helloWorld : list string :=
  [header +++ STREAM_SEPARATOR +++ "Hello"; " world"].


(** The answer [é] (bytes 195 169), whole and cut between its two bytes. *)
Definition accent : string :=
  String (ascii_of_nat 195) (String (ascii_of_nat 169) "").
Definition accentWhole : string := header +++ STREAM_SEPARATOR +++ accent.
Definition accentSplit : list string :=
  [header +++ STREAM_SEPARATOR +++ String (ascii_of_nat 195) "";
   String (ascii_of_nat 169) ""].

End CoreExamples.


(* --------------------------------------------------------------------- *)
(** ** [src/unnamed/part_000]: [storePrompt], [updatePrompt] and
       [getMatchingSections] of ['@/lib/completions']                     *)
(* --------------------------------------------------------------------- *)
Module Completions.
Import Js.

(** In this module and the next a JavaScript string is held as a [string],
    one character per code unit, and a number as a rational. *)

(** [PromptNoResponseReason] *)
Inductive PromptNoResponseReason : Type := no_sections | idk | api_error.

(** A vector of an embedding; its numbers are carried, never inspected. *)
Definition Embedding : Type := list Q.

(** [FileSectionMatchResult]: a row of [match_file_sections]. *)
Record FileSectionMatchResult : Type := mkSection {
  files_path : string;
  files_meta : string;
  file_sections_content : string;
  file_sections_meta : string;
  file_sections_token_count : Z;
  source_type : string;
  source_data : string }.

(** [FileSectionReference]: only [file.path] is read here. *)
Record FileSectionReference : Type := mkReference {
  file_path : string;
  reference_rest : string }.

(** What is thrown: an [ApiError] or any other error, held as its text. *)
Inductive Exn : Type :=
| ApiError (code : Z) (message : string)
| Failure (text : string).

Definition Await := Settled Exn.

(** [stringToLLMInfo(...)]: the model and the kind of its endpoint. *)
Inductive ModelType : Type := chat_completions | completions.
Record LLMInfo : Type := mkLLMInfo {
  model_type : ModelType;
  model_value : string }.

(** The request body built by [getPayload]. *)
Inductive PromptField : Type :=
| Messages (content : string)   (* messages: [{ role: 'user', content }] *)
| Prompt (prompt : string).
Record Payload : Type := mkPayload {
  pl_model : string;
  pl_temperature : Q;
  pl_top_p : Q;
  pl_frequency_penalty : Q;
  pl_presence_penalty : Q;
  pl_max_tokens : Q;
  pl_stream : bool;
  pl_n : Z;
  pl_prompt : PromptField }.

(** The row inserted into [query_stats]; an absent key is [None]. *)
Record QueryStat : Type := mkQueryStat {
  project_id : string;
  q_prompt : option string;
  q_response : option string;
  q_embedding : option Embedding;
  q_no_response : option bool;
  q_meta_references : option (list FileSectionReference);
  q_meta_noResponseReason : option PromptNoResponseReason;
  q_processed_state : option string }.

(** The calls of the collaborators, in the order they are made. *)
Inductive Event : Type :=
| RateLimit (projectId : string)
| Moderation (input : string) (key : option string)
| CreateEmbedding (attempt : nat) (input : string) (key : option string)
    (modelId : string)
| TokenCount (projectId : string) (info : LLMInfo) (count : Z) (kind : string)
| MatchFileSections (projectId : string) (embedding : Embedding)
    (match_threshold match_count : Q) (min_content_length : Z)
| ConsoleError (msg : string)
| Track (projectId : string) (what : string)
| Insert (row : QueryStat)
| Update (promptId : string) (response : option string)
    (no_response : option bool)
| Completion (url : string) (authorization : string) (payload : Payload).

(** What the OpenAI embeddings endpoint answers: [error?.message],
    [usage.total_tokens] and [data?.[0]?.embedding].  [er_total_tokens] is
    [None] for an answer without [usage], on which reading
    [usage.total_tokens] throws a [TypeError]; a [usage] carries its
    [total_tokens], as the type [CreateEmbeddingResponse] has it. *)
Record EmbeddingResponse : Type := mkEmbeddingResponse {
  er_error : option string;
  er_total_tokens : option Z;
  er_embedding : option Embedding }.

(** What [supabaseAdmin.rpc('match_file_sections', ...)] answers. *)
Record MatchResponse : Type := mkMatchResponse {
  mr_error : option string;
  mr_data : option (list FileSectionMatchResult) }.

(** The imports of the module that are no part of the files at hand, and the
    answers of the services behind them.  [createEmbedding] is asked once
    per attempt of [backOff]. *)
Record Imports : Type := mkImports {
  createModeration : string -> option string -> Await bool;
  createEmbedding :
    nat -> string -> option string -> string -> Await EmbeddingResponse;
  recordProjectTokenCount : string -> LLMInfo -> Z -> string -> Await unit;
  stringToLLMInfo : option string -> LLMInfo;
  match_file_sections :
    string -> Embedding -> Q -> Q -> Z -> Await MatchResponse;
  insert_id : QueryStat -> option string;
  toUpperCase : string -> string;
  showError : Exn -> string }.

(** *** Effects: the events emitted and how the computation ends *)
Inductive Outcome (A : Type) : Type :=
| Ok (a : A)
| Throw (e : Exn).
Arguments Ok {A} a.
Arguments Throw {A} e.

Definition M (A : Type) : Type := list Event * Outcome A.

Definition ret {A : Type} (a : A) : M A := ([], Ok a).
Definition throw {A : Type} (e : Exn) : M A := ([], Throw e).
Definition emit (e : Event) : M unit := ([e], Ok tt).
Definition bind {A B : Type} (m : M A) (f : A -> M B) : M B :=
  match m with
  | (evs, Ok a) => let (evs', r) := f a in (evs ++ evs', r)
  | (evs, Throw e) => (evs, Throw e)
  end.
(** [try { m } catch (e) { h e }] *)
Definition catch {A : Type} (m : M A) (h : Exn -> M A) : M A :=
  match m with
  | (evs, Throw e) => let (evs', r) := h e in (evs ++ evs', r)
  | done => done
  end.
(** [await call], the call being logged as [e]. *)
Definition await {A : Type} (e : Event) (r : Await A) : M A :=
  match r with
  | Fulfilled a => ([e], Ok a)
  | Rejected x => ([e], Throw x)
  end.

Notation "x <- m ;; k" := (bind m (fun x => k))
  (at level 61, m at next level, right associativity).
Notation "m ;;; k" := (bind m (fun _ => k))
  (at level 61, right associativity).

(** A string that is not empty, the only truthy strings. *)
Definition truthy (o : option string) : bool :=
  match o with Some s => negb (String.eqb s "") | None => false end.

(** [x || d] on numbers: zero is falsy. *)
Definition numOr (x : option Q) (d : Q) : Q :=
  match x with
  | Some q => if Qeq_bool q 0 then d else q
  | None => d
  end.

(** *** [storePrompt] *)
Definition storePrompt (U : Imports) (projectId : string)
    (prompt response : option string) (embedding : option Embedding)
    (noResponseReason : option PromptNoResponseReason)
    (references : option (list FileSectionReference)) (redact : bool)
  : M (option string) :=
  let row :=
    mkQueryStat projectId
      (if truthy prompt then prompt else None)
      (if truthy response then response else None)
      embedding
      (match noResponseReason with Some _ => Some true | None => None end)
      (match references with
       | Some (r :: rs) => Some (r :: rs)
       | _ => None
       end)
      noResponseReason
      (if redact then Some "unprocessed" else None) in
  emit (Insert row) ;;;
  ret (insert_id U row).

(** *** [updatePrompt] *)
Definition updatePrompt (promptId : string) (response : option string)
    (noResponseReason : option PromptNoResponseReason) : M unit :=
  emit (Update promptId
          (if truthy response then response else None)
          (match noResponseReason with Some _ => Some true | None => None end)).

(** *** [getMatchingSections] *)

(** [backOff(() => createEmbedding(...), { numOfAttempts })]: the call is
    repeated until it is fulfilled or the attempts are used up; the delays
    between the attempts are not modelled. *)
Fixpoint backOff (U : Imports) (left attempt : nat)
    (input : string) (key : option string) (modelId : string)
  : M EmbeddingResponse :=
  match createEmbedding U attempt input key modelId with
  | Fulfilled r => ([CreateEmbedding attempt input key modelId], Ok r)
  | Rejected x =>
      match left with
      | O => ([CreateEmbedding attempt input key modelId], Throw x)
      | S left' =>
          emit (CreateEmbedding attempt input key modelId) ;;;
          backOff U left' (S attempt) input key modelId
      end
  end.

Definition embeddingsModel : string := "text-embedding-ada-002".

Definition creatingEmbeddingFailed (verbatimPrompt : string) : string :=
  "Error creating embedding for prompt '" +++ verbatimPrompt +++ "'".

(** The [try ... catch] around the embedding of the query. *)
Definition embedQuery (U : Imports) (sanitizedQuery verbatimPrompt : string)
    (projectId : string) (byoOpenAIKey : option string) (source : string)
  : M EmbeddingResponse :=
  catch
    (embeddingResult <- backOff U 9 0 sanitizedQuery byoOpenAIKey
                          embeddingsModel ;;
     match er_error embeddingResult with
     | Some message => throw (ApiError 400 message)
     | None =>
         (if truthy byoOpenAIKey then ret tt
          else
            match er_total_tokens embeddingResult with
            | None => throw (Failure "TypeError")
            | Some total =>
                await (TokenCount projectId
                         (stringToLLMInfo U (Some embeddingsModel))
                         total "sections")
                  (recordProjectTokenCount U projectId
                     (stringToLLMInfo U (Some embeddingsModel))
                     total "sections")
            end) ;;;
         ret embeddingResult
     end)
    (fun error =>
       emit (ConsoleError
               ("[" +++ toUpperCase U source +++ "] [CREATE-EMBEDDING] ["
                +++ projectId +++ "] - "
                +++ creatingEmbeddingFailed verbatimPrompt +++ ": "
                +++ showError U error)) ;;;
       throw (ApiError 400
                (creatingEmbeddingFailed verbatimPrompt +++ ": "
                 +++ showError U error))).

(** The query of the vector index and the tests of its answer. *)
Definition matchSections (U : Imports) (promptEmbedding : Embedding)
    (sectionsMatchThreshold sectionsMatchCount : option Q)
    (projectId source : string)
  : M (list FileSectionMatchResult * Embedding) :=
  let threshold := numOr sectionsMatchThreshold (1 # 2) in
  let count := numOr sectionsMatchCount 10 in
  answer <- await (MatchFileSections projectId promptEmbedding
                     threshold count 30)
              (match_file_sections U projectId promptEmbedding
                 threshold count 30) ;;
  match mr_error answer with
  | Some message =>
      emit (ConsoleError
              ("[" +++ toUpperCase U source +++ "] [LOAD-EMBEDDINGS] ["
               +++ projectId +++ "] - Error loading embeddings: "
               +++ message)) ;;;
      throw (ApiError 400 ("Error loading embeddings: " +++ message))
  | None =>
      match mr_data answer with
      | Some (section :: sections) =>
          ret (section :: sections, promptEmbedding)
      | _ =>
          emit (ConsoleError
                  ("[" +++ toUpperCase U source
                   +++ "] [LOAD-EMBEDDINGS] [" +++ projectId
                   +++ "] - No relevant sections found")) ;;;
          throw (ApiError 400 "No relevant sections found")
      end
  end.

Definition getMatchingSections (U : Imports)
    (sanitizedQuery verbatimPrompt : string)
    (sectionsMatchThreshold sectionsMatchCount : option Q)
    (projectId : string) (byoOpenAIKey : option string) (source : string)
  : M (list FileSectionMatchResult * Embedding) :=
  flagged <- await (Moderation sanitizedQuery byoOpenAIKey)
               (createModeration U sanitizedQuery byoOpenAIKey) ;;
  if (flagged : bool) then throw (ApiError 400 "Flagged content")
  else
    embeddingResult <- embedQuery U sanitizedQuery verbatimPrompt projectId
                         byoOpenAIKey source ;;
    match er_embedding embeddingResult with
    | None => throw (ApiError 400 (creatingEmbeddingFailed verbatimPrompt))
    | Some promptEmbedding =>
        matchSections U promptEmbedding sectionsMatchThreshold
          sectionsMatchCount projectId source
    end.

(** *** Notions used to state the properties *)

(** The calls that spend on a query after its moderation. *)
Definition spends (e : Event) : Prop :=
  match e with
  | CreateEmbedding _ _ _ _ | TokenCount _ _ _ _
  | MatchFileSections _ _ _ _ _ | Completion _ _ _ => True
  | _ => False
  end.

Definition isRetrieval (e : Event) : Prop :=
  match e with MatchFileSections _ _ _ _ _ => True | _ => False end.

End Completions.

(* --------------------------------------------------------------------- *)
(** ** [src/pages/api/v1/openai/completions/[project].ts]                 *)
(* --------------------------------------------------------------------- *)
Module Handler.
Import Js Completions.

Definition newline : ascii := ascii_of_nat 10.
Definition nl : string := String newline "".

(** A value of the JSON body whose type the code tests at run time. *)
Inductive JsValue : Type :=
| JUndefined
| JNull
| JBool (b : bool)
| JNumber (q : Q)
| JString (s : string)
| JObject.

Definition isFalsy (param : JsValue) : bool :=
  match param with
  | JString s => String.eqb s "false" || String.eqb s "0"
  | JNumber q => Qeq_bool q 0
  | JBool b => negb b
  | _ => false
  end.

Definition isTruthy (param : JsValue) : bool :=
  match param with
  | JString s => String.eqb s "true" || String.eqb s "1"
  | JNumber q => Qeq_bool q 1
  | JBool b => b
  | _ => false
  end.

(** [!!param] *)
Definition toBoolean (param : JsValue) : bool :=
  match param with
  | JUndefined | JNull => false
  | JBool b => b
  | JNumber q => negb (Qeq_bool q 0)
  | JString s => negb (String.eqb s "")
  | JObject => true
  end.

(** The fields of the JSON body that the handler reads. *)
Record Params : Type := mkParams {
  prompt : option string;
  i_dont_know_message : option string;
  iDontKnowMessage : option string;
  stream : JsValue;
  excludeFromInsights : JsValue;
  redact : JsValue;
  model : option string;
  sectionsMatchThreshold : option Q;
  sectionsMatchCount : option Q;
  promptTemplate : option string;
  contextTag : option string;
  promptTag : option string;
  idkTag : option string;
  doNotInjectContext : JsValue;
  doNotInjectPrompt : JsValue;
  temperature : option Q;
  topP : option Q;
  frequencyPenalty : option Q;
  presencePenalty : option Q;
  maxTokens : option Q }.

(** The keys of the body, for [modelConfigFields]. *)
Inductive Field : Type :=
| f_prompt | f_i_dont_know_message | f_iDontKnowMessage | f_stream
| f_excludeFromInsights | f_redact | f_model | f_sectionsMatchThreshold
| f_sectionsMatchCount | f_promptTemplate | f_contextTag | f_promptTag
| f_idkTag | f_doNotInjectContext | f_doNotInjectPrompt | f_temperature
| f_topP | f_frequencyPenalty | f_presencePenalty | f_maxTokens.

(** [{ ...params, [field]: undefined }] *)
Definition unset (field : Field) (ps : Params) : Params :=
  match field with
  | f_prompt =>
      mkParams None (i_dont_know_message ps) (iDontKnowMessage ps)
        (stream ps) (excludeFromInsights ps) (redact ps) (model ps)
        (sectionsMatchThreshold ps) (sectionsMatchCount ps)
        (promptTemplate ps) (contextTag ps) (promptTag ps) (idkTag ps)
        (doNotInjectContext ps) (doNotInjectPrompt ps) (temperature ps)
        (topP ps) (frequencyPenalty ps) (presencePenalty ps) (maxTokens ps)
  | f_i_dont_know_message =>
      mkParams (prompt ps) None (iDontKnowMessage ps) (stream ps)
        (excludeFromInsights ps) (redact ps) (model ps)
        (sectionsMatchThreshold ps) (sectionsMatchCount ps)
        (promptTemplate ps) (contextTag ps) (promptTag ps) (idkTag ps)
        (doNotInjectContext ps) (doNotInjectPrompt ps) (temperature ps)
        (topP ps) (frequencyPenalty ps) (presencePenalty ps) (maxTokens ps)
  | f_iDontKnowMessage =>
      mkParams (prompt ps) (i_dont_know_message ps) None (stream ps)
        (excludeFromInsights ps) (redact ps) (model ps)
        (sectionsMatchThreshold ps) (sectionsMatchCount ps)
        (promptTemplate ps) (contextTag ps) (promptTag ps) (idkTag ps)
        (doNotInjectContext ps) (doNotInjectPrompt ps) (temperature ps)
        (topP ps) (frequencyPenalty ps) (presencePenalty ps) (maxTokens ps)
  | f_stream =>
      mkParams (prompt ps) (i_dont_know_message ps) (iDontKnowMessage ps)
        JUndefined (excludeFromInsights ps) (redact ps) (model ps)
        (sectionsMatchThreshold ps) (sectionsMatchCount ps)
        (promptTemplate ps) (contextTag ps) (promptTag ps) (idkTag ps)
        (doNotInjectContext ps) (doNotInjectPrompt ps) (temperature ps)
        (topP ps) (frequencyPenalty ps) (presencePenalty ps) (maxTokens ps)
  | f_excludeFromInsights =>
      mkParams (prompt ps) (i_dont_know_message ps) (iDontKnowMessage ps)
        (stream ps) JUndefined (redact ps) (model ps)
        (sectionsMatchThreshold ps) (sectionsMatchCount ps)
        (promptTemplate ps) (contextTag ps) (promptTag ps) (idkTag ps)
        (doNotInjectContext ps) (doNotInjectPrompt ps) (temperature ps)
        (topP ps) (frequencyPenalty ps) (presencePenalty ps) (maxTokens ps)
  | f_redact =>
      mkParams (prompt ps) (i_dont_know_message ps) (iDontKnowMessage ps)
        (stream ps) (excludeFromInsights ps) JUndefined (model ps)
        (sectionsMatchThreshold ps) (sectionsMatchCount ps)
        (promptTemplate ps) (contextTag ps) (promptTag ps) (idkTag ps)
        (doNotInjectContext ps) (doNotInjectPrompt ps) (temperature ps)
        (topP ps) (frequencyPenalty ps) (presencePenalty ps) (maxTokens ps)
  | f_model =>
      mkParams (prompt ps) (i_dont_know_message ps) (iDontKnowMessage ps)
        (stream ps) (excludeFromInsights ps) (redact ps) None
        (sectionsMatchThreshold ps) (sectionsMatchCount ps)
        (promptTemplate ps) (contextTag ps) (promptTag ps) (idkTag ps)
        (doNotInjectContext ps) (doNotInjectPrompt ps) (temperature ps)
        (topP ps) (frequencyPenalty ps) (presencePenalty ps) (maxTokens ps)
  | f_sectionsMatchThreshold =>
      mkParams (prompt ps) (i_dont_know_message ps) (iDontKnowMessage ps)
        (stream ps) (excludeFromInsights ps) (redact ps) (model ps) None
        (sectionsMatchCount ps) (promptTemplate ps) (contextTag ps)
        (promptTag ps) (idkTag ps) (doNotInjectContext ps)
        (doNotInjectPrompt ps) (temperature ps) (topP ps)
        (frequencyPenalty ps) (presencePenalty ps) (maxTokens ps)
  | f_sectionsMatchCount =>
      mkParams (prompt ps) (i_dont_know_message ps) (iDontKnowMessage ps)
        (stream ps) (excludeFromInsights ps) (redact ps) (model ps)
        (sectionsMatchThreshold ps) None (promptTemplate ps) (contextTag ps)
        (promptTag ps) (idkTag ps) (doNotInjectContext ps)
        (doNotInjectPrompt ps) (temperature ps) (topP ps)
        (frequencyPenalty ps) (presencePenalty ps) (maxTokens ps)
  | f_promptTemplate =>
      mkParams (prompt ps) (i_dont_know_message ps) (iDontKnowMessage ps)
        (stream ps) (excludeFromInsights ps) (redact ps) (model ps)
        (sectionsMatchThreshold ps) (sectionsMatchCount ps) None
        (contextTag ps) (promptTag ps) (idkTag ps) (doNotInjectContext ps)
        (doNotInjectPrompt ps) (temperature ps) (topP ps)
        (frequencyPenalty ps) (presencePenalty ps) (maxTokens ps)
  | f_contextTag =>
      mkParams (prompt ps) (i_dont_know_message ps) (iDontKnowMessage ps)
        (stream ps) (excludeFromInsights ps) (redact ps) (model ps)
        (sectionsMatchThreshold ps) (sectionsMatchCount ps)
        (promptTemplate ps) None (promptTag ps) (idkTag ps)
        (doNotInjectContext ps) (doNotInjectPrompt ps) (temperature ps)
        (topP ps) (frequencyPenalty ps) (presencePenalty ps) (maxTokens ps)
  | f_promptTag =>
      mkParams (prompt ps) (i_dont_know_message ps) (iDontKnowMessage ps)
        (stream ps) (excludeFromInsights ps) (redact ps) (model ps)
        (sectionsMatchThreshold ps) (sectionsMatchCount ps)
        (promptTemplate ps) (contextTag ps) None (idkTag ps)
        (doNotInjectContext ps) (doNotInjectPrompt ps) (temperature ps)
        (topP ps) (frequencyPenalty ps) (presencePenalty ps) (maxTokens ps)
  | f_idkTag =>
      mkParams (prompt ps) (i_dont_know_message ps) (iDontKnowMessage ps)
        (stream ps) (excludeFromInsights ps) (redact ps) (model ps)
        (sectionsMatchThreshold ps) (sectionsMatchCount ps)
        (promptTemplate ps) (contextTag ps) (promptTag ps) None
        (doNotInjectContext ps) (doNotInjectPrompt ps) (temperature ps)
        (topP ps) (frequencyPenalty ps) (presencePenalty ps) (maxTokens ps)
  | f_doNotInjectContext =>
      mkParams (prompt ps) (i_dont_know_message ps) (iDontKnowMessage ps)
        (stream ps) (excludeFromInsights ps) (redact ps) (model ps)
        (sectionsMatchThreshold ps) (sectionsMatchCount ps)
        (promptTemplate ps) (contextTag ps) (promptTag ps) (idkTag ps)
        JUndefined (doNotInjectPrompt ps) (temperature ps) (topP ps)
        (frequencyPenalty ps) (presencePenalty ps) (maxTokens ps)
  | f_doNotInjectPrompt =>
      mkParams (prompt ps) (i_dont_know_message ps) (iDontKnowMessage ps)
        (stream ps) (excludeFromInsights ps) (redact ps) (model ps)
        (sectionsMatchThreshold ps) (sectionsMatchCount ps)
        (promptTemplate ps) (contextTag ps) (promptTag ps) (idkTag ps)
        (doNotInjectContext ps) JUndefined (temperature ps) (topP ps)
        (frequencyPenalty ps) (presencePenalty ps) (maxTokens ps)
  | f_temperature =>
      mkParams (prompt ps) (i_dont_know_message ps) (iDontKnowMessage ps)
        (stream ps) (excludeFromInsights ps) (redact ps) (model ps)
        (sectionsMatchThreshold ps) (sectionsMatchCount ps)
        (promptTemplate ps) (contextTag ps) (promptTag ps) (idkTag ps)
        (doNotInjectContext ps) (doNotInjectPrompt ps) None (topP ps)
        (frequencyPenalty ps) (presencePenalty ps) (maxTokens ps)
  | f_topP =>
      mkParams (prompt ps) (i_dont_know_message ps) (iDontKnowMessage ps)
        (stream ps) (excludeFromInsights ps) (redact ps) (model ps)
        (sectionsMatchThreshold ps) (sectionsMatchCount ps)
        (promptTemplate ps) (contextTag ps) (promptTag ps) (idkTag ps)
        (doNotInjectContext ps) (doNotInjectPrompt ps) (temperature ps) None
        (frequencyPenalty ps) (presencePenalty ps) (maxTokens ps)
  | f_frequencyPenalty =>
      mkParams (prompt ps) (i_dont_know_message ps) (iDontKnowMessage ps)
        (stream ps) (excludeFromInsights ps) (redact ps) (model ps)
        (sectionsMatchThreshold ps) (sectionsMatchCount ps)
        (promptTemplate ps) (contextTag ps) (promptTag ps) (idkTag ps)
        (doNotInjectContext ps) (doNotInjectPrompt ps) (temperature ps)
        (topP ps) None (presencePenalty ps) (maxTokens ps)
  | f_presencePenalty =>
      mkParams (prompt ps) (i_dont_know_message ps) (iDontKnowMessage ps)
        (stream ps) (excludeFromInsights ps) (redact ps) (model ps)
        (sectionsMatchThreshold ps) (sectionsMatchCount ps)
        (promptTemplate ps) (contextTag ps) (promptTag ps) (idkTag ps)
        (doNotInjectContext ps) (doNotInjectPrompt ps) (temperature ps)
        (topP ps) (frequencyPenalty ps) None (maxTokens ps)
  | f_maxTokens =>
      mkParams (prompt ps) (i_dont_know_message ps) (iDontKnowMessage ps)
        (stream ps) (excludeFromInsights ps) (redact ps) (model ps)
        (sectionsMatchThreshold ps) (sectionsMatchCount ps)
        (promptTemplate ps) (contextTag ps) (promptTag ps) (idkTag ps)
        (doNotInjectContext ps) (doNotInjectPrompt ps) (temperature ps)
        (topP ps) (frequencyPenalty ps) (presencePenalty ps) None
  end.

(** What the handler reads of the request.  [json = None]: [req.json()]
    throws. *)
Record Request : Type := mkRequest {
  method : option string;
  json : option Params;
  pathname : string;
  project : option string;   (* searchParams.get('project') *)
  origin : option string }.

(** [InsightsType]: only ['advanced'] is told apart. *)
Inductive InsightsType : Type :=
| advanced
| otherInsights (name : string).

(** An event of the provider's stream as [eventsource-parser] hands it to
    [onParse]. *)
Inductive ParsedEvent : Type :=
| SseEvent (data : string)
| ReconnectInterval.

(** What the model provider answers: [res.ok], [res.text()], and, read
    from the body, [safeParseInt(json.usage.total_tokens, 0)] with
    [getCompletionsResponseText(json, model)] ([None]: [res.json()] throws)
    and the events of the stream. *)
Record ProviderResponse : Type := mkProviderResponse {
  p_ok : bool;
  p_text : string;
  p_json : option (Z * string);
  p_events : list ParsedEvent }.

(** What [getChunkText] reads in a chunk of the provider, [delta.content]
    or [text] of its first choice: a string, [null], or nothing
    ([undefined]). *)
Inductive ChunkText : Type :=
| Content (text : string)
| NullContent
| NoContent.

(** The imports that are no part of the files at hand, the constants of
    ['@/lib/constants'] and ['@/lib/prompt'], the platform's string
    functions, and the answers of the services. *)
Record Imports : Type := mkImports {
  MAX_PROMPT_LENGTH : nat;
  CONTEXT_TOKENS_CUTOFF : Z;
  I_DONT_KNOW : string;
  STREAM_SEPARATOR : string;
  DEFAULT_PROMPT_TEMPLATE : string;
  OPENAI_API_KEY : option string;
  checkCompletionsRateLimits : string -> bool;
  isRequestFromMarkprompt : option string -> bool;
  getTeamTierInfo : string -> option string;
  canUseCustomModelConfig : string -> bool;
  getAccessibleInsightsType : string -> option InsightsType;
  modelConfigFields : list Field;
  getProjectConfigData : string -> option string;
  buildSectionReferenceFromMatchResult :
    FileSectionMatchResult -> FileSectionReference;
  getCompletionsUrl : LLMInfo -> string;
  fetchCompletions : string -> string -> Payload -> Await ProviderResponse;
  (* getChunkText(JSON.parse(data), model) *)
  chunkText : string -> LLMInfo -> Outcome ChunkText;
  trim : string -> string;
  replace : string -> string -> string -> string;
  stripIndent : string -> string;
  stringifyPaths : list string -> string;
  stringifyError : Exn -> string;
  sectionsDelta : Z }.

(** The header [x-markprompt-data]: [{ references, promptId }]. *)
Record HeaderData : Type := mkHeaderData {
  h_references : list FileSectionReference;
  h_promptId : option string }.

Inductive ResponseBody : Type :=
| Text (text : string)
| Json (text : string) (references : list FileSectionReference)
       (responseId : option string) (fullPrompt : string) (sections : Z)
| Stream (enqueued : list string) (error : option Exn).

Record Response : Type := mkResponse {
  status : Z;
  headers : option HeaderData;
  body : ResponseBody }.

(** [isIDontKnowResponse] *)
Fixpoint endsWith (s suffix : string) : bool :=
  String.eqb s suffix ||
  match s with
  | EmptyString => false
  | String _ r => endsWith r suffix
  end.

Definition isIDontKnowResponse (responseText iDontKnowMessage : string)
  : bool :=
  String.eqb responseText "" || endsWith responseText iDontKnowMessage.

(** [getPayload] *)
Definition getPayload (prompt : string) (model : LLMInfo)
    (temperature topP frequencyPenalty presencePenalty maxTokens : Q)
    (stream : bool) : Payload :=
  mkPayload (model_value model) temperature topP frequencyPenalty
    presencePenalty maxTokens stream 1
    (match model_type model with
     | chat_completions => Messages prompt
     | completions => Prompt prompt
     end).

(** [_storePrompt] *)
Definition _storePrompt (U : Completions.Imports) (projectId prompt : string)
    (responseText : option string) (promptEmbedding : option Embedding)
    (errorReason : option PromptNoResponseReason)
    (references : list FileSectionReference)
    (insightsType : option InsightsType) (excludeData redact : bool)
  : M (option string) :=
  if excludeData then
    storePrompt U projectId None None None errorReason None redact
  else
    storePrompt U projectId (Some prompt)
      (match insightsType with Some _ => responseText | None => None end)
      (match insightsType with Some advanced => promptEmbedding | _ => None end)
      errorReason
      (match insightsType with Some _ => Some references | None => None end)
      redact.

(** [text.replace(/\n/g, ' ')] and [text.replaceAll('\n', ' ')] *)
Fixpoint newlinesToSpaces (s : string) : string :=
  match s with
  | EmptyString => EmptyString
  | String c r =>
      String (if Ascii.eqb c newline then " "%char else c) (newlinesToSpaces r)
  end.

(** [text.match(/\n/)] finds something. *)
Fixpoint hasNewline (s : string) : bool :=
  match s with
  | EmptyString => false
  | String c r => Ascii.eqb c newline || hasNewline r
  end.

(** [s.substring(0, n)] *)
Fixpoint take (n : nat) (s : string) : string :=
  match n, s with
  | O, _ => EmptyString
  | S _, EmptyString => EmptyString
  | S n', String c r => String c (take n' r)
  end.

(** [buildFullPrompt] *)
Definition buildFullPrompt (V : Imports)
    (template context prompt iDontKnowMessage
     contextTemplateKeyword promptTemplateKeyword iDontKnowTemplateKeyword
       : string)
    (doNotInjectContext doNotInjectPrompt : bool) : string :=
  let _template :=
    replace V template iDontKnowTemplateKeyword
      (strOr (Some iDontKnowMessage) (I_DONT_KNOW V)) in
  let _template :=
    if Core.includes template contextTemplateKeyword then
      replace V _template contextTemplateKeyword context
    else if negb doNotInjectContext then
      "Here is some context which might contain valuable information to answer the question. It is in the form of sections preceded by a section id:"
      +++ nl +++ nl +++ "---" +++ nl +++ nl +++ context
      +++ nl +++ nl +++ "---" +++ nl +++ nl +++ _template
    else _template in
  let _template :=
    if Core.includes template promptTemplateKeyword then
      replace V _template promptTemplateKeyword prompt
    else if negb doNotInjectPrompt then
      _template +++ nl +++ nl +++ "Prompt: " +++ prompt +++ nl
    else _template in
  stripIndent V _template.

(** The [for (const section of fileSections)] loop. *)
Fixpoint assemble (V : Imports) (numTokens : Z) (contextText : string)
    (references : list FileSectionReference)
    (fileSections : list FileSectionMatchResult)
  : string * list FileSectionReference :=
  match fileSections with
  | [] => (contextText, references)
  | section :: rest =>
      let numTokens := (numTokens + file_sections_token_count section)%Z in
      if (numTokens >=? CONTEXT_TOKENS_CUTOFF V)%Z then
        (contextText, references)
      else
        assemble V numTokens
          (contextText +++ "Section id: " +++ files_path section +++ nl +++ nl
           +++ trim V (newlinesToSpaces (file_sections_content section))
           +++ nl +++ "---" +++ nl)
          (references ++ [buildSectionReferenceFromMatchResult V section])
          rest
  end.

(** *** The streaming response *)

(** The variables the stream's [start] closes over, the chunks handed to
    [controller.enqueue], and the error the stream was put into, if any. *)
Record Streaming : Type := mkStreaming {
  counter : nat;
  responseText : string;
  didSendHeader : bool;
  enqueued : list string;
  failure : option Exn }.

(** [(text?.match(/\n/) || []).length] is not zero. *)
Definition matchesNewline (text : ChunkText) : bool :=
  match text with Content t => hasNewline t | _ => false end.

(** The bytes of [encoder.encode(text)], read as text: [undefined] stands
    for the default argument, the empty string, and [null] is converted to
    the string of its name. *)
Definition encode (text : ChunkText) : string :=
  match text with
  | Content t => t
  | NullContent => "null"
  | NoContent => ""
  end.

(** [onParse].  [controller.enqueue] throws once the stream is in error, and
    [controller.error] then does nothing. *)
Definition onParse (V : Imports) (modelInfo : LLMInfo)
    (referencePaths : list string) (event : ParsedEvent) (s : Streaming)
  : Streaming :=
  match event with
  | ReconnectInterval => s
  | SseEvent data =>
      if String.eqb data "[DONE]" then s
      else
        let errored := match failure s with Some _ => true | None => false end in
        if negb (didSendHeader s) && errored then s
        else
          let sent :=
            if didSendHeader s then enqueued s
            else enqueued s
                 ++ [stringifyPaths V referencePaths +++ STREAM_SEPARATOR V] in
          match chunkText V data modelInfo with
          | Throw e =>
              mkStreaming (counter s) (responseText s) true sent
                (if errored then failure s else Some e)
          | Ok text =>
              let responseText :=
                match text with
                | Content t => responseText s +++ t
                | _ => responseText s
                end in
              if (counter s <? 2) && matchesNewline text
              then mkStreaming (counter s) responseText true sent (failure s)
              else if errored
              then mkStreaming (counter s) responseText true sent (failure s)
              else mkStreaming (S (counter s)) responseText true
                     (sent ++ [encode text]) None
          end
  end.

(** [for await (const chunk of res.body) parser.feed(...)]: every event of
    the provider goes through [onParse]. *)
Definition streamed (V : Imports) (modelInfo : LLMInfo)
    (referencePaths : list string) (events : list ParsedEvent) : Streaming :=
  fold_left (fun s event => onParse V modelInfo referencePaths event s)
    events (mkStreaming 0 "" false [] None).

(** [Math.round(allText.length / 4)] *)
Definition estimateTokens (allText : string) : Z :=
  ((Z.of_nat (String.length allText) + 2) / 4)%Z.

(** The end of the stream's [start]: the token count is recorded and the
    stored prompt is updated. *)
Definition wrapUp (U : Completions.Imports) (projectId : string)
    (modelInfo : LLMInfo) (byoOpenAIKey : option string)
    (fullPrompt iDontKnowMessage : string) (promptId : option string)
    (s : Streaming) : M unit :=
  (if truthy byoOpenAIKey then ret tt
   else await (TokenCount projectId modelInfo
                 (estimateTokens (fullPrompt +++ responseText s))
                 "completions")
          (recordProjectTokenCount U projectId modelInfo
             (estimateTokens (fullPrompt +++ responseText s))
             "completions")) ;;;
  (if truthy promptId then
     updatePrompt (match promptId with Some i => i | None => "" end)
       (Some (responseText s))
       (if isIDontKnowResponse (responseText s) iDontKnowMessage
        then Some idk else None)
   else ret tt).

(** The [start] of the stream. *)
Definition streamResponse (U : Completions.Imports) (V : Imports)
    (projectId : string) (modelInfo : LLMInfo) (byoOpenAIKey : option string)
    (fullPrompt iDontKnowMessage : string) (referencePaths : list string)
    (promptId : option string) (events : list ParsedEvent)
  : list Event * ResponseBody :=
  let s := streamed V modelInfo referencePaths events in
  match wrapUp U projectId modelInfo byoOpenAIKey fullPrompt iDontKnowMessage
          promptId s with
  | (evs, Ok _) => (evs, Stream (enqueued s) (failure s))
  | (evs, Throw e) =>
      (evs, Stream (enqueued s)
              (match failure s with Some x => Some x | None => Some e end))
  end.

(** *** [handler] *)

(** [for (const field of modelConfigFields)
      params = { ...params, [field]: undefined }] *)
Definition withoutModelConfig (V : Imports) (params : Params) : Params :=
  fold_left (fun ps field => unset field ps) (modelConfigFields V) params.

(** [params] after that loop, which runs for a request from outside the
    dashboard of a team without custom model configurations. *)
Definition effectiveParams (V : Imports) (req : Request) (projectId : string)
    (params : Params) : Params :=
  if isRequestFromMarkprompt V (origin req) then params
  else
    match getTeamTierInfo V projectId with
    | Some tier =>
        if canUseCustomModelConfig V tier then params
        else withoutModelConfig V params
    | None => withoutModelConfig V params
    end.

(** [insightsType] *)
Definition insightsTypeFor (V : Imports) (req : Request) (projectId : string)
  : option InsightsType :=
  if isRequestFromMarkprompt V (origin req) then Some advanced
  else
    match getTeamTierInfo V projectId with
    | Some tier => getAccessibleInsightsType V tier
    | None => None
    end.

(** [prompt.trim().replaceAll('\n', ' ')] *)
Definition sanitize (V : Imports) (prompt : string) : string :=
  newlinesToSpaces (trim V prompt).

(** The call of [getMatchingSections]. *)
Definition retrieve (U : Completions.Imports) (V : Imports) (params : Params)
    (prompt projectId : string)
  : M (list FileSectionMatchResult * Embedding) :=
  getMatchingSections U (sanitize V prompt) prompt
    (sectionsMatchThreshold params) (sectionsMatchCount params)
    projectId (getProjectConfigData V projectId) "completions".

(** The [catch] around it. *)
Definition sectionsFailed (U : Completions.Imports) (projectId prompt : string)
    (insightsType : option InsightsType) (excludeFromInsights redact : bool)
    (e : Exn) : M Response :=
  promptId <- _storePrompt U projectId prompt None None (Some no_sections)
                [] insightsType excludeFromInsights redact ;;
  let headers := Some (mkHeaderData [] promptId) in
  match e with
  | ApiError code message => ret (mkResponse code headers (Text message))
  | Failure text => ret (mkResponse 400 headers (Text text))
  end.

(** [fullPrompt] *)
Definition fullPromptFor (V : Imports) (params : Params)
    (contextText sanitizedQuery iDontKnowMessage : string) : string :=
  buildFullPrompt V
    (strOr (promptTemplate params) (DEFAULT_PROMPT_TEMPLATE V))
    contextText sanitizedQuery iDontKnowMessage
    (strOr (contextTag params) "{{CONTEXT}}")
    (strOr (promptTag params) "{{PROMPT}}")
    (strOr (idkTag params) "{{I_DONT_KNOW}}")
    (toBoolean (doNotInjectContext params))
    (toBoolean (doNotInjectPrompt params)).

(** The handler from the matching sections on. *)
Definition deliver (U : Completions.Imports) (V : Imports) (params : Params)
    (prompt projectId iDontKnowMessage : string)
    (insightsType : option InsightsType)
    (stream excludeFromInsights redact : bool)
    (fileSections : list FileSectionMatchResult) (promptEmbedding : Embedding)
  : M Response :=
  let modelInfo := stringToLLMInfo U (model params) in
  let byoOpenAIKey := getProjectConfigData V projectId in
  emit (Track projectId "generate completions") ;;;
  let (contextText, references) := assemble V 0 "" [] fileSections in
  let referencePaths := map file_path references in
  let fullPrompt :=
    fullPromptFor V params contextText (sanitize V prompt) iDontKnowMessage in
  let payload :=
    getPayload fullPrompt modelInfo
      (numOr (temperature params) (1 # 10))
      (numOr (topP params) 1)
      (numOr (frequencyPenalty params) 0)
      (numOr (presencePenalty params) 0)
      (numOr (maxTokens params) 500)
      stream in
  let url := getCompletionsUrl V modelInfo in
  let authorization :=
    "Bearer " +++
    (if truthy byoOpenAIKey
     then match byoOpenAIKey with Some k => k | None => "" end
     else match OPENAI_API_KEY V with Some k => k | None => "" end) in
  res <- await (Completion url authorization payload)
           (fetchCompletions V url authorization payload) ;;
  if negb stream then
    if negb (p_ok res) then
      promptId <- _storePrompt U projectId prompt None
                    (Some promptEmbedding) (Some api_error) references
                    insightsType excludeFromInsights redact ;;
      ret (mkResponse 400 (Some (mkHeaderData references promptId))
             (Text ("Unable to retrieve completions response: "
                    +++ p_text res)))
    else
      match p_json res with
      | None => throw (Failure "SyntaxError")
      | Some (tokenCount, text) =>
          await (TokenCount projectId modelInfo tokenCount "completions")
            (recordProjectTokenCount U projectId modelInfo tokenCount
               "completions") ;;;
          promptId <- _storePrompt U projectId prompt (Some text)
                        (Some promptEmbedding)
                        (if isIDontKnowResponse text iDontKnowMessage
                         then Some idk else None)
                        references insightsType excludeFromInsights
                        redact ;;
          ret (mkResponse 200 (Some (mkHeaderData references promptId))
                 (Json text references promptId fullPrompt
                    (sectionsDelta V)))
      end
  else
    promptId <- _storePrompt U projectId prompt (Some "")
                  (Some promptEmbedding) None references insightsType
                  excludeFromInsights redact ;;
    let (evs, readableStream) :=
      streamResponse U V projectId modelInfo byoOpenAIKey fullPrompt
        iDontKnowMessage referencePaths promptId (p_events res) in
    (evs, Ok (mkResponse 200 (Some (mkHeaderData references promptId))
                readableStream)).

(** The handler once the request passed the rate limit. *)
Definition complete (U : Completions.Imports) (V : Imports) (req : Request)
    (given : Params) (prompt projectId : string) : M Response :=
  let iDontKnowMessage :=
    strOr (i_dont_know_message given)
      (strOr (iDontKnowMessage given) (I_DONT_KNOW V)) in
  let stream := negb (isFalsy (stream given)) in
  let excludeFromInsights := isTruthy (excludeFromInsights given) in
  let redact := isTruthy (redact given) in
  let params := effectiveParams V req projectId given in
  let insightsType := insightsTypeFor V req projectId in
  let (found, sectionsResponse) := retrieve U V params prompt projectId in
  match sectionsResponse with
  | Throw e =>
      (found, Ok tt) ;;;
      sectionsFailed U projectId prompt insightsType excludeFromInsights
        redact e
  | Ok (fileSections, promptEmbedding) =>
      (found, Ok tt) ;;;
      deliver U V params prompt projectId iDontKnowMessage insightsType
        stream excludeFromInsights redact fileSections promptEmbedding
  end.

(** [projectIdParam] *)
Definition projectIdParam (req : Request) : option string :=
  if String.eqb (lastSegment (pathname req)) "completions" then project req
  else Some (lastSegment (pathname req)).

(** The part of [handler] inside its [try]. *)
Definition answer (U : Completions.Imports) (V : Imports) (req : Request)
  : M Response :=
  params <- match json req with
            | Some p => ret p
            | None => throw (Failure "SyntaxError")
            end ;;
  let prompt := option_map (take (MAX_PROMPT_LENGTH V)) (prompt params) in
  if negb (truthy (projectIdParam req)) then
    emit (ConsoleError ("[COMPLETIONS] [" +++ pathname req
                        +++ "] Project not found")) ;;;
    ret (mkResponse 400 None (Text "Project not found"))
  else
  let projectId :=
    match projectIdParam req with Some i => i | None => "" end in
  if negb (truthy prompt) then
    emit (ConsoleError ("[COMPLETIONS] [" +++ projectId
                        +++ "] No prompt provided")) ;;;
    ret (mkResponse 400 None (Text "No prompt provided"))
  else
  let prompt := match prompt with Some t => t | None => "" end in
  emit (RateLimit projectId) ;;;
  if negb (checkCompletionsRateLimits V projectId) then
    emit (ConsoleError ("[COMPLETIONS] [RATE-LIMIT] [" +++ projectId +++ "]")) ;;;
    ret (mkResponse 429 None (Text "Too many requests"))
  else complete U V req params prompt projectId.

Definition handler (U : Completions.Imports) (V : Imports) (req : Request)
  : list Event * Response :=
  match method req with
  | None => ([], mkResponse 405 None (Text "Method undefined Not Allowed"))
  | Some m =>
      if String.eqb m "OPTIONS" then ([], mkResponse 200 None (Text "ok"))
      else if negb (String.eqb m "POST") then
        ([], mkResponse 405 None (Text ("Method " +++ m +++ " Not Allowed")))
      else
        match answer U V req with
        | (evs, Ok response) => (evs, response)
        | (evs, Throw e) =>
            (evs, mkResponse 500 None
                    (Text ("Error processing " +++ m +++ " request: "
                           +++ stringifyError V e)))
        end
  end.

(** *** Notions used to state the properties *)

(** The prompt after [substring(0, MAX_PROMPT_LENGTH)]. *)
Definition truncated (V : Imports) (req : Request) : string :=
  match json req with
  | Some params =>
      match prompt params with
      | Some p => take (MAX_PROMPT_LENGTH V) p
      | None => ""
      end
  | None => ""
  end.

Definition projectIdOf (req : Request) : string :=
  match projectIdParam req with Some i => i | None => "" end.

Definition paramsOf (V : Imports) (req : Request) : option Params :=
  option_map (effectiveParams V req (projectIdOf req)) (json req).

(** The request is a POST with a body, a project and a prompt, and the rate
    limit lets it pass: it reaches the pipeline. *)
Definition accepted (V : Imports) (req : Request) : bool :=
  match method req, json req with
  | Some m, Some _ =>
      String.eqb m "POST"
      && truthy (projectIdParam req)
      && negb (String.eqb (truncated V req) "")
      && checkCompletionsRateLimits V (projectIdOf req)
  | _, _ => false
  end.

(** The call of [getMatchingSections] the handler makes for a request. *)
Definition retrieval (U : Completions.Imports) (V : Imports) (req : Request)
  : M (list FileSectionMatchResult * Embedding) :=
  match paramsOf V req with
  | Some params => retrieve U V params (truncated V req) (projectIdOf req)
  | None => throw (Failure "SyntaxError")
  end.

(** The reasons of the rows stored, in the order of the inserts. *)
Definition storedReasons (evs : list Event)
  : list (option PromptNoResponseReason) :=
  flat_map (fun e =>
    match e with Insert row => [q_meta_noResponseReason row] | _ => [] end) evs.

(** The same body, and the same request, with another prompt. *)
Definition setPrompt (p : option string) (ps : Params) : Params :=
  mkParams p (i_dont_know_message ps) (iDontKnowMessage ps)
    (stream ps) (excludeFromInsights ps) (redact ps) (model ps)
    (sectionsMatchThreshold ps) (sectionsMatchCount ps)
    (promptTemplate ps) (contextTag ps) (promptTag ps) (idkTag ps)
    (doNotInjectContext ps) (doNotInjectPrompt ps)
    (temperature ps) (topP ps) (frequencyPenalty ps)
    (presencePenalty ps) (maxTokens ps).

Definition withPrompt (p : string) (req : Request) : Request :=
  mkRequest (method req) (option_map (setPrompt (Some p)) (json req))
    (pathname req) (project req) (origin req).

(** [iDontKnowMessage] of the handler, for the body [given]. *)
Definition iDontKnowMessageOf (V : Imports) (given : Params) : string :=
  strOr (i_dont_know_message given)
    (strOr (iDontKnowMessage given) (I_DONT_KNOW V)).

(** What an event of the handler's run for the request [req] shows of the
    prompt when [t] is the text every stage is to see: moderation and
    embedding get the sanitized [t]; a stored row holds [t] itself or no
    prompt; and the prompt sent to the model is the full prompt built, for
    the parameters and the message of the request, from the sections
    retrieved for [t] and from the sanitized [t]. *)
Definition showsOnly (U : Completions.Imports) (V : Imports) (req : Request)
    (t : string) (e : Event) : Prop :=
  match e with
  | Moderation input _ => input = sanitize V t
  | CreateEmbedding _ input _ _ => input = sanitize V t
  | Insert row => q_prompt row = None \/ q_prompt row = Some t
  | Completion _ _ payload =>
      exists given fileSections promptEmbedding,
        json req = Some given /\
        snd (retrieve U V (effectiveParams V req (projectIdOf req) given) t
               (projectIdOf req))
        = Ok (fileSections, promptEmbedding) /\
        let full :=
          fullPromptFor V (effectiveParams V req (projectIdOf req) given)
            (fst (assemble V 0 "" [] fileSections)) (sanitize V t)
            (iDontKnowMessageOf V given) in
        pl_prompt payload = Messages full \/ pl_prompt payload = Prompt full
  | _ => True
  end.

(** Closes [Forall P evs] for a list of events that computes. *)
Ltac shown :=
  cbn [fst emit ret throw];
  repeat first [apply Forall_nil | apply Forall_cons]; cbn; auto.

End Handler.

(** *** Concrete requests for the completion engine *)
Module EngineExamples.
Import Js Completions Handler.

Definition upper (c : ascii) : ascii :=
  let n := nat_of_ascii c in
  if (97 <=? n) && (n <=? 122) then ascii_of_nat (n - 32) else c.
Fixpoint upperCase (s : string) : string :=
  match s with
  | EmptyString => EmptyString
  | String c r => String (upper c) (upperCase r)
  end.

Definition show (e : Exn) : string :=
  match e with
  | ApiError _ message => "Error: " +++ message
  | Failure text => text
  end.

(** Services that embed every query; moderation flags when [flag] is set,
    and the vector index answers with [sections]. *)
Definition services (flag : bool)
    (sections : option (list FileSectionMatchResult)) : Completions.Imports :=
  Completions.mkImports
    (fun _ _ => Fulfilled flag)
    (fun _ _ _ _ =>
       Fulfilled (mkEmbeddingResponse None (Some 7%Z) (Some [1 # 2; 1 # 4])))
    (fun _ _ _ _ => Fulfilled tt)
    (fun m => mkLLMInfo chat_completions (strOr m "gpt-3.5-turbo"))
    (fun _ _ _ _ _ => Fulfilled (mkMatchResponse None sections))
    (fun _ => Some "prompt-1")
    upperCase show.

Definition isSpace (c : ascii) : bool :=
  let n := nat_of_ascii c in (n =? 32) || ((9 <=? n) && (n <=? 13)).
Fixpoint trimStart (s : string) : string :=
  match s with
  | EmptyString => EmptyString
  | String c r => if isSpace c then trimStart r else s
  end.
Fixpoint trimEnd (s : string) : string :=
  match s with
  | EmptyString => EmptyString
  | String c r =>
      match trimEnd r with
      | EmptyString => if isSpace c then EmptyString else String c EmptyString
      | r' => String c r'
      end
  end.

(** [replace] of the first occurrence, for needles and replacements
    without [$]. *)
Definition replaceFirst (s needle put : string) : string :=
  match Core.cut needle s with
  | Some (b, a) => b +++ put +++ a
  | None => s
  end.

(** The provider answers every request with [res]; an event of its stream
    carries its text bare. *)
Definition engine (res : ProviderResponse) : Handler.Imports :=
  Handler.mkImports
    20 1500 "Sorry, I am not sure how to answer that."
    Core.STREAM_SEPARATOR "{{CONTEXT}} {{PROMPT}} {{I_DONT_KNOW}}" (Some "sk-system")
    (fun _ => true) (fun _ => true) (fun _ => None) (fun _ => false)
    (fun _ => None) [f_model; f_temperature] (fun _ => None)
    (fun section => mkReference (files_path section) (source_type section))
    (fun _ => "https://api.openai.com/v1/chat/completions")
    (fun _ _ _ => Fulfilled res)
    (fun data _ => Ok (Content data))
    (fun s => trimEnd (trimStart s)) replaceFirst (fun s => s)
    CoreExamples.jsonPaths show 12.

(** A body with a prompt and nothing else. *)
Definition asking (p : string) (stream : JsValue) : Params :=
  mkParams (Some p) None None stream JUndefined JUndefined None None None
    None None None None JUndefined JUndefined None None None None None.

Definition post (ps : Params) : Request :=
  mkRequest (Some "POST") (Some ps)
    "/api/v1/openai/completions/project-1" None (Some "https://markprompt.com").

Definition oneSection : FileSectionMatchResult :=
  mkSection "docs/a.md" "{}" "X is a letter." "{}" 5 "github" "{}".

(** The provider refuses the request. *)
Definition refusal : ProviderResponse :=
  mkProviderResponse false "Rate limit reached" None [].

(** The provider streams three fragments. *)
Definition fragments (a b c : string) : ProviderResponse :=
  mkProviderResponse true "" None [SseEvent a; SseEvent b; SseEvent c; SseEvent "[DONE]"].

End EngineExamples.

(* --------------------------------------------------------------------- *)
(** ** [src/lib/hooks/use-sources.ts]                                     *)
(* --------------------------------------------------------------------- *)
Module Sources.
Import Js.

(** [`${c}`] for a counter: the decimal digits of the number. *)
Definition decimal (c : nat) : string :=
  NilEmpty.string_of_uint (Nat.to_uint c).

(** [DbSource]: its [id], its [type] and the fields of [data] that the code
    reads under a cast to the data type of the source. *)
Record DbSource : Type := mkDbSource {
  s_id : string;
  s_type : Training.SourceType;
  s_url : string;             (* GitHubSourceDataType, WebsiteSourceDataType *)
  s_branch : string;          (* GitHubSourceDataType *)
  s_projectDomain : string;   (* MotifSourceDataType *)
  s_name : string             (* NangoSourceDataType *) }.

Definition isNango (t : Training.SourceType) : bool :=
  match t with Training.nango => true | _ => false end.

(** [isNameAvailable]; [sources] is [undefined] until the data has
    arrived. *)
Definition isNameAvailable (sources : option (list DbSource)) (name : string)
  : bool :=
  match sources with
  | None => true
  | Some l =>
      match find (fun s => isNango (s_type s) && String.eqb (s_name s) name) l
      with
      | Some _ => false
      | None => true
      end
  end.

(** The [while] loop of [generateUniqueName], entered with the counter [c]:
    [None] when [fuel] further rounds do not end it. *)
Fixpoint nextFreeName (sources : option (list DbSource)) (baseName : string)
    (fuel c : nat) : option string :=
  let candidateName := baseName +++ " " +++ decimal c in
  if negb (isNameAvailable sources candidateName) then
    match fuel with
    | O => None
    | S fuel' => nextFreeName sources baseName fuel' (c + 1)
    end
  else Some candidateName.

(** [generateUniqueName]; [getIntegrationName] is imported from
    ['../integrations/nango']. *)
Definition generateUniqueName (getIntegrationName : string -> string)
    (sources : option (list DbSource)) (fuel : nat)
    (integrationId : string) (candidateBaseName : option string)
  : option string :=
  let baseName := strOr candidateBaseName (getIntegrationName integrationId) in
  if isNameAvailable sources baseName then Some baseName
  else nextFreeName sources baseName fuel 1.

(** The names taken by the Nango sources. *)
Definition takenNames (sources : option (list DbSource)) : list string :=
  map s_name (filter (fun s => isNango (s_type s)) (listOr sources)).

End Sources.

(* --------------------------------------------------------------------- *)
(** ** [src/lib/context/training.tsx]: [_trainSource] and
       [trainAllSources]                                                  *)
(* --------------------------------------------------------------------- *)
Module TrainAll.
Import Js Training Sources.

(** A file of the archive that [getGitHubFiles] resolves to, and the
    metadata of a file that [getMotifPublicFileMetadata] resolves to. *)
Record GitHubFile : Type := mkGitHubFile {
  gh_path : string;
  gh_name : string;
  gh_content : string }.

Record MotifFile : Type := mkMotifFile {
  mf_path : string;
  mf_name : string;
  mf_id : string }.

(** What [_trainSource] imports from ['../integrations/github'],
    ['../integrations/motif'], ['../integrations/nango'],
    ['../integrations/nango.client'] and ['../utils'], and what the
    [onError] of the caller does.  The messages that [getGitHubFiles] hands
    to [onMessage] go to the console and are left out.

    Three calls are made where no [try] block catches what they throw:
    [getGitHubOwnerRepoString] and [onError] in the [catch] blocks, and
    [toNormalizedUrl] with [toNormalizedOrigin] at the head of the website
    branch.  [getGitHubOwnerRepoString] answers [Rejected] when it throws;
    [toNormalizedUrlThrows] tells what the two functions throw for the URL
    of a website source, if they throw (their values are in [WebImports]);
    and [onErrorThrows] tells what the call of [onError] with a message
    throws, if it throws. *)
Record SourceImports : Type := mkSourceImports {
  getGitHubFiles :
    string -> string -> list string -> list string -> Await (list GitHubFile);
  getMarkpromptPathFromGitHubArchivePath : string -> string;
  getGitHubOwnerRepoString : string -> Await string;
  getMotifPublicFileMetadata :
    string -> list string -> list string -> Await (list MotifFile);
  getMotifFileContent : string -> Await string;
  getIntegrationId : DbSource -> option string;
  getSyncId : string -> option string;
  getConnectionId : string -> string;
  triggerSync : string -> string -> string -> list string -> Await unit;
  toNormalizedUrlThrows : string -> option Thrown;
  onErrorThrows : string -> option Thrown }.

(** [onError(message)]: the call is made, and it returns or throws. *)
Definition callOnError (S : SourceImports) (message : string) (w : World)
  : World * option Thrown :=
  (emit (OnError message) w, onErrorThrows S message).

(** [fileData[i]] and [filesMetadata[i]], for an index of the array. *)
Definition githubFile (fileData : list GitHubFile) (i : nat) : GitHubFile :=
  nth i fileData (mkGitHubFile "" "" "").
Definition motifFile (filesMetadata : list MotifFile) (i : nat) : MotifFile :=
  nth i filesMetadata (mkMotifFile "" "" "").

(** A string that is neither [undefined] nor empty. *)
Definition present (o : option string) : bool :=
  match o with Some s => negb (String.eqb s "") | None => false end.

(** [case 'github'] *)
Definition trainGitHub (U : Imports) (S : SourceImports) (H : Hooks)
    (R : Rounds) (source : DbSource) (forceRetrain cb : bool) (w : World)
  : World * option Thrown :=
  let failed (e : Thrown) (w : World) :=
    match getGitHubOwnerRepoString S (s_url source) with
    | Rejected thrown => (w, Some thrown)
    | Fulfilled ownerAndRepo =>
        callOnError S ("Error processing repo " +++ ownerAndRepo +++ ": "
                       +++ detail e) w
    end in
  let w := emit (ConsoleInfo ["Fetching GitHub archive for"; s_url source]) w in
  match getGitHubFiles S (s_url source) (s_branch source)
          (listOr (config_include H)) (listOr (config_exclude H)) with
  | Rejected e => failed e w
  | Fulfilled fileData =>
      let w :=
        emit (ConsoleInfo ["Done fetching GitHub archive. Now processing "
                           +++ decimal (List.length fileData)
                           +++ " files..."]) w in
      match generateEmbeddings U H
              (mkArgs (s_id source) github (List.length fileData) forceRetrain
                 (fun i => getMarkpromptPathFromGitHubArchivePath S
                             (gh_path (githubFile fileData i)))
                 (fun i => Fulfilled (Some
                    (mkPartial (Some (gh_name (githubFile fileData i)))
                       (Some (gh_content (githubFile fileData i)))
                       None None)))
                 cb)
              (checksumsAt R 0) (schedAt R 0) w with
      | (w', Some e) => failed e w'
      | (w', None) => (w', None)
      end
  end.

(** [case 'nango'] *)
Definition trainNango (S : SourceImports) (H : Hooks) (source : DbSource)
    (w : World) : World * option Thrown :=
  if negb (present (project_id H)) then (w, None)
  else
    let integrationId := getIntegrationId S source in
    if negb (present integrationId) then (w, None)
    else
      let pid := match project_id H with Some i => i | None => "" end in
      let integration :=
        match integrationId with Some i => i | None => "" end in
      let syncId := getSyncId S integration in
      let connectionId := getConnectionId S (s_id source) in
      match triggerSync S pid integration connectionId
              (if present syncId
               then [match syncId with Some i => i | None => "" end]
               else []) with
      | Fulfilled _ => (w, None)
      | Rejected e => (w, Some e)
      end.

(** [case 'motif'] *)
Definition trainMotif (U : Imports) (S : SourceImports) (H : Hooks)
    (R : Rounds) (source : DbSource) (forceRetrain cb : bool) (w : World)
  : World * option Thrown :=
  let failed (e : Thrown) (w : World) :=
    callOnError S ("Error processing Motif project "
                   +++ s_projectDomain source +++ ": " +++ detail e) w in
  match getMotifPublicFileMetadata S (s_projectDomain source)
          (listOr (config_include H)) (listOr (config_exclude H)) with
  | Rejected e => failed e w
  | Fulfilled filesMetadata =>
      match generateEmbeddings U H
              (mkArgs (s_id source) motif (List.length filesMetadata)
                 forceRetrain
                 (fun i => mf_path (motifFile filesMetadata i))
                 (fun i =>
                    match getMotifFileContent S
                            (mf_id (motifFile filesMetadata i)) with
                    | Fulfilled content =>
                        Fulfilled (Some
                          (mkPartial (Some (mf_name (motifFile filesMetadata i)))
                             (Some content) None None))
                    | Rejected e => Rejected e
                    end)
                 cb)
              (checksumsAt R 0) (schedAt R 0) w with
      | (w', Some e) => failed e w'
      | (w', None) => (w', None)
      end
  end.

(** The messages handed to [onError], in the order of the calls. *)
Definition reports (evs : list Event) : list string :=
  flat_map (fun e => match e with OnError msg => [msg] | _ => [] end) evs.

(** What the first of the calls of [onError] that throws, throws. *)
Fixpoint firstThrown (S : SourceImports) (messages : list string)
  : option Thrown :=
  match messages with
  | [] => None
  | message :: rest =>
      match onErrorThrows S message with
      | Some thrown => Some thrown
      | None => firstThrown S rest
      end
  end.

(** [case 'website'].  The branch itself is [trainWebsite], which takes
    [toNormalizedUrl], [toNormalizedOrigin] and [onError] to return; it
    calls [onError] in its outer [catch] block only, as the last thing it
    does. *)
Definition trainWebsiteSource (U : Imports) (W : WebImports)
    (S : SourceImports) (H : Hooks) (R : Rounds) (source : DbSource)
    (forceRetrain cb : bool) (fuel : nat) (w : World)
  : option (World * option Thrown) :=
  match toNormalizedUrlThrows S (s_url source) with
  | Some thrown => Some (w, Some thrown)
  | None =>
      match trainWebsite U W H R (s_id source) (s_url source) forceRetrain cb
              fuel w with
      | Some w' => Some (w', firstThrown S (reports (since w w')))
      | None => None
      end
  end.

(** [_trainSource]: the world it leaves and the value its promise is
    rejected with, if any.  [None]: the discovery loop of a website is out
    of fuel. *)
Definition _trainSource (U : Imports) (W : WebImports) (S : SourceImports)
    (H : Hooks) (R : Rounds) (source : DbSource) (forceRetrain cb : bool)
    (fuel : nat) (w : World) : option (World * option Thrown) :=
  match s_type source with
  | github => Some (trainGitHub U S H R source forceRetrain cb w)
  | nango => Some (trainNango S H source w)
  | motif => Some (trainMotif U S H R source forceRetrain cb w)
  | website => trainWebsiteSource U W S H R source forceRetrain cb fuel w
  | _ => Some (w, None)
  end.

(** The [for (const source of sources)] loop of [trainAllSources];
    [rounds k] is what the surroundings answer while the [k]-th source is
    trained. *)
Fixpoint trainSources (U : Imports) (W : WebImports) (S : SourceImports)
    (H : Hooks) (rounds : nat -> Rounds) (forceRetrain cb : bool)
    (fuel k : nat) (sources : list DbSource) (w : World)
  : option (World * option Thrown) :=
  match sources with
  | [] => Some (w, None)
  | source :: rest =>
      match _trainSource U W S H (rounds k) source forceRetrain cb fuel w with
      | Some (w', None) =>
          trainSources U W S H rounds forceRetrain cb fuel (k + 1) rest w'
      | ended => ended
      end
  end.

(** [trainAllSources] *)
Definition trainAllSources (U : Imports) (W : WebImports) (S : SourceImports)
    (H : Hooks) (rounds : nat -> Rounds) (forceRetrain cb : bool)
    (fuel : nat) (sources : list DbSource) (w : World)
  : option (World * option Thrown) :=
  match trainSources U W S H rounds forceRetrain cb fuel 0 sources
          (setState fetching_data w) with
  | Some (w', None) => Some (setState idle w', None)
  | ended => ended
  end.

(** *** Notions used to state the properties *)

(** An event that is no call of [onError]. *)
Definition reportsNothing (e : Event) : Prop :=
  match e with OnError _ => False | _ => True end.

(** From [w] to [w'] the log grows by events among which at most one is a
    call of [onError]. *)
Definition oneReport (w w' : World) : Prop :=
  exists evs, log w' = log w ++ evs /\ List.length (reports evs) <= 1.

(** Since the world [w0] no call of [onError] was made. *)
Definition silent (w0 : World) (r : Run) : Prop :=
  exists evs, log (world r) = log w0 ++ evs /\ Forall reportsNothing evs.

(** The call [triggerSync] that [_trainSource] makes for a Nango source is
    rejected with [e]. *)
Definition syncRejects (S : SourceImports) (H : Hooks) (source : DbSource)
    (e : Thrown) : Prop :=
  s_type source = nango /\
  exists pid integrationId,
    project_id H = Some pid /\
    getIntegrationId S source = Some integrationId /\
    triggerSync S pid integrationId (getConnectionId S (s_id source))
      (if present (getSyncId S integrationId)
       then [match getSyncId S integrationId with Some i => i | None => "" end]
       else [])
    = Rejected e.

(** What makes the promise of [_trainSource] reject with [e] for a source:
    the rejected [triggerSync] of a Nango source, the URL of a website
    source that the normalising functions throw on, a
    [getGitHubOwnerRepoString] that throws while the failure of a GitHub
    source is reported, or an [onError] that throws. *)
Definition stops (S : SourceImports) (H : Hooks) (source : DbSource)
    (e : Thrown) : Prop :=
  syncRejects S H source e \/
  (s_type source = website /\ toNormalizedUrlThrows S (s_url source) = Some e) \/
  (s_type source = github /\
   getGitHubOwnerRepoString S (s_url source) = Rejected e) \/
  (exists message, onErrorThrows S message = Some e).

(** The sources [trained] were trained one after the other, the first of
    them as the [k]-th source of the loop, each from the world the one
    before left: this led from the world [w] to the world [w'], and none of
    the promises was rejected. *)
Inductive trainedInTurn (U : Imports) (W : WebImports) (S : SourceImports)
    (H : Hooks) (rounds : nat -> Rounds) (forceRetrain cb : bool)
    (fuel : nat) : nat -> list DbSource -> World -> World -> Prop :=
| turn_none (k : nat) (w : World) :
    trainedInTurn U W S H rounds forceRetrain cb fuel k [] w w
| turn_next (k : nat) (source : DbSource) (rest : list DbSource)
    (w w1 w' : World) :
    _trainSource U W S H (rounds k) source forceRetrain cb fuel w
    = Some (w1, None) ->
    trainedInTurn U W S H rounds forceRetrain cb fuel (k + 1) rest w1 w' ->
    trainedInTurn U W S H rounds forceRetrain cb fuel k (source :: rest) w w'.

End TrainAll.

(** ** The pool of [generateEmbeddings], seen call by call *)
Module Pool.
Import Js Training.

(** The run at the moment [Promise.all] is called: every index queued,
    nothing in flight. *)
Definition initial (a : Args) (w : World) : Run :=
  mkRun w (seq 0 (numFiles a)) [].

(** The indices handed to [getFileData], in the order of the calls. *)
Definition starts (evs : list Event) : list nat :=
  flat_map (fun e => match e with GetFileData i _ => [i] | _ => [] end) evs.

(** The calls in flight that wait for their file data. *)
Definition waitsForData (t : Task) : bool :=
  match t with AwaitFileData _ _ _ => true | AwaitProcessFile _ _ _ => false end.
Definition waiting (ts : list Task) : nat :=
  List.length (filter waitsForData ts).

(** What the failure of [processFile] on [f] adds to [errors]: nothing when
    the call is fulfilled or meets the quota error, one message otherwise. *)
Definition failureOf (U : Imports) (a : Args) (f : FileData) : list string :=
  match processFile U (sourceId a) f with
  | Fulfilled _ => []
  | Rejected e =>
      if isQuotaExceeded U e then [] else [errorProcessingFile U (path f) e]
  end.

(** The same for a call in flight, once it will have settled. *)
Definition pending (U : Imports) (a : Args) (t : Task) : list string :=
  match t with
  | AwaitFileData _ _ _ => []
  | AwaitProcessFile _ f _ => failureOf U a f
  end.

(** Since the world [w0]: the indices below [k] are those taken from the
    queue, the calls of [getFileData] went out in increasing order of index,
    each for the path of its index, and no file was handed to [processFile]
    whose data was not asked for. *)
Definition inOrder (a : Args) (w0 : World) (r : Run) : Prop :=
  exists k evs,
    log (world r) = log w0 ++ evs /\
    k <= numFiles a /\ queue r = seq k (numFiles a - k) /\
    StronglySorted lt (starts evs) /\
    Forall (fun i => i < k) (starts evs) /\
    fetched evs = map (getFilePath a) (starts evs) /\
    List.length (processed evs) + waiting (active r)
    <= List.length (starts evs).

(** Since the world [w0], in which the stop flag was set: no call of
    [getFileData] went out, and the files handed to [processFile] are at
    most the [n] whose data was awaited then. *)
Definition winding (n : nat) (w0 : World) (r : Run) : Prop :=
  stopFlag (world r) = true /\
  exists evs,
    log (world r) = log w0 ++ evs /\
    starts evs = [] /\
    List.length (processed evs) + waiting (active r) <= n.

(** Since the world [w0]: the messages of [errors], with those that the
    calls in flight will add, are the failures of the files handed to
    [processFile], in some order. *)
Definition accounted (U : Imports) (a : Args) (w0 : World) (r : Run) : Prop :=
  exists evs,
    log (world r) = log w0 ++ evs /\
    Permutation (errors (world r) ++ flat_map (pending U a) (active r))
                (flat_map (failureOf U a) (processed evs)).

End Pool.

(** ** The crawler: sites whose links are written in one form *)
Module Crawl.
Import Js Training.

(** Two same-origin links found on pages of the site that differ as written
    lead, once completed and normalised, to different URLs. *)
Definition oneForm (W : WebImports) (baseUrl : string) : Prop :=
  forall u1 c1 hrefs1 h1 u2 c2 hrefs2 h2,
    fetchPageContent W u1 = Fulfilled (Some c1) ->
    extractLinksFromHtml W c1 = Some hrefs1 -> In h1 hrefs1 ->
    fetchPageContent W u2 = Fulfilled (Some c2) ->
    extractLinksFromHtml W c2 = Some hrefs2 -> In h2 hrefs2 ->
    isHrefFromBaseUrl W baseUrl h1 = true ->
    isHrefFromBaseUrl W baseUrl h2 = true ->
    removeTrailingSlashQueryParamsAndHash W
      (completeHrefWithBaseUrl W baseUrl h1)
    = removeTrailingSlashQueryParamsAndHash W
        (completeHrefWithBaseUrl W baseUrl h2) ->
    h1 = h2.

End Crawl.

(** ** [submitPrompt]: the callbacks of the caller *)
Module Callbacks.
Import Js Core.

(** *** Callbacks that may throw

    The callbacks are functions of the caller, and the code calls them
    inside its [try] block.  Here a callback is given by what each of its
    calls does, after the calls made before it: it returns ([None]) or
    throws an error, held as its message. *)
Definition Handlers (J : Type) : Type :=
  list (Callback J) -> Callback J -> option string.

(** Every call of every callback returns. *)
Definition returns {J : Type} (K : Handlers J) : Prop :=
  forall before call, K before call = None.

(** A call of a callback after the calls [before]: the calls made by then,
    and what the call threw, if it threw. *)
Definition invoke {J : Type} (K : Handlers J) (call : Callback J)
    (before : list (Callback J)) : list (Callback J) * option string :=
  (before ++ [call], K before call).

(** The body of the [while (!done)] loop for one decoded [chunkValue], and
    what a callback threw in it. *)
Definition onChunk {J : Type} (P : Platform J) (K : Handlers J)
    (chunkValue : string) (r : Reading J) : Reading J * option string :=
  if negb (didHandleHeader r) then
    let startText := startText r +++ chunkValue in
    if includes startText STREAM_SEPARATOR then
      let parts := split startText STREAM_SEPARATOR in
      let refs := match JSON_parse P (part 0 parts) with
                  | Some v => v
                  | None => refs r
                  end in
      let (calls, thrown) :=
        invoke K (AnswerChunk (part 1 parts)) (calls r) in
      (mkReading startText
         (match thrown with None => true | Some _ => false end) refs calls,
       thrown)
    else (mkReading startText false (refs r) (calls r), None)
  else
    let (calls, thrown) := invoke K (AnswerChunk chunkValue) (calls r) in
    (mkReading (startText r) true (refs r) calls, thrown).

(** The loop over the chunks [reader.read()] yields, left when a callback
    throws ... *)
Fixpoint readSome {J : Type} (P : Platform J) (K : Handlers J)
    (bytes : list string) (r : Reading J) : Reading J * option string :=
  match bytes with
  | [] => (r, None)
  | chunk :: rest =>
      match onChunk P K (decode chunk) r with
      | (r', None) => readSome P K rest r'
      | stopped => stopped
      end
  end.

(** ... and then over [{done: true}]. *)
Definition readAll {J : Type} (P : Platform J) (K : Handlers J)
    (bytes : list string) (r : Reading J) : Reading J * option string :=
  match readSome P K bytes r with
  | (r', None) => onChunk P K (decode "") r'
  | stopped => stopped
  end.

(** The [catch] block, entered with [error] after the calls [before]:
    [onAnswerChunk(options.iDontKnowMessage)] and [onError(error)].  A call
    that throws here rejects the promise. *)
Definition caught {J : Type} (K : Handlers J) (iDontKnowMessage : string)
    (before : list (Callback J)) (error : string)
  : list (Callback J) * Settlement :=
  match invoke K (AnswerChunk iDontKnowMessage) before with
  | (calls, Some thrown) => (calls, Rejects thrown)
  | (calls, None) =>
      match invoke K (Error error) calls with
      | (calls, Some thrown) => (calls, Rejects thrown)
      | (calls, None) => (calls, Resolves)
      end
  end.

(** The end of the [try] block: what a callback threw goes to the [catch]
    block, and without a throw the promise resolves. *)
Definition settle {J : Type} (K : Handlers J) (iDontKnowMessage : string)
    (tried : list (Callback J) * option string)
  : list (Callback J) * Settlement :=
  match tried with
  | (calls, None) => (calls, Resolves)
  | (calls, Some thrown) => caught K iDontKnowMessage calls thrown
  end.

(** [submitPrompt] *)
Definition submitPrompt {J : Type} (P : Platform J) (K : Handlers J)
    (prompt projectKey : string) (options : option Options)
  : list (Callback J) * Settlement :=
  if String.eqb projectKey "" then ([], Rejects "A projectKey is required.")
  else if String.eqb prompt "" then ([], Resolves)
  else
    let iDontKnowMessage := fallbackMessage options in
    match fetch P (requestOf prompt projectKey options) with
    | FetchThrows error => caught K iDontKnowMessage [] error
    | Response ok body text =>
        match (if ok then body else None) with
        | None =>
            match text with
            | Rejected error => caught K iDontKnowMessage [] error
            | Fulfilled t =>
                settle K iDontKnowMessage
                  match invoke K (AnswerChunk iDontKnowMessage) [] with
                  | (calls, None) => invoke K (Error t) calls
                  | stopped => stopped
                  end
            end
        | Some b =>
            let start := mkReading "" false (emptyArray P) [] in
            match broken b with
            | Some error =>
                match readSome P K (chunks b) start with
                | (r, None) => caught K iDontKnowMessage (calls r) error
                | (r, Some thrown) =>
                    caught K iDontKnowMessage (calls r) thrown
                end
            | None =>
                settle K iDontKnowMessage
                  match readAll P K (chunks b) start with
                  | (r, None) => invoke K (References (refs r)) (calls r)
                  | (r, Some thrown) => (calls r, Some thrown)
                  end
            end
        end
    end.

(** *** Notions used to state the properties *)

(** The calls of [onAnswerChunk] for the texts [texts], in their order. *)
Definition answerChunks {J : Type} (texts : list string) : list (Callback J) :=
  map AnswerChunk texts.

(** The two shapes in which the callbacks of a call come: answer chunks and
    then the references, or answer chunks, the fallback message and then an
    error. *)
Definition wellEnded {J : Type} (fallback : string) (cs : list (Callback J))
  : Prop :=
  exists texts,
    (exists references, cs = answerChunks texts ++ [References references]) \/
    (exists error,
       cs = answerChunks texts ++ [AnswerChunk fallback; Error error]).

End Callbacks.

(** ** [getMatchingSections]: the attempts to embed the query *)
Module Retrieval.
Import Js Completions.

(** The numbers of the attempts of [createEmbedding], in the order of the
    calls. *)
Definition attempts (evs : list Event) : list nat :=
  flat_map (fun e =>
    match e with CreateEmbedding n _ _ _ => [n] | _ => [] end) evs.

(** An event that is no call of [createEmbedding]. *)
Definition embedsNothing (e : Event) : Prop :=
  match e with CreateEmbedding _ _ _ _ => False | _ => True end.

(** In the words of the property: what is asked of the index for a number
    the caller may give is that number, and the default [d] when the caller
    gives none or gives zero.  The code computes it as [given || d]. *)
Inductive asksFor (d : Q) : option Q -> Q -> Prop :=
| asks_given (q : Q) : ~ (q == 0)%Q -> asksFor d (Some q) q
| asks_zero (q : Q) : (q == 0)%Q -> asksFor d (Some q) d
| asks_absent : asksFor d None d.

End Retrieval.

(** ** The completion handler: what it stores and what it sends *)
Module Serving.
Import Js Completions Handler.

(** The rows inserted into [query_stats], in the order of the inserts. *)
Definition inserts (evs : list Event) : list QueryStat :=
  flat_map (fun e => match e with Insert row => [row] | _ => [] end) evs.

(** A call of the rate limiter or of the console. *)
Definition cheap (e : Event) : Prop :=
  match e with RateLimit _ | ConsoleError _ => True | _ => False end.


(** The request asks for a streamed answer (the default). *)
Definition streams (req : Request) : bool :=
  match json req with
  | Some given => negb (isFalsy (stream given))
  | None => true
  end.


(** An event that inserts no row. *)
Definition insertsNothing (e : Event) : Prop :=
  match e with Insert _ => False | _ => True end.

(** How a run of the handler, or of a part of it, stands to the table:
    a response with the data header comes with exactly one inserted row,
    whose id is the [promptId] of the header; a response without the header,
    and a run that throws, with none. *)
Definition oneRow (U : Completions.Imports) (evs : list Event)
    (r : Outcome Response) : Prop :=
  match r with
  | Ok response =>
      match headers response with
      | Some h =>
          exists row, inserts evs = [row] /\ h_promptId h = insert_id U row
      | None => inserts evs = []
      end
  | Throw _ => inserts evs = []
  end.

(** An event that records no token count. *)
Definition countsNothing (e : Event) : Prop :=
  match e with TokenCount _ _ _ _ => False | _ => True end.

(** The sum of the token counts of the sections. *)
Definition tokens (sections : list FileSectionMatchResult) : Z :=
  fold_right Z.add 0%Z (map file_sections_token_count sections).

(** What a section adds to the context. *)
Definition sectionText (V : Imports) (section : FileSectionMatchResult)
  : string :=
  "Section id: " +++ files_path section +++ nl +++ nl
  +++ trim V (newlinesToSpaces (file_sections_content section))
  +++ nl +++ "---" +++ nl.

(** An event of the provider's stream that [onParse] does not pass over. *)
Definition carriesData (event : ParsedEvent) : bool :=
  match event with
  | SseEvent data => negb (String.eqb data "[DONE]")
  | ReconnectInterval => false
  end.

(** The chunks sent so far, [header] being the header: before the header
    is out nothing was sent and no error was met; once it is out it stays the
    first chunk. *)
Definition headed (header : string) (s : Streaming) : Prop :=
  if didSendHeader s then exists texts, enqueued s = header :: texts
  else enqueued s = [] /\ failure s = None.

(** The model configuration is withheld from the request: it comes from
    outside the dashboard for a team that may not use a custom one. *)
Definition withheld (V : Imports) (req : Request) : bool :=
  negb (isRequestFromMarkprompt V (origin req)) &&
  match getTeamTierInfo V (projectIdOf req) with
  | Some tier => negb (canUseCustomModelConfig V tier)
  | None => true
  end.

(** What the payload sent to the model provider shows of a withheld
    configuration: the defaults, for the fields of [modelConfigFields]. *)
Definition defaultsOnly (U : Completions.Imports) (V : Imports) (e : Event)
  : Prop :=
  match e with
  | Completion _ _ payload =>
      (In f_model (modelConfigFields V) ->
         pl_model payload = model_value (stringToLLMInfo U None)) /\
      (In f_temperature (modelConfigFields V) ->
         pl_temperature payload = 1 # 10) /\
      (In f_topP (modelConfigFields V) -> pl_top_p payload = 1%Q) /\
      (In f_frequencyPenalty (modelConfigFields V) ->
         pl_frequency_penalty payload = 0%Q) /\
      (In f_presencePenalty (modelConfigFields V) ->
         pl_presence_penalty payload = 0%Q) /\
      (In f_maxTokens (modelConfigFields V) -> pl_max_tokens payload = 500%Q)
  | _ => True
  end.

End Serving.

(** *** Further concrete runs, sites and requests *)
Module MoreExamples.
Import Js.

(** [processFile] rejects [docs/f3.md] with an error that is not the quota
    error. *)
Definition serverError : Training.Thrown :=
  Training.mkThrown (Some 500%Z) (Some "internal_error") "server error".

Definition failingOnThird : Training.Imports :=
  Training.mkImports (fun _ _ _ _ => true) (fun c => c)
    (fun _ f => if String.eqb (Training.path f) "docs/f3.md"
                then Rejected serverError else Fulfilled tt)
    "content_token_quota_exceeded" Training.detail.

(** A site of three pages whose links are written in one form: the root
    links to [/a] and [/b], [/a] to [/b] and to the root, [/b] to [/a]. *)
Definition threePages : Training.WebImports :=
  Training.mkWebImports
    (fun url =>
       if String.eqb url "https://x.io" then Fulfilled (Some "root page")
       else if String.eqb url "https://x.io/a" then Fulfilled (Some "page a")
       else if String.eqb url "https://x.io/b" then Fulfilled (Some "page b")
       else Fulfilled None)
    (fun html =>
       if String.eqb html "root page" then Some ["/a"; "/b"]
       else if String.eqb html "page a" then Some ["/b"; "/"]
       else if String.eqb html "page b" then Some ["/a"]
       else Some [])
    (fun _ href => String.prefix "/" href)
    (fun _ href => "https://x.io" +++ href)
    (fun url => TrainingExamples.dropTrailingSlashes (TrainingExamples.cutAt url))
    (fun url => url)
    (fun _ => "https://x.io")
    (fun _ => false)
    (fun _ => Fulfilled [])
    lastSegment.

Definition site : list string :=
  ["https://x.io"; "https://x.io/a"; "https://x.io/b"].

(** The engine of the examples, for a request from the dashboard or from
    outside, and for a project with or without an OpenAI key of its own. *)
Definition engineFor (dashboard : bool) (key : option string)
    (res : Handler.ProviderResponse) : Handler.Imports :=
  Handler.mkImports
    20 1500 "Sorry, I am not sure how to answer that."
    Core.STREAM_SEPARATOR "{{CONTEXT}} {{PROMPT}} {{I_DONT_KNOW}}"
    (Some "sk-system")
    (fun _ => true) (fun _ => dashboard) (fun _ => None) (fun _ => false)
    (fun _ => None) [Handler.f_model; Handler.f_temperature] (fun _ => key)
    (fun section =>
       Completions.mkReference (Completions.files_path section)
         (Completions.source_type section))
    (fun _ => "https://api.openai.com/v1/chat/completions")
    (fun _ _ _ => Fulfilled res)
    (fun data _ => Completions.Ok (Handler.Content data))
    (fun s => EngineExamples.trimEnd (EngineExamples.trimStart s))
    EngineExamples.replaceFirst (fun s => s)
    CoreExamples.jsonPaths EngineExamples.show 12.

(** A body that asks for a model and a temperature of its own. *)
Definition tuned (p : string) : Handler.Params :=
  Handler.mkParams (Some p) None None Handler.JUndefined Handler.JUndefined
    Handler.JUndefined (Some "gpt-4") None None None None None None
    Handler.JUndefined Handler.JUndefined (Some (9 # 10)) None None None None.

(** Integrations for a project with three sources: a repository with one
    file, a Nango source whose sync is rejected, and a Motif project. *)
Definition syncError : Training.Thrown :=
  Training.mkThrown (Some 500%Z) (Some "sync_failed") "sync failed".

Definition integrations : TrainAll.SourceImports :=
  TrainAll.mkSourceImports
    (fun _ _ _ _ =>
       Fulfilled [TrainAll.mkGitHubFile "docs-main/guide.md" "guide.md"
                    "How to use it."])
    (fun archivePath => archivePath)
    (fun _ => Fulfilled "acme/docs")
    (fun _ _ _ =>
       Fulfilled [TrainAll.mkMotifFile "/notes" "notes" "file-1"])
    (fun _ => Fulfilled "Some notes.")
    (fun _ => Some "salesforce-knowledge")
    (fun _ => Some "salesforce-knowledge-articles")
    (fun sourceId => sourceId)
    (fun _ _ _ _ => Rejected syncError)
    (fun _ => None)
    (fun _ => None).

Definition repository : Sources.DbSource :=
  Sources.mkDbSource "source-1" Training.github
    "https://github.com/acme/docs" "main" "" "".
Definition knowledgeBase : Sources.DbSource :=
  Sources.mkDbSource "source-2" Training.nango "" "" "" "Salesforce".
Definition notes : Sources.DbSource :=
  Sources.mkDbSource "source-3" Training.motif "" "" "acme.motif.land" "".

(** Callbacks that return, and callbacks of which [onError] throws when it
    is called for the first time. *)
Definition returning : Callbacks.Handlers (list string) := fun _ _ => None.

Definition reportsError (call : Core.Callback (list string)) : bool :=
  match call with Core.Error _ => true | _ => false end.

Definition onErrorThrowsOnce : Callbacks.Handlers (list string) :=
  fun before call =>
    if reportsError call && negb (existsb reportsError before)
    then Some "onError failed" else None.

(** Callbacks of which [onError] throws whenever it is called. *)
Definition onErrorThrows : Callbacks.Handlers (list string) :=
  fun _ call => if reportsError call then Some "onError failed" else None.

(** A server that answers every request with status 500. *)
Definition serverDown : Core.Platform (list string) :=
  Core.mkPlatform [] CoreExamples.parsePaths
    (fun _ => Core.Response false (Some (Core.mkBody [] None))
                (Fulfilled "Internal Server Error")).

(** A body that asks to be left out of the insights. *)
Definition unlisted (p : string) : Handler.Params :=
  Handler.mkParams (Some p) None None Handler.JUndefined
    (Handler.JBool true) Handler.JUndefined None None None None None None None
    Handler.JUndefined Handler.JUndefined None None None None None.

(** Services whose embedding endpoint rejects every attempt. *)
Definition noEmbedding : Completions.Imports :=
  Completions.mkImports
    (fun _ _ => Fulfilled false)
    (fun _ _ _ _ => Rejected (Completions.Failure "too_many_requests"))
    (fun _ _ _ _ => Fulfilled tt)
    (fun m => Completions.mkLLMInfo Completions.chat_completions
                (strOr m "gpt-3.5-turbo"))
    (fun _ _ _ _ _ => Fulfilled (Completions.mkMatchResponse None None))
    (fun _ => Some "prompt-1")
    EngineExamples.upperCase EngineExamples.show.

End MoreExamples.

(* ===================================================================== *)
(** * Part II. Theorems                                                   *)
(* ===================================================================== *)

(** ** The ingestion orchestrator *)
Module TrainingFacts.
Import Js Training.

(** *** The log only grows *)

Lemma since_app (w w' : World) (evs : list Event) :
  log w' = log w ++ evs -> since w w' = evs.
Proof.
  intros E. unfold since. rewrite E.
  rewrite skipn_app, skipn_all, Nat.sub_diag. reflexivity.
Qed.

Section Chunks.
Variable Q : list Event -> Prop.
Hypothesis Q_nil : Q [].
Hypothesis Q_app : forall l1 l2, Q l1 -> Q l2 -> Q (l1 ++ l2).

Lemma emits_refl (w w' : World) : log w' = log w -> emits Q w w'.
Proof. intros E. exists []. rewrite app_nil_r. auto. Qed.

Lemma emits_trans (w1 w2 w3 : World) :
  emits Q w1 w2 -> emits Q w2 w3 -> emits Q w1 w3.
Proof.
  intros (e1 & E1 & Q1) (e2 & E2 & Q2).
  exists (e1 ++ e2). rewrite E2, E1, app_assoc. auto.
Qed.

Lemma emits_emit (e : Event) (w : World) : Q [e] -> emits Q w (emit e w).
Proof. intros q. exists [e]. auto. Qed.

End Chunks.

Lemma log_emit (e : Event) (w : World) : log (emit e w) = log w ++ [e].
Proof. reflexivity. Qed.

Lemma log_callOnFileProcessed (a : Args) (p : string) (w : World) :
  log (callOnFileProcessed a p w)
  = log w ++ (if onFileProcessed a then [FileProcessed p] else []).
Proof.
  unfold callOnFileProcessed. destruct (onFileProcessed a); simpl.
  - reflexivity.
  - now rewrite app_nil_r.
Qed.

(** *** The events of a run are those the code makes *)
Section RunEvents.
Variables (U : Imports) (H : Hooks) (a : Args) (checksums : list ChecksumRow).

Local Abbreviation WF := (wellFormed U H a checksums).

Lemma wellFormed_nil : WF [].
Proof. repeat split; intros; contradiction. Qed.

Lemma wellFormed_app (l1 l2 : list Event) : WF l1 -> WF l2 -> WF (l1 ++ l2).
Proof.
  intros (A1 & B1 & C1 & D1) (A2 & B2 & C2 & D2).
  unfold WF, wellFormed. repeat split; intros;
    repeat match goal with
           | X : In _ (_ ++ _) |- _ => apply in_app_or in X; destruct X
           end.
  all: try (eapply A1; eassumption); try (eapply A2; eassumption).
  all: try (eapply B1; eassumption); try (eapply B2; eassumption).
  all: try (apply in_or_app; left; eapply C1; eassumption).
  all: try (apply in_or_app; right; eapply C2; eassumption).
  all: try (eapply D1; eassumption); try (eapply D2; eassumption).
  - destruct (D1 _ _ H0) as (_ & _ & i & fd & I & E).
    exists i, fd. split; [apply in_or_app; left | ]; assumption.
  - destruct (D2 _ _ H0) as (_ & _ & i & fd & I & E).
    exists i, fd. split; [apply in_or_app; right | ]; assumption.
Qed.

(** A chunk without collaborator calls is well formed. *)
Lemma wellFormed_quiet (l : list Event) : Forall quiet l -> WF l.
Proof.
  intros F. rewrite Forall_forall in F.
  repeat split; intros; match goal with X : In _ l |- _ => destruct (F _ X) end.
Qed.

Lemma startFile_events (index : nat) (w : World) :
  index < numFiles a ->
  emits WF w (fst (startFile U H a checksums index w)) /\
  match snd (startFile U H a checksums index w) with
  | Returned => True
  | Threw _ => False
  | Suspended t => taskOk a checksums t
  end.
Proof.
  intros Hi. unfold startFile.
  destruct (stopFlag w).
  { split; [apply emits_refl; [apply wellFormed_nil | reflexivity] | exact I]. }
  destruct (included U H a (getFilePath a index)) eqn:Inc; simpl.
  - split; [ | auto].
    exists [GetFileData index (getFilePath a index)]. split; [reflexivity | ].
    repeat split; intros; simpl in *;
      match goal with X : _ \/ False |- _ => destruct X as [X | []] end;
      try discriminate; inversion H0; subst; auto.
  - split; [ | exact I].
    eexists. split; [logs | ].
    apply wellFormed_quiet. repeat constructor.
Qed.

Lemma afterFileData_events (index : nat) (w : World) :
  index < numFiles a ->
  let p := getFilePath a index in
  let r := afterFileData U a index p (findChecksum checksums p)
             (getFileData a index) w in
  emits WF w (fst r) /\
  match snd r with
  | Suspended t => taskOk a checksums t
  | _ => True
  end.
Proof.
  intros Hi p r. subst r. unfold afterFileData.
  destruct (getFileData a index) as [[fd | ] | e] eqn:G.
  - fold (fileOf a index fd).
    change (createChecksum U (strOr (p_content fd) ""))
      with (createChecksum U (content (fileOf a index fd))).
    change (findChecksum checksums p)
      with (findChecksum checksums (path (fileOf a index fd))).
    fold (skips U a checksums (fileOf a index fd)).
    destruct (skips U a checksums (fileOf a index fd)) eqn:S; simpl.
    + split; [ | exact I].
      eexists. split; [logs | ].
      repeat split; intros; simpl in *;
        repeat match goal with X : _ \/ _ |- _ => destruct X as [X | X] end;
        try contradiction; try discriminate.
      * inversion H0; subst; assumption.
      * inversion H0; subst; symmetry; assumption.
      * inversion H0; subst. congruence.
    + split; [ | split; [assumption | reflexivity]].
      eexists. split; [logs | ].
      repeat split; intros; simpl in *;
        repeat match goal with X : _ \/ _ |- _ => destruct X as [X | X] end;
        try contradiction; try discriminate.
      * inversion H0; subst; assumption.
      * inversion H0; subst; symmetry; assumption.
      * inversion H0; subst. auto.
      * inversion H0; subst; reflexivity.
      * inversion H0; subst; assumption.
      * inversion H0; subst. exists index, fd. auto.
  - simpl. split; [ | exact I].
    eexists. split; [logs | ].
    repeat split; intros; simpl in *;
      repeat match goal with X : _ \/ _ |- _ => destruct X as [X | X] end;
      try contradiction; try discriminate.
    + inversion H0; subst; assumption.
    + inversion H0; subst; symmetry; assumption.
  - simpl. split; [ | exact I].
    eexists. split; [logs | ].
    repeat split; intros; simpl in *;
      repeat match goal with X : _ \/ _ |- _ => destruct X as [X | X] end;
      try contradiction; try discriminate.
    + inversion H0; subst; assumption.
    + inversion H0; subst; symmetry; assumption.
Qed.

Lemma afterProcessFile_events (f : FileData) (nm : option string)
    (r : Await unit) (w : World) :
  emits WF w (fst (afterProcessFile U a f nm r w)) /\
  match snd (afterProcessFile U a f nm r w) with
  | Suspended _ => False
  | _ => True
  end.
Proof.
  unfold afterProcessFile.
  destruct r as [u | e]; [ | destruct (isQuotaExceeded U e)];
    cbn [fst snd]; (split; [ | exact I]).
  all: eexists; split;
    [cbn [log emit setState setErrors]; rewrite ?log_callOnFileProcessed;
     cbn [log emit setState setErrors]; rewrite <- ?app_assoc; reflexivity | ].
  all: apply wellFormed_quiet; destruct (onFileProcessed a); repeat constructor.
Qed.

Lemma resumeFile_events (t : Task) (w : World) :
  taskOk a checksums t ->
  emits WF w (fst (resumeFile U a t w)) /\
  match snd (resumeFile U a t w) with
  | Suspended t' => taskOk a checksums t'
  | _ => True
  end.
Proof.
  destruct t as [i p prev | i f nm]; cbn [taskOk resumeFile].
  - intros (Hi & -> & ->). now apply afterFileData_events.
  - intros _. destruct (afterProcessFile_events f nm (processFile U (sourceId a) f) w)
      as (E & N).
    split; [exact E | ].
    destruct (snd (afterProcessFile U a f nm (processFile U (sourceId a) f) w));
      auto; contradiction.
Qed.

Lemma guarded_events (index : nat) (w w' : World) (o : Outcome) :
  emits WF w w' ->
  emits WF w (fst (guarded U a index (w', o))) /\
  snd (guarded U a index (w', o))
  = match o with Suspended t => Some t | _ => None end.
Proof.
  intros E. destruct o; cbn [guarded fst snd]; (split; [ | reflexivity]); auto.
  eapply emits_trans; [apply wellFormed_app | exact E | ].
  eexists. split; [logs | ]. apply wellFormed_quiet. repeat constructor.
Qed.

Lemma Forall_removeNth {A : Type} (P : A -> Prop) (k : nat) (l : list A) :
  Forall P l -> Forall P (removeNth k l).
Proof.
  intros F. revert k. induction F; intros [ | k]; simpl; auto.
Qed.

Lemma Forall_keep (P : Task -> Prop) (ts : list Task) (o : option Task) :
  Forall P ts -> match o with Some t => P t | None => True end ->
  Forall P (keep ts o).
Proof.
  intros F Po. destruct o; simpl; auto.
  apply Forall_app. auto.
Qed.

Lemma step_events (c : Choice) (r : Run) :
  runOk a checksums r ->
  runOk a checksums (step U H a checksums c r) /\
  emits WF (world r) (world (step U H a checksums c r)).
Proof.
  intros (Fq & Fa). destruct c as [ | k | ]; cbn [step].
  - destruct (queue r) as [ | index q] eqn:Eq.
    { split; [split; [rewrite Eq | ]; auto | apply emits_refl; [apply wellFormed_nil | reflexivity]]. }
    destruct (List.length (active r) <? concurrency).
    2:{ split; [split; [rewrite Eq | ]; auto | apply emits_refl; [apply wellFormed_nil | reflexivity]]. }
    inversion Fq as [ | ? ? Hi Fq']; subst.
    destruct (startFile_events index (world r) Hi) as (E & T).
    destruct (startFile U H a checksums index (world r)) as [w' o].
    destruct (guarded_events index (world r) w' o E) as (E' & O).
    destruct (guarded U a index (w', o)) as [w'' o'']. cbn [fst snd] in *.
    subst o''. cbn [world queue active]. split; [split | ]; auto.
    apply Forall_keep; auto. destruct o; auto.
  - destruct (nth_error (active r) k) as [t | ] eqn:N.
    2:{ split; [split; auto | apply emits_refl; [apply wellFormed_nil | reflexivity]]. }
    assert (Tok : taskOk a checksums t).
    { rewrite Forall_forall in Fa. apply Fa. eapply nth_error_In; eassumption. }
    destruct (resumeFile_events t (world r) Tok) as (E & T).
    destruct (resumeFile U a t (world r)) as [w' o].
    destruct (guarded_events (taskIndex t) (world r) w' o E) as (E' & O).
    destruct (guarded U a (taskIndex t) (w', o)) as [w'' o'']. cbn [fst snd] in *.
    subst o''. cbn [world queue active]. split; [split | ]; auto.
    apply Forall_keep; [now apply Forall_removeNth | ]. destruct o; auto.
  - split; [split; auto | ].
    apply emits_refl; [apply wellFormed_nil | reflexivity].
Qed.

Lemma steps_events (cs : list Choice) (r : Run) :
  runOk a checksums r ->
  runOk a checksums (steps U H a checksums cs r) /\
  emits WF (world r) (world (steps U H a checksums cs r)).
Proof.
  revert r. induction cs as [ | c cs IH]; intros r Ok; cbn [steps fold_left].
  - split; [exact Ok | apply emits_refl; [apply wellFormed_nil | reflexivity]].
  - destruct (step_events c r Ok) as (Ok1 & E1).
    destruct (IH _ Ok1) as (Ok2 & E2).
    split; [exact Ok2 | ].
    eapply emits_trans; [apply wellFormed_app | exact E1 | exact E2].
Qed.

Lemma drain_events (fuel : nat) (r : Run) :
  runOk a checksums r ->
  runOk a checksums (drain U H a checksums fuel r) /\
  emits WF (world r) (world (drain U H a checksums fuel r)).
Proof.
  revert r. induction fuel as [ | fuel IH]; intros r Ok; cbn [drain].
  - split; [exact Ok | apply emits_refl; [apply wellFormed_nil | reflexivity]].
  - destruct (nextChoice r) as [c | ].
    2:{ split; [exact Ok | apply emits_refl; [apply wellFormed_nil | reflexivity]]. }
    destruct (step_events c r Ok) as (Ok1 & E1).
    destruct (IH _ Ok1) as (Ok2 & E2).
    split; [exact Ok2 | ].
    eapply emits_trans; [apply wellFormed_app | exact E1 | exact E2].
Qed.

Lemma promiseAll_events (sched : list Choice) (w : World) :
  emits WF w (world (promiseAll U H a checksums sched w)).
Proof.
  unfold promiseAll.
  assert (Ok : runOk a checksums (mkRun w (seq 0 (numFiles a)) [])).
  { split; cbn [queue active]; [ | constructor].
    apply Forall_forall. intros i Hi. apply in_seq in Hi. lia. }
  destruct (steps_events sched _ Ok) as (Ok1 & E1).
  destruct (drain_events
              (remaining (steps U H a checksums sched (mkRun w (seq 0 (numFiles a)) [])))
              _ Ok1) as (_ & E2).
  eapply emits_trans; [apply wellFormed_app | exact E1 | exact E2].
Qed.

(** *** Every run comes to its end *)

Lemma started_weight (index : nat) (w : World) :
  match snd (guarded U a index (startFile U H a checksums index w)) with
  | Some t => taskWeight t = 2
  | None => True
  end.
Proof.
  unfold startFile. destruct (stopFlag w); cbn; auto.
  destruct (included U H a (getFilePath a index)); cbn; auto.
Qed.

Lemma resumed_weight (t : Task) (w : World) :
  match snd (guarded U a (taskIndex t) (resumeFile U a t w)) with
  | Some t' => taskWeight t' < taskWeight t
  | None => 0 < taskWeight t
  end.
Proof.
  destruct t as [i p prev | i f nm]; cbn [resumeFile].
  - unfold afterFileData.
    destruct (getFileData a i) as [[fd | ] | e]; cbn; auto.
    destruct (sameChecksum prev _ && negb (forceRetrain a)); cbn; auto.
  - unfold afterProcessFile.
    destruct (processFile U (sourceId a) f) as [u | e]; cbn; auto.
    destruct (isQuotaExceeded U e); cbn; auto.
Qed.

Lemma remaining_decreases (c : Choice) (r : Run) :
  nextChoice r = Some c ->
  remaining (step U H a checksums c r) < remaining r.
Proof.
  unfold nextChoice, remaining.
  destruct (queue r) as [ | index q] eqn:Eq; destruct (active r) as [ | t ts] eqn:Ea;
    try discriminate.
  - intros [= <-]. cbn [step]. rewrite Ea. cbn [nth_error].
    pose proof (resumed_weight t (world r)) as W.
    destruct (guarded U a (taskIndex t) (resumeFile U a t (world r))) as [w' o].
    cbn [snd] in W. cbn [queue active removeNth]. rewrite Eq.
    destruct o as [t' | ]; cbn [keep]; rewrite ?map_app, ?list_sum_app; unfold list_sum; cbn in *; lia.
  - cbn. intros [= <-]. cbn [step]. rewrite Eq, Ea. cbn.
    pose proof (started_weight index (world r)) as W.
    destruct (guarded U a index (startFile U H a checksums index (world r))) as [w' o].
    cbn [snd] in W. cbn [queue active].
    destruct o as [t' | ]; unfold list_sum; cbn in *; lia.
  - destruct (List.length (t :: ts) <? concurrency) eqn:L; intros [= <-]; cbn [step].
    + rewrite Eq, Ea, L.
      pose proof (started_weight index (world r)) as W.
      destruct (guarded U a index (startFile U H a checksums index (world r))) as [w' o].
      cbn [snd] in W. cbn [queue active].
      destruct o as [t' | ]; cbn [keep]; rewrite ?map_app, ?list_sum_app; unfold list_sum; cbn in *; lia.
    + rewrite Ea. cbn [nth_error].
      pose proof (resumed_weight t (world r)) as W.
      destruct (guarded U a (taskIndex t) (resumeFile U a t (world r))) as [w' o].
      cbn [snd] in W. cbn [queue active removeNth]. rewrite Eq.
      destruct o as [t' | ]; cbn [keep]; rewrite ?map_app, ?list_sum_app; unfold list_sum; cbn in *; lia.
Qed.

Lemma nextChoice_None (r : Run) :
  nextChoice r = None <-> queue r = [] /\ active r = [].
Proof.
  unfold nextChoice. destruct (queue r), (active r); split; try discriminate;
    try tauto; try (intros (? & ?); discriminate).
  all: destruct (_ <? _); discriminate.
Qed.

Lemma drain_complete (fuel : nat) (r : Run) :
  remaining r <= fuel ->
  nextChoice (drain U H a checksums fuel r) = None.
Proof.
  revert r. induction fuel as [ | fuel IH]; intros r L; cbn [drain].
  - destruct (nextChoice r) as [c | ] eqn:N; [ | reflexivity].
    apply remaining_decreases in N. lia.
  - destruct (nextChoice r) as [c | ] eqn:N; [ | exact N].
    apply IH. apply remaining_decreases in N. lia.
Qed.

(** [Promise.all] settles: no call is left queued or in flight. *)
Lemma promiseAll_complete (sched : list Choice) (w : World) :
  queue (promiseAll U H a checksums sched w) = [] /\
  active (promiseAll U H a checksums sched w) = [].
Proof.
  apply nextChoice_None. unfold promiseAll. apply drain_complete. lia.
Qed.

(** *** The error list and the stop flag *)

Lemma startFile_fields (index : nat) (w : World) :
  let w' := fst (guarded U a index (startFile U H a checksums index w)) in
  errors w' = errors w /\ stopFlag w' = stopFlag w /\
  exists evs, log w' = log w ++ evs.
Proof.
  unfold startFile. destruct (stopFlag w) eqn:S; cbn.
  { rewrite S. repeat split. exists []. now rewrite app_nil_r. }
  destruct (included U H a (getFilePath a index)); cbn;
    (repeat split; [assumption | eexists; reflexivity]).
Qed.

Lemma resumeFile_fields (t : Task) (w : World) :
  let w' := fst (guarded U a (taskIndex t) (resumeFile U a t w)) in
  (Forall (ordinaryError U) (errors w) -> Forall (ordinaryError U) (errors w')) /\
  stopFlag w' = stopFlag w /\
  exists evs, log w' = log w ++ evs.
Proof.
  destruct t as [i p prev | i f nm]; cbn [resumeFile].
  - unfold afterFileData.
    destruct (getFileData a i) as [[fd | ] | e]; cbn [guarded fst].
    + destruct (sameChecksum prev _ && negb (forceRetrain a)); cbn [guarded fst];
        (repeat split; [auto | eexists; logs]).
    + repeat split; [auto | eexists; logs].
    + repeat split; [auto | eexists; logs].
  - unfold afterProcessFile, callOnFileProcessed.
    destruct (processFile U (sourceId a) f) as [u | e]; cbn [guarded fst].
    + destruct (onFileProcessed a); (repeat split; [auto | ]).
      * eexists; logs.
      * exists []. now rewrite app_nil_r.
    + destruct (isQuotaExceeded U e) eqn:Q; destruct (onFileProcessed a);
        cbn [guarded fst]; (repeat split; [ | eexists; logs]).
      all: cbn [errors emit setState setErrors]; auto.
      all: intros F; apply Forall_app; split; [exact F | ].
      all: constructor; [ | constructor]; exists (path f), e; auto.
Qed.

Lemma resume_settles (i : nat) (p : string) (prev : option string) (w : World) :
  exists evs,
    log (fst (guarded U a i (resumeFile U a (AwaitFileData i p prev) w)))
    = log w ++ FileDataSettled i (getFileData a i) :: evs.
Proof.
  cbn [resumeFile]. unfold afterFileData.
  destruct (getFileData a i) as [[fd | ] | e]; cbn [guarded fst].
  - destruct (sameChecksum prev _ && negb (forceRetrain a)); cbn [guarded fst];
      eexists; logs.
  - eexists; logs.
  - eexists; logs.
Qed.

Lemma step_errors (c : Choice) (r : Run) :
  Forall (ordinaryError U) (errors (world r)) ->
  Forall (ordinaryError U) (errors (world (step U H a checksums c r))).
Proof.
  intros F. destruct c as [ | k | ]; cbn [step].
  - destruct (queue r) as [ | index q]; [exact F | ].
    destruct (_ <? _); [ | exact F].
    pose proof (startFile_fields index (world r)) as (E & _).
    destruct (guarded U a index (startFile U H a checksums index (world r))) as [w' o].
    cbn [fst world] in *. now rewrite E.
  - destruct (nth_error (active r) k) as [t | ]; [ | exact F].
    pose proof (resumeFile_fields t (world r)) as (E & _).
    destruct (guarded U a (taskIndex t) (resumeFile U a t (world r))) as [w' o].
    cbn [fst world] in *. auto.
  - exact F.
Qed.

Lemma steps_errors (cs : list Choice) (r : Run) :
  Forall (ordinaryError U) (errors (world r)) ->
  Forall (ordinaryError U) (errors (world (steps U H a checksums cs r))).
Proof.
  revert r. induction cs as [ | c cs IH]; intros r F; cbn [steps fold_left]; auto.
  apply IH, step_errors, F.
Qed.

Lemma drain_errors (fuel : nat) (r : Run) :
  Forall (ordinaryError U) (errors (world r)) ->
  Forall (ordinaryError U) (errors (world (drain U H a checksums fuel r))).
Proof.
  revert r. induction fuel as [ | fuel IH]; intros r F; cbn [drain]; auto.
  destruct (nextChoice r); auto. apply IH, step_errors, F.
Qed.

(** *** Without a request to stop every included item has its data settled *)

Lemma In_removeNth {A : Type} (x t : A) (k : nat) (l : list A) :
  In x l -> nth_error l k = Some t -> x = t \/ In x (removeNth k l).
Proof.
  revert k. induction l as [ | y l IH]; intros k I N; [contradiction | ].
  destruct k as [ | k]; cbn in *.
  - injection N as ->. destruct I as [-> | I]; auto.
  - destruct I as [-> | I]; [auto | ].
    destruct (IH k I N); auto.
Qed.

Lemma In_keep (x : Task) (ts : list Task) (o : option Task) :
  In x ts -> In x (keep ts o).
Proof. destruct o; cbn; auto. intros I. apply in_or_app. auto. Qed.

Lemma step_progressed (w0 : World) (c : Choice) (r : Run) :
  c <> Stop ->
  progressed U H a checksums w0 r ->
  progressed U H a checksums w0 (step U H a checksums c r).
Proof.
  intros NS (SF & k & evs & L & Hk & Q & P).
  destruct c as [ | j | ]; [ | | contradiction]; cbn [step].
  - destruct (queue r) as [ | index q] eqn:Eq.
    { split; [exact SF | exists k, evs; rewrite Eq; auto]. }
    destruct (_ <? _).
    2:{ split; [exact SF | exists k, evs; rewrite Eq; auto]. }
    assert (k < numFiles a /\ index = k /\ q = seq (S k) (numFiles a - S k))
      as (Hk' & -> & ->).
    { destruct (numFiles a - k) as [ | m] eqn:M; [discriminate | ].
      cbn in Q. injection Q as -> ->.
      repeat split; [lia | f_equal; lia]. }
    pose proof (startFile_fields k (world r)) as (_ & S' & evs' & L').
    assert (T : included U H a (getFilePath a k) = true ->
                snd (guarded U a k (startFile U H a checksums k (world r)))
                = Some (AwaitFileData k (getFilePath a k)
                          (findChecksum checksums (getFilePath a k)))).
    { intros Inc. unfold startFile. rewrite SF, Inc. reflexivity. }
    destruct (guarded U a k (startFile U H a checksums k (world r))) as [w' o].
    cbn [fst snd world queue active] in *.
    unfold progressed; cbn [world queue active].
    split; [congruence | ].
    exists (S k), (evs ++ evs'). rewrite L', L, app_assoc.
    repeat split; [lia | ].
    intros i Hi Inc. destruct (Nat.eq_dec i k) as [-> | Ne].
    + left. rewrite (T Inc). cbn. apply in_or_app. right. now left.
    + destruct (P i ltac:(lia) Inc) as [I | I].
      * left. now apply In_keep.
      * right. apply in_or_app. now left.
  - destruct (nth_error (active r) j) as [t | ] eqn:N.
    2:{ split; [exact SF | exists k, evs; auto]. }
    pose proof (resumeFile_fields t (world r)) as (_ & S' & evs' & L').
    assert (T : forall i p prev, t = AwaitFileData i p prev ->
                In (FileDataSettled i (getFileData a i)) evs').
    { intros i p prev ->. destruct (resume_settles i p prev (world r)) as (e2 & L2).
      cbn [taskIndex] in L'. rewrite L2 in L'. apply app_inv_head in L'.
      subst evs'. now left. }
    destruct (guarded U a (taskIndex t) (resumeFile U a t (world r))) as [w' o].
    cbn [fst snd world queue active] in *.
    unfold progressed; cbn [world queue active].
    split; [congruence | ].
    exists k, (evs ++ evs'). rewrite L', L, app_assoc.
    repeat split; [assumption | assumption | ].
    intros i Hi Inc. destruct (P i Hi Inc) as [I | I].
    + destruct (In_removeNth _ _ _ _ I N) as [<- | I'].
      * right. apply in_or_app. right. eapply T. reflexivity.
      * left. now apply In_keep.
    + right. apply in_or_app. now left.
Qed.

Lemma steps_progressed (w0 : World) (cs : list Choice) (r : Run) :
  Forall (fun c => c <> Stop) cs ->
  progressed U H a checksums w0 r ->
  progressed U H a checksums w0 (steps U H a checksums cs r).
Proof.
  intros F. revert r. induction F as [ | c cs NS F IH]; intros r P;
    cbn [steps fold_left]; auto.
  apply IH, step_progressed; assumption.
Qed.

Lemma nextChoice_not_Stop (r : Run) (c : Choice) :
  nextChoice r = Some c -> c <> Stop.
Proof.
  unfold nextChoice. destruct (queue r), (active r); try discriminate;
    try destruct (_ <? _); intros [= <-]; discriminate.
Qed.

Lemma drain_progressed (w0 : World) (fuel : nat) (r : Run) :
  progressed U H a checksums w0 r ->
  progressed U H a checksums w0 (drain U H a checksums fuel r).
Proof.
  revert r. induction fuel as [ | fuel IH]; intros r P; cbn [drain]; auto.
  destruct (nextChoice r) as [c | ] eqn:N; auto.
  apply IH, step_progressed; [eapply nextChoice_not_Stop; eassumption | exact P].
Qed.

End RunEvents.

(** *** [generateEmbeddings] as a whole *)

Lemma generateEmbeddings_run (U : Imports) (H : Hooks) (a : Args)
    (cs : option (list ChecksumRow)) (sched : list Choice) (w : World)
    (pid : string) :
  project_id H = Some pid ->
  generateEmbeddings U H a (Fulfilled cs) sched w
  = (setState idle
       (world (promiseAll U H a (listOr cs) sched
                 (setStopFlag false (setErrors (fun _ => []) w)))), None).
Proof. intros P. unfold generateEmbeddings. now rewrite P. Qed.

(** The events of a run are exactly the calls the code makes for the items
    of the run, the run ends in [idle], and its error list holds no quota
    error. *)
Theorem generateEmbeddings_events (U : Imports) (H : Hooks) (a : Args)
    (cs : option (list ChecksumRow)) (sched : list Choice) (w : World)
    (pid : string) :
  project_id H = Some pid ->
  let w' := fst (generateEmbeddings U H a (Fulfilled cs) sched w) in
  state w' = idle /\
  wellFormed U H a (listOr cs) (since w w') /\
  Forall (ordinaryError U) (errors w').
Proof.
  intros P w'. subst w'. rewrite (generateEmbeddings_run _ _ _ _ _ _ _ P).
  cbn [fst]. split; [reflexivity | split].
  - destruct (promiseAll_events U H a (listOr cs) sched
                (setStopFlag false (setErrors (fun _ => []) w))) as (evs & L & WF).
    erewrite since_app; [exact WF | exact L].
  - cbn [errors setState]. unfold promiseAll.
    apply drain_errors, steps_errors. constructor.
Qed.

(** Unless the user asks to stop, [processFile] is called for every included
    item whose data resolves and whose checksum test does not skip it, whatever
    happens to the other items. *)
Theorem every_item_is_attempted (U : Imports) (H : Hooks) (a : Args)
    (cs : option (list ChecksumRow)) (sched : list Choice) (w : World)
    (pid : string) (i : nat) (fd : PartialFileData) :
  project_id H = Some pid ->
  Forall (fun c => c <> Stop) sched ->
  i < numFiles a ->
  included U H a (getFilePath a i) = true ->
  getFileData a i = Fulfilled (Some fd) ->
  skips U a (listOr cs) (fileOf a i fd) = false ->
  In (ProcessFile (sourceId a) (fileOf a i fd))
     (since w (fst (generateEmbeddings U H a (Fulfilled cs) sched w))).
Proof.
  intros P NS Hi Inc G Sk.
  rewrite (generateEmbeddings_run _ _ _ _ _ _ _ P). cbn [fst].
  set (w1 := setStopFlag false (setErrors (fun _ => []) w)).
  destruct (promiseAll_events U H a (listOr cs) sched w1) as (evs & L & WF).
  destruct (promiseAll_complete U H a (listOr cs) sched w1) as (Qe & Ae).
  assert (P0 : progressed U H a (listOr cs) w1 (mkRun w1 (seq 0 (numFiles a)) [])).
  { split; [reflexivity | ]. exists 0, []. cbn [world queue active].
    rewrite app_nil_r, Nat.sub_0_r. repeat split; [lia | ]. intros; lia. }
  apply (steps_progressed U H a (listOr cs) w1 sched _ NS) in P0.
  apply (drain_progressed U H a (listOr cs) w1
           (remaining (steps U H a (listOr cs) sched (mkRun w1 (seq 0 (numFiles a)) [])))) in P0.
  fold (promiseAll U H a (listOr cs) sched w1) in P0.
  destruct P0 as (_ & k & evs' & L' & Hk & Q & Pr).
  rewrite Qe in Q. rewrite Ae in Pr.
  assert (k = numFiles a) as ->.
  { destruct (numFiles a - k) eqn:M; [lia | discriminate]. }
  rewrite L in L'. apply app_inv_head in L'. subst evs'.
  erewrite since_app; [ | exact L].
  destruct WF as (_ & _ & C & _). apply C; [ | exact Sk].
  destruct (Pr i Hi Inc) as [[] | I]. now rewrite G in I.
Qed.

(** *** One item *)

(** The test of the code, [prevChecksum === currentChecksum], succeeds
    exactly when the computed checksum is the one stored for the path. *)
Lemma sameChecksum_stored (checksums : list ChecksumRow) (p c : string) :
  sameChecksum (findChecksum checksums p) c = true
  <-> storedChecksum checksums p c.
Proof.
  unfold findChecksum, storedChecksum. split.
  - induction checksums as [ | r rs IH]; cbn [find]; [discriminate | ].
    destruct (String.eqb (row_path r) p) eqn:E.
    + intros S. apply String.eqb_eq in E.
      destruct (row_checksum r) as [c' | ] eqn:C; cbn in S; [ | discriminate].
      apply String.eqb_eq in S. subst c'.
      exists [], r, rs. repeat split; auto.
    + intros S. destruct (IH S) as (before & row & after & -> & F & P & C).
      exists (r :: before), row, after. repeat split; auto.
      constructor; [ | exact F]. intros X. rewrite X, String.eqb_refl in E.
      discriminate.
  - intros (before & row & after & -> & F & P & C).
    induction F as [ | r before N F IH]; cbn [find app].
    + rewrite P, String.eqb_refl, C. cbn. apply String.eqb_refl.
    + destruct (String.eqb (row_path r) p) eqn:E; [ | exact IH].
      apply String.eqb_eq in E. contradiction.
Qed.

(** What the code does with one item whose data resolved, in terms of its
    own test. *)
Lemma checksum_test_decides (U : Imports) (H : Hooks) (a : Args)
    (checksums : list ChecksumRow) (index : nat) (w : World)
    (fd : PartialFileData) :
  let w' := fst (generateEmbeddingForFile U H a checksums index w) in
  let same := sameChecksum (findChecksum checksums (getFilePath a index))
                (createChecksum U (strOr (p_content fd) "")) in
  included U H a (getFilePath a index) = true ->
  In (FileDataSettled index (Fulfilled (Some fd))) (since w w') ->
  (same = true -> forceRetrain a = false -> processed (since w w') = []) /\
  (same = false -> processed (since w w') = [fileOf a index fd]) /\
  (forceRetrain a = true -> processed (since w w') = [fileOf a index fd]).
Proof.
  intros w' same Inc. subst w' same.
  unfold generateEmbeddingForFile, startFile.
  destruct (stopFlag w).
  { cbn [fst]. unfold since. rewrite skipn_all. contradiction. }
  rewrite Inc. cbn [negb resumeFile]. unfold afterFileData.
  destruct (getFileData a index) as [[fd' | ] | e] eqn:G.
  2, 3: erewrite since_app by logs; intros [X | [X | []]]; discriminate.
  fold (fileOf a index fd').
  destruct (sameChecksum _ (createChecksum U (strOr (p_content fd') "")))
    eqn:Same; destruct (forceRetrain a) eqn:Force; cbn [andb negb].
  2:{ erewrite since_app by logs.
      intros [X | [X | [X | []]]]; try discriminate.
      injection X as <-. rewrite Same. repeat split; intros; congruence. }
  all: cbn [resumeFile]; unfold afterProcessFile, callOnFileProcessed;
    destruct (processFile U (sourceId a) (fileOf a index fd')) as [u | e];
    [ | destruct (isQuotaExceeded U e)]; destruct (onFileProcessed a);
    cbn [fst]; erewrite since_app by logs; cbn [In processed flat_map app].
  all: intros X; repeat (destruct X as [X | X]; try discriminate);
    try contradiction; injection X as <-; rewrite ?Same;
    repeat split; intros; congruence.
Qed.

(** C2.  An item that passes the include/exclude filter and whose
    [getFileData] resolved to content is not handed to [processFile] when
    the checksum computed from its content is the checksum stored for its
    path and [forceRetrain] is false, and is handed to it, once, in every
    other case: when no such checksum is stored, and always when
    [forceRetrain] is true. *)
Theorem checksum_decides_processing (U : Imports) (H : Hooks) (a : Args)
    (checksums : list ChecksumRow) (index : nat) (w : World)
    (fd : PartialFileData) :
  let w' := fst (generateEmbeddingForFile U H a checksums index w) in
  let unchanged :=
    storedChecksum checksums (getFilePath a index)
      (createChecksum U (content (fileOf a index fd))) in
  included U H a (getFilePath a index) = true ->
  In (FileDataSettled index (Fulfilled (Some fd))) (since w w') ->
  (unchanged -> forceRetrain a = false -> processed (since w w') = []) /\
  (~ unchanged -> processed (since w w') = [fileOf a index fd]) /\
  (forceRetrain a = true -> processed (since w w') = [fileOf a index fd]).
Proof.
  intros w' unchanged Inc Settled. subst w' unchanged. cbn [content fileOf].
  destruct (checksum_test_decides U H a checksums index w fd Inc Settled)
    as (Same & Differs & Forced).
  split; [ | split; [ | exact Forced]].
  - intros St. apply Same. apply sameChecksum_stored, St.
  - intros NSt. apply Differs.
    destruct (sameChecksum _ _) eqn:S; [ | reflexivity].
    apply sameChecksum_stored in S. contradiction.
Qed.

(** The theorem at the first of seven files in its three cases: stored as
    it is now, it is skipped; stored with another content, it is processed;
    and with [forceRetrain] it is processed though stored as it is now. *)
Lemma checksum_decides_processing_witness :
  processed (since TrainingExamples.fresh
     (fst (generateEmbeddingForFile TrainingExamples.everyFileOk
             TrainingExamples.hooks TrainingExamples.sevenFiles
             TrainingExamples.upToDate 0 TrainingExamples.fresh)))
  = [] /\
  processed (since TrainingExamples.fresh
     (fst (generateEmbeddingForFile TrainingExamples.everyFileOk
             TrainingExamples.hooks TrainingExamples.sevenFiles
             TrainingExamples.outOfDate 0 TrainingExamples.fresh)))
  = [fileOf TrainingExamples.sevenFiles 0 (TrainingExamples.bodyOf 0)] /\
  processed (since TrainingExamples.fresh
     (fst (generateEmbeddingForFile TrainingExamples.everyFileOk
             TrainingExamples.hooks TrainingExamples.sevenFilesAnew
             TrainingExamples.upToDate 0 TrainingExamples.fresh)))
  = [fileOf TrainingExamples.sevenFilesAnew 0 (TrainingExamples.bodyOf 0)].
Proof.
  split; [ | split].
  - refine (proj1
      (checksum_decides_processing TrainingExamples.everyFileOk
         TrainingExamples.hooks TrainingExamples.sevenFiles
         TrainingExamples.upToDate 0 TrainingExamples.fresh
         (TrainingExamples.bodyOf 0) _ _) _ _).
    + reflexivity.
    + vm_compute. right. left. reflexivity.
    + exists [mkRow "docs/f9.md" (Some "body of docs/f9.md")],
        (mkRow "docs/f0.md" (Some "body of docs/f0.md")), [].
      repeat split. constructor; [discriminate | constructor].
    + reflexivity.
  - refine (proj1 (proj2
      (checksum_decides_processing TrainingExamples.everyFileOk
         TrainingExamples.hooks TrainingExamples.sevenFiles
         TrainingExamples.outOfDate 0 TrainingExamples.fresh
         (TrainingExamples.bodyOf 0) _ _)) _).
    + reflexivity.
    + vm_compute. right. left. reflexivity.
    + intros (before & row & after & E & F & P & C).
      destruct before as [ | r0 [ | r1 before]]; cbn in E.
      * injection E as <- _. discriminate P.
      * injection E as _ <- _. discriminate C.
      * injection E as _ _ E. destruct before; discriminate E.
  - refine (proj2 (proj2
      (checksum_decides_processing TrainingExamples.everyFileOk
         TrainingExamples.hooks TrainingExamples.sevenFilesAnew
         TrainingExamples.upToDate 0 TrainingExamples.fresh
         (TrainingExamples.bodyOf 0) _ _)) _).
    + reflexivity.
    + vm_compute. right. left. reflexivity.
    + reflexivity.
Defined.

(** *** A quota error in the middle of a run *)

(** C1, the code at seven items of which item 3 meets the quota error before
    items 5 and 6 were started: the run ends in [idle] with an empty error
    list, yet after the quota toast items 5 and 6 are still fetched and
    [processFile] is still called for every other item. *)
Theorem quota_error_does_not_stop_the_run :
  let w := fst (generateEmbeddings TrainingExamples.quotaOnThird
                  TrainingExamples.hooks TrainingExamples.sevenFiles
                  (Fulfilled (Some [])) TrainingExamples.thirdFirst
                  TrainingExamples.fresh) in
  state w = idle /\
  errors w = [] /\
  fetched (afterQuota (log w)) = ["docs/f5.md"; "docs/f6.md"] /\
  map path (processed (afterQuota (log w)))
  = ["docs/f0.md"; "docs/f1.md"; "docs/f2.md"; "docs/f4.md";
     "docs/f5.md"; "docs/f6.md"].
Proof. vm_compute. repeat split. Qed.

(** *** The crawler *)

Lemma includes_In (xs : list string) (x : string) :
  includes xs x = true <-> In x xs.
Proof.
  unfold includes. rewrite existsb_exists. split.
  - intros (y & I & E). apply String.eqb_eq in E. now subst.
  - intros I. exists x. split; [exact I | apply String.eqb_refl].
Qed.

Lemma uniqFrom_incl (seen xs : list string) (x : string) :
  In x (uniqFrom seen xs) -> In x xs.
Proof.
  revert seen. induction xs as [ | y r IH]; intros seen; cbn; [tauto | ].
  destruct (includes seen y); cbn; intros I.
  - right. eapply IH, I.
  - destruct I as [-> | I]; [now left | right; eapply IH, I].
Qed.

Lemma traverse_In {A B : Type} (f : A -> option B) (xs : list A) (ys : list B) :
  traverse f xs = Some ys ->
  forall y, In y ys -> exists x, In x xs /\ f x = Some y.
Proof.
  revert ys. induction xs as [ | x r IH]; intros ys; cbn.
  - intros [= <-] y [].
  - destruct (f x) as [y0 | ] eqn:F; [ | discriminate].
    destruct (traverse f r) as [ys0 | ]; [ | discriminate].
    intros [= <-] y [<- | I].
    + exists x. auto.
    + destruct (IH _ eq_refl y I) as (x' & I' & F'). exists x'. auto.
Qed.

Lemma pushed_In (evs : list Event) (c : string) :
  In c (pushed evs) ->
  exists i fd, In (FileDataSettled i (Fulfilled (Some fd))) evs /\
               p_content fd = Some c.
Proof.
  unfold pushed. rewrite in_flat_map. intros (e & I & Ic).
  destruct e as [ | | | i [[fd | ] | ] | | | | | ]; try contradiction.
  destruct (p_content fd) as [c' | ] eqn:P; [ | contradiction].
  destruct Ic as [<- | []]. exists i, fd. auto.
Qed.

Lemma fetched_In (evs : list Event) (u : string) :
  In u (fetched evs) -> exists i, In (GetFileData i u) evs.
Proof.
  unfold fetched. rewrite in_flat_map. intros (e & I & Iu).
  destruct e; try contradiction. destruct Iu as [<- | []]. eauto.
Qed.

Lemma fetched_app (l1 l2 : list Event) :
  fetched (l1 ++ l2) = fetched l1 ++ fetched l2.
Proof. apply flat_map_app. Qed.

Section Crawl.
Variables (U : Imports) (W : WebImports) (H : Hooks) (R : Rounds).
Variables (src : string) (force cb : bool) (baseUrl : string).

(** One round fetches only URLs of its frontier, and the contents it
    collects are contents of pages of the frontier. *)
Lemma round_events (round : nat) (urls : list string) (w : World) :
  exists evs,
    log (fst (generateEmbeddingsForUrls U W H R src force cb round urls w))
    = log w ++ evs /\
    (forall u, In u (fetched evs) -> In u urls) /\
    (forall pc,
       snd (generateEmbeddingsForUrls U W H R src force cb round urls w)
       = Fulfilled pc ->
       forall c, In c pc ->
       exists u, In u urls /\ fetchPageContent W u = Fulfilled (Some c)).
Proof.
  unfold generateEmbeddingsForUrls.
  destruct (project_id H) as [pid | ] eqn:P.
  2:{ unfold generateEmbeddings. rewrite P. cbn [fst snd].
      exists []. rewrite app_nil_r. split; [reflexivity | split].
      - intros u [].
      - intros pc [= <-]. unfold pushed. rewrite skipn_all. intros c []. }
  destruct (checksumsAt R round) as [cs | e] eqn:Q.
  2:{ unfold generateEmbeddings. rewrite P. cbn [fst snd].
      exists []. rewrite app_nil_r. split; [reflexivity | split].
      - intros u [].
      - discriminate. }
  pose proof (generateEmbeddings_events U H (urlArgs W src force cb urls) cs
                (schedAt R round) w pid P) as (_ & WF & _).
  rewrite (generateEmbeddings_run _ _ _ _ _ _ _ P) in *. cbn [fst snd] in *.
  destruct (promiseAll_events U H (urlArgs W src force cb urls) (listOr cs)
              (schedAt R round)
              (setStopFlag false (setErrors (fun _ => []) w))) as (evs & L & _).
  cbn [log setState setStopFlag setErrors] in *.
  erewrite since_app in WF by exact L.
  exists evs. split; [exact L | ].
  destruct WF as (A & B & _).
  assert (Nth : forall i, i < List.length urls -> In (nth i urls "") urls)
    by (intros; now apply nth_In).
  split.
  - intros u Iu. apply fetched_In in Iu. destruct Iu as (i & Iu).
    destruct (A _ _ Iu) as (Hi & -> & _). cbn in *. auto.
  - intros pc [= <-] c Ic.
    change (skipn _ _) with
      (since w (setState idle (world (promiseAll U H (urlArgs W src force cb urls)
         (listOr cs) (schedAt R round)
         (setStopFlag false (setErrors (fun _ => []) w)))))) in Ic.
    erewrite since_app in Ic by exact L.
    apply pushed_In in Ic. destruct Ic as (i & fd & I & Pc).
    destruct (B _ _ I) as (Hi & E). cbn in Hi, E.
    exists (nth i urls ""). split; [auto | ].
    unfold pageData in E.
    destruct (fetchPageContent W (nth i urls "")) as [[c' | ] | e']; try discriminate.
    destruct (String.eqb c' ""); try discriminate.
    injection E as ->. cbn in Pc. congruence.
Qed.

Lemma discoveredLinks_closed (universe frontier pc found : list string) :
  closedSite W baseUrl universe ->
  incl frontier universe ->
  (forall c, In c pc ->
     exists u, In u frontier /\ fetchPageContent W u = Fulfilled (Some c)) ->
  discoveredLinks W baseUrl pc = Some found ->
  incl found universe.
Proof.
  intros Cl Inc Pc. unfold discoveredLinks.
  destruct (traverse (extractLinksFromHtml W) pc) as [hrefs | ] eqn:T; [ | discriminate].
  intros [= <-] x Ix. apply in_map_iff in Ix. destruct Ix as (href & <- & Ih).
  apply filter_In in Ih. destruct Ih as (Ih & Same).
  apply uniqFrom_incl, in_concat in Ih. destruct Ih as (hs & Ihs & Ih).
  destruct (traverse_In _ _ _ T _ Ihs) as (c & Ic & E).
  destruct (Pc _ Ic) as (u & Iu & F).
  eapply Cl; eauto.
Qed.

Lemma unvisited_decreases (universe processedLinks frontier : list string)
    (x : string) :
  In x frontier -> In x universe -> ~ In x processedLinks ->
  unvisited universe (processedLinks ++ frontier)
  < unvisited universe processedLinks.
Proof.
  intros If Iu Np. unfold unvisited.
  induction universe as [ | u r IH]; [contradiction | ].
  assert (Le : forall l,
             List.length (filter (fun u => negb (includes (processedLinks ++ frontier) u)) l)
             <= List.length (filter (fun u => negb (includes processedLinks u)) l)).
  { induction l as [ | y l IHl]; cbn; [lia | ].
    destruct (includes processedLinks y) eqn:I1; cbn.
    - apply includes_In in I1.
      assert (I2 : includes (processedLinks ++ frontier) y = true)
        by (apply includes_In, in_or_app; auto).
      rewrite I2. cbn. exact IHl.
    - destruct (includes (processedLinks ++ frontier) y); cbn; lia. }
  cbn. destruct Iu as [-> | Iu].
  - assert (I2 : includes (processedLinks ++ frontier) x = true)
      by (apply includes_In, in_or_app; auto).
    assert (I1 : includes processedLinks x = false).
    { destruct (includes processedLinks x) eqn:I; [ | reflexivity].
      apply includes_In in I. contradiction. }
    rewrite I1, I2. cbn. specialize (Le r). lia.
  - specialize (IH Iu).
    destruct (includes processedLinks u) eqn:I1; cbn.
    + apply includes_In in I1.
      assert (I2 : includes (processedLinks ++ frontier) u = true)
        by (apply includes_In, in_or_app; auto).
      rewrite I2. cbn. exact IH.
    + destruct (includes (processedLinks ++ frontier) u); cbn; lia.
Qed.

Lemma discover_round (fuel round : nat)
    (processedLinks linksToProcess : list string) (w : World) :
  linksToProcess <> [] ->
  discover U W H R src force cb baseUrl (S fuel) round processedLinks
    linksToProcess w
  = match generateEmbeddingsForUrls U W H R src force cb round
            linksToProcess w with
    | (w', Rejected _) => Some (w', processedLinks)
    | (w', Fulfilled processedContent) =>
        match discoveredLinks W baseUrl processedContent with
        | None => Some (w', processedLinks)
        | Some found =>
            discover U W H R src force cb baseUrl fuel (S round)
              (processedLinks ++ linksToProcess)
              (filter (fun link =>
                         negb (includes (processedLinks ++ linksToProcess) link))
                      found)
              w'
        end
    end.
Proof. destruct linksToProcess; [congruence | reflexivity]. Qed.

(** The discovery loop ends on every finite site, cyclic or not, whatever
    the event loop and the checksum store do; no URL it fetches was among
    the links processed before, and all it processes are URLs of the site. *)
Lemma discover_terminates (universe : list string) :
  closedSite W baseUrl universe ->
  forall fuel round processedLinks linksToProcess w,
    incl linksToProcess universe ->
    (forall x, In x linksToProcess -> ~ In x processedLinks) ->
    unvisited universe processedLinks < fuel ->
    exists w' links,
      discover U W H R src force cb baseUrl fuel round processedLinks
        linksToProcess w = Some (w', links) /\
      exists evs, log w' = log w ++ evs /\
        (forall u, In u (fetched evs) ->
           In u universe /\ ~ In u processedLinks).
Proof.
  intros Cl. induction fuel as [ | fuel IH];
    intros round processedLinks linksToProcess w Inc New Fuel; [lia | ].
  assert (Ix : linksToProcess = [] \/ exists x, In x linksToProcess).
  { destruct linksToProcess as [ | x rest]; [now left | right].
    exists x. now left. }
  destruct Ix as [-> | (x & Ix)].
  { cbn. exists w, processedLinks. split; [reflexivity | ].
    exists []. rewrite app_nil_r. split; [reflexivity | intros u []]. }
  rewrite discover_round by (intros ->; contradiction).
  destruct (round_events round linksToProcess w) as (evs & L & F & Pc).
  destruct (generateEmbeddingsForUrls U W H R src force cb round linksToProcess w)
    as [w1 [pc | e]]; cbn [fst snd] in *.
  2:{ exists w1, processedLinks. split; [reflexivity | ].
      exists evs. split; [exact L | ]. intros u Iu. split; auto. }
  specialize (Pc pc eq_refl).
  destruct (discoveredLinks W baseUrl pc) as [found | ] eqn:D.
  2:{ exists w1, processedLinks. split; [reflexivity | ].
      exists evs. split; [exact L | ]. intros u Iu. split; auto. }
  pose proof (discoveredLinks_closed universe linksToProcess pc found Cl Inc Pc D)
    as Fi.
  destruct (IH (S round) (processedLinks ++ linksToProcess)
              (filter (fun link => negb (includes (processedLinks ++ linksToProcess) link)) found)
              w1) as (w2 & links & E & evs2 & L2 & F2).
  - intros y Iy. apply filter_In in Iy. apply Fi, Iy.
  - intros y Iy. apply filter_In in Iy. destruct Iy as (_ & N).
    intros I. apply includes_In in I. rewrite I in N. discriminate.
  - pose proof (unvisited_decreases universe processedLinks linksToProcess x
                  Ix (Inc _ Ix) (New _ Ix)). lia.
  - exists w2, links. split; [exact E | ].
    exists (evs ++ evs2). rewrite L2, L, app_assoc. split; [reflexivity | ].
    intros u Iu. rewrite fetched_app in Iu. apply in_app_or in Iu.
    destruct Iu as [Iu | Iu].
    + split; auto.
    + destruct (F2 _ Iu) as (A & B). split; [exact A | ].
      intros I. apply B, in_or_app. auto.
Qed.

End Crawl.

(** On every finite site the website branch of [_trainSource] ends once the
    loop may run one round per URL of the site, and fetches URLs of the site
    only. *)
Theorem crawler_terminates (U : Imports) (W : WebImports) (H : Hooks)
    (R : Rounds) (src data_url : string) (force cb : bool)
    (universe : list string) (w : World) :
  isSitemapUrl W (toNormalizedUrl W data_url) = false ->
  In (removeTrailingSlashQueryParamsAndHash W data_url) universe ->
  closedSite W (toNormalizedUrl W data_url) universe ->
  exists w',
    trainWebsite U W H R src data_url force cb (S (List.length universe)) w
    = Some w' /\
    incl (fetched (since w w')) universe.
Proof.
  intros NoMap Root Cl. unfold trainWebsite. rewrite NoMap.
  destruct (discover_terminates U W H R src force cb (toNormalizedUrl W data_url)
              universe Cl (S (List.length universe)) 0 []
              [removeTrailingSlashQueryParamsAndHash W data_url] w)
    as (w' & links & E & evs & L & F).
  - intros x [<- | []]. exact Root.
  - intros x _ [].
  - unfold unvisited.
    pose proof (filter_length_le (fun u => negb (includes [] u)) universe).
    lia.
  - exists w'. rewrite E. split; [reflexivity | ].
    erewrite since_app by exact L. intros u Iu. apply F, Iu.
Qed.


(** C4, the code at a site whose root links to two anchors of the same
    page: the discovery loop ends, but the page is fetched (and handed to
    [processFile]) twice in the second round. *)
Theorem crawler_fetches_a_page_twice :
  exists w,
    trainWebsite TrainingExamples.everyFileOk TrainingExamples.twoPages
      TrainingExamples.hooks TrainingExamples.calmRounds
      "site-1" "https://x.io/" false true 3 TrainingExamples.fresh = Some w /\
    fetched (log w) = ["https://x.io"; "https://x.io/a"; "https://x.io/a"] /\
    map path (processed (log w))
    = ["https://x.io"; "https://x.io/a"; "https://x.io/a"].
Proof. eexists. vm_compute. repeat split. Qed.

End TrainingFacts.

(** ** The client stream decoder *)
Module CoreFacts.
Import Js Core.

(** *** Strings *)

Lemma append_nil_r (s : string) : s +++ "" = s.
Proof. induction s as [ | c s IH]; cbn; [reflexivity | now rewrite IH]. Qed.

Lemma append_assoc (a b c : string) : (a +++ b) +++ c = a +++ (b +++ c).
Proof. induction a as [ | x a IH]; cbn; [reflexivity | now rewrite IH]. Qed.














(** Text without a byte above 127 decodes to itself. *)
Lemma utf8_ascii (s : string) : isAscii s = true -> utf8 0 128 191 "" s = s.
Proof.
  induction s as [ | c s IH]; cbn [isAscii utf8]; [reflexivity | ].
  intros E. apply andb_prop in E. destruct E as (E1 & E2).
  unfold lead. rewrite E1. now rewrite IH.
Qed.

Lemma decode_ascii (s : string) : isAscii s = true -> decode s = s.
Proof.
  intros A. unfold decode.
  destruct (startsWith byteOrderMark s) eqn:B; [ | now apply utf8_ascii].
  destruct s as [ | c s]; [discriminate | ].
  unfold byteOrderMark in B. cbn [startsWith isAscii] in A, B.
  apply andb_prop in A. destruct A as (A & _).
  apply andb_prop in B. destruct B as (B & _).
  apply Ascii.eqb_eq in B. subst c. discriminate.
Qed.

(** *** The reading loop *)





Section Reading.
Context {J : Type} (P : Platform J).



End Reading.

(** *** [submitPrompt] *)

Lemma submitPrompt_requests {J : Type} (P : Platform J)
    (prompt projectKey : string) (options : option Options) :
  projectKey <> "" -> prompt <> "" ->
  submitPrompt P prompt projectKey options
  = match fetch P (requestOf prompt projectKey options) with
    | FetchThrows error =>
        ([AnswerChunk (fallbackMessage options); Error error], Resolves)
    | Response ok body text =>
        match (if ok then body else None) with
        | None =>
            match text with
            | Fulfilled t =>
                ([AnswerChunk (fallbackMessage options); Error t], Resolves)
            | Rejected error =>
                ([AnswerChunk (fallbackMessage options); Error error], Resolves)
            end
        | Some b =>
            let start := mkReading "" false (emptyArray P) [] in
            match broken b with
            | Some error =>
                (calls (readSome P (chunks b) start)
                   ++ [AnswerChunk (fallbackMessage options); Error error],
                 Resolves)
            | None =>
                let r := readAll P (chunks b) start in
                (calls r ++ [References (refs r)], Resolves)
            end
        end
    end.
Proof.
  intros K Q. unfold submitPrompt.
  apply String.eqb_neq in K. apply String.eqb_neq in Q. rewrite K, Q.
  destruct (fetch P _) as [e | ok body [t | e]]; try reflexivity.
Qed.





(** A character cut in two by the transport is decoded as two replacement
    characters: each chunk is decoded on its own. *)
Lemma decoder_breaks_split_characters :
  joined CoreExamples.accentSplit = CoreExamples.accentWhole /\
  answerText
    (fst (submitPrompt (serving CoreExamples.offline CoreExamples.accentSplit)
            "What is X?" "pk_test" None))
  = replacement +++ replacement /\
  answerText
    (fst (submitPrompt (serving CoreExamples.offline [CoreExamples.accentWhole])
            "What is X?" "pk_test" None))
  = CoreExamples.accent.
Proof. repeat split. Qed.

(** *** Callbacks that return *)

Section Returning.
Context {J : Type} (P : Platform J) (K : Callbacks.Handlers J).
Hypothesis Returns : Callbacks.returns K.

Lemma onChunk_returning (chunkValue : string) (r : Reading J) :
  Callbacks.onChunk P K chunkValue r = (onChunk P chunkValue r, None).
Proof.
  unfold Callbacks.onChunk, onChunk, Callbacks.invoke.
  destruct (negb (didHandleHeader r));
    [destruct (includes (startText r +++ chunkValue) STREAM_SEPARATOR) | ];
    rewrite ?Returns; reflexivity.
Qed.

Lemma readSome_returning (bytes : list string) (r : Reading J) :
  Callbacks.readSome P K bytes r = (readSome P bytes r, None).
Proof.
  revert r. induction bytes as [ | c rest IH]; intros r; [reflexivity | ].
  cbn [Callbacks.readSome]. rewrite onChunk_returning, IH. reflexivity.
Qed.

Lemma readAll_returning (bytes : list string) (r : Reading J) :
  Callbacks.readAll P K bytes r = (readAll P bytes r, None).
Proof.
  unfold Callbacks.readAll, readAll.
  now rewrite readSome_returning, onChunk_returning.
Qed.

Lemma caught_returning (iDontKnowMessage : string)
    (before : list (Callback J)) (error : string) :
  Callbacks.caught K iDontKnowMessage before error
  = (before ++ [AnswerChunk iDontKnowMessage; Error error], Resolves).
Proof.
  unfold Callbacks.caught, Callbacks.invoke. rewrite !Returns.
  now rewrite <- app_assoc.
Qed.

(** For callbacks that return, the code is [submitPrompt] as defined for
    them. *)
Lemma submitPrompt_returning (prompt projectKey : string)
    (options : option Options) :
  Callbacks.submitPrompt P K prompt projectKey options
  = submitPrompt P prompt projectKey options.
Proof.
  unfold Callbacks.submitPrompt, submitPrompt.
  destruct (String.eqb projectKey ""); [reflexivity | ].
  destruct (String.eqb prompt ""); [reflexivity | ].
  cbv zeta.
  destruct (fetch P _) as [e | ok body [t | e]];
    try (rewrite caught_returning; reflexivity).
  - destruct (if ok then body else None) as [b | ].
    + rewrite readSome_returning, readAll_returning.
      destruct (broken b); [apply caught_returning | ].
      unfold Callbacks.settle, Callbacks.invoke. now rewrite Returns.
    + unfold Callbacks.settle, Callbacks.invoke. now rewrite !Returns.
  - destruct (if ok then body else None) as [b | ].
    + rewrite readSome_returning, readAll_returning.
      destruct (broken b); [apply caught_returning | ].
      unfold Callbacks.settle, Callbacks.invoke. now rewrite Returns.
    + apply caught_returning.
Qed.

End Returning.

(** C9, as amended.  When the request fails outright (a thrown [fetch], a
    response that is not ok, or one without a body) and the callbacks of the
    caller return, the decoder calls [onAnswerChunk] once, with the
    configured fallback message, then [onError], and nothing else. *)
Theorem failed_request_reports_fallback_once {J : Type} (P : Platform J)
    (K : Callbacks.Handlers J) (prompt projectKey : string)
    (options : option Options) :
  projectKey <> "" -> prompt <> "" ->
  failsOutright (fetch P (requestOf prompt projectKey options)) = true ->
  Callbacks.returns K ->
  exists error,
    Callbacks.submitPrompt P K prompt projectKey options
    = ([AnswerChunk (fallbackMessage options); Error error], Resolves).
Proof.
  intros Key Q F Returns.
  rewrite (submitPrompt_returning P K Returns),
    (submitPrompt_requests _ _ _ _ Key Q).
  destruct (fetch P _) as [e | ok body [t | e]]; cbn in F.
  - eauto.
  - destruct ok; [destruct body; [discriminate | ] | ]; eauto.
  - destruct ok; [destruct body; [discriminate | ] | ]; eauto.
Qed.

(** The theorem at a [fetch] that throws, with a fallback message of the
    caller's own. *)
Lemma failed_request_reports_fallback_once_witness :
  exists error,
    Callbacks.submitPrompt CoreExamples.offline MoreExamples.returning
      "What is X?" "pk_test"
      (Some (mkOptions None (Some "No idea.") None None))
    = ([AnswerChunk "No idea."; Error error], Resolves).
Proof.
  apply (failed_request_reports_fallback_once CoreExamples.offline
           MoreExamples.returning "What is X?" "pk_test"
           (Some (mkOptions None (Some "No idea.") None None))).
  - discriminate.
  - discriminate.
  - reflexivity.
  - intros before call. reflexivity.
Defined.

(** C9, as stated, fails: when the server answers with status 500 and
    [onError] throws, the error thrown is caught by the [catch] block around
    the call, which calls [onAnswerChunk] with the fallback message and
    [onError] once more. *)
Lemma throwing_callback_reports_fallback_twice :
  failsOutright
    (fetch MoreExamples.serverDown (requestOf "What is X?" "pk_test" None))
  = true /\
  Callbacks.submitPrompt MoreExamples.serverDown
    MoreExamples.onErrorThrowsOnce "What is X?" "pk_test" None
  = ([AnswerChunk I_DONT_KNOW_MESSAGE; Error "Internal Server Error";
      AnswerChunk I_DONT_KNOW_MESSAGE; Error "onError failed"], Resolves).
Proof. split; reflexivity. Qed.

End CoreFacts.

(** ** The completion engine *)
Module EngineFacts.
Import Js Completions Handler.

(** *** Events and outcomes of the combinators *)

Lemma fst_bind {A B : Type} (m : M A) (f : A -> M B) :
  fst (bind m f)
  = fst m ++ match snd m with Ok a => fst (f a) | Throw _ => [] end.
Proof.
  destruct m as [evs [a | e]]; cbn.
  - destruct (f a); reflexivity.
  - now rewrite app_nil_r.
Qed.

Lemma snd_bind {A B : Type} (m : M A) (f : A -> M B) :
  snd (bind m f)
  = match snd m with Ok a => snd (f a) | Throw e => Throw e end.
Proof. destruct m as [evs [a | e]]; cbn; [destruct (f a) | ]; reflexivity. Qed.

Lemma fst_catch {A : Type} (m : M A) (h : Exn -> M A) :
  fst (catch m h)
  = fst m ++ match snd m with Ok _ => [] | Throw e => fst (h e) end.
Proof.
  destruct m as [evs [a | e]]; cbn.
  - now rewrite app_nil_r.
  - destruct (h e); reflexivity.
Qed.

Lemma snd_catch {A : Type} (m : M A) (h : Exn -> M A) :
  snd (catch m h)
  = match snd m with Ok a => Ok a | Throw e => snd (h e) end.
Proof. destruct m as [evs [a | e]]; cbn; [ | destruct (h e)]; reflexivity. Qed.

Lemma fst_await {A : Type} (e : Event) (r : Await A) : fst (await e r) = [e].
Proof. destruct r; reflexivity. Qed.

Lemma snd_await {A : Type} (e : Event) (r : Await A) :
  snd (await e r) = match r with Fulfilled a => Ok a | Rejected x => Throw x end.
Proof. destruct r; reflexivity. Qed.

Section Events.
Variable P : Event -> Prop.

Lemma events_bind {A B : Type} (m : M A) (f : A -> M B) :
  Forall P (fst m) ->
  (forall a, snd m = Ok a -> Forall P (fst (f a))) ->
  Forall P (fst (bind m f)).
Proof.
  intros Fm Ff. rewrite fst_bind. apply Forall_app. split; [exact Fm | ].
  destruct (snd m); auto.
Qed.

Lemma events_catch {A : Type} (m : M A) (h : Exn -> M A) :
  Forall P (fst m) ->
  (forall e, snd m = Throw e -> Forall P (fst (h e))) ->
  Forall P (fst (catch m h)).
Proof.
  intros Fm Fh. rewrite fst_catch. apply Forall_app. split; [exact Fm | ].
  destruct (snd m); auto.
Qed.

Lemma events_await {A : Type} (e : Event) (r : Await A) :
  P e -> Forall P (fst (await e r)).
Proof. intros Pe. rewrite fst_await. auto. Qed.

Lemma backOff_events (U : Completions.Imports) (left attempt : nat)
    (input : string) (key : option string) (modelId : string) :
  (forall n, P (CreateEmbedding n input key modelId)) ->
  Forall P (fst (backOff U left attempt input key modelId)).
Proof.
  intros Pe. revert attempt. induction left as [ | left IH]; intros attempt;
    cbn [backOff]; destruct (createEmbedding U attempt input key modelId);
    cbn [fst]; auto.
  apply events_bind; cbn; auto.
Qed.

Lemma embedQuery_events (U : Completions.Imports) (q v pid : string)
    (key : option string) (src : string) :
  (forall n, P (CreateEmbedding n q key embeddingsModel)) ->
  (forall info c, P (TokenCount pid info c "sections")) ->
  (forall m, P (ConsoleError m)) ->
  Forall P (fst (embedQuery U q v pid key src)).
Proof.
  intros Pe Pt Pc. unfold embedQuery. apply events_catch.
  - apply events_bind; [now apply backOff_events | ].
    intros r _. destruct (er_error r); [constructor | ].
    apply events_bind; [ | constructor].
    destruct (truthy key); [constructor | ].
    destruct (er_total_tokens r); [ | constructor].
    now apply events_await.
  - intros e _. apply events_bind; cbn; auto.
Qed.

Lemma matchSections_events (U : Completions.Imports) (emb : Embedding)
    (th c : option Q) (pid src : string) :
  (forall t n, P (MatchFileSections pid emb t n 30)) ->
  (forall m, P (ConsoleError m)) ->
  Forall P (fst (matchSections U emb th c pid src)).
Proof.
  intros Pm Pc. unfold matchSections. apply events_bind.
  - now apply events_await.
  - intros a _. destruct (mr_error a).
    + apply events_bind; cbn; auto.
    + destruct (mr_data a) as [[ | s r] | ]; cbn; repeat constructor; auto.
Qed.

Lemma getMatchingSections_events (U : Completions.Imports) (q v : string)
    (th c : option Q) (pid : string) (key : option string) (src : string) :
  P (Moderation q key) ->
  (forall n, P (CreateEmbedding n q key embeddingsModel)) ->
  (forall info n, P (TokenCount pid info n "sections")) ->
  (forall emb t n, P (MatchFileSections pid emb t n 30)) ->
  (forall m, P (ConsoleError m)) ->
  Forall P (fst (getMatchingSections U q v th c pid key src)).
Proof.
  intros Pm Pe Pt Pr Pc. unfold getMatchingSections. apply events_bind.
  - now apply events_await.
  - intros flagged _. destruct flagged; [constructor | ].
    apply events_bind; [now apply embedQuery_events | ].
    intros r _. destruct (er_embedding r); [ | constructor].
    now apply matchSections_events.
Qed.

Lemma storePrompt_events (U : Completions.Imports) (pid : string)
    (prompt response : option string) (emb : option Embedding)
    (reason : option PromptNoResponseReason)
    (refs : option (list FileSectionReference)) (redact : bool) :
  (forall row,
     q_prompt row = (if truthy prompt then prompt else None) ->
     q_meta_noResponseReason row = reason ->
     P (Insert row)) ->
  Forall P (fst (storePrompt U pid prompt response emb reason refs redact)).
Proof. intros Pi. cbn. constructor; [ | constructor]. now apply Pi. Qed.

End Events.

(** *** From the request to the pipeline *)

Lemma take_length (n : nat) (s : string) : String.length (take n s) <= n.
Proof.
  revert s. induction n as [ | n IH]; intros [ | c s]; cbn; try lia.
  specialize (IH s). lia.
Qed.

Lemma take_idempotent (n : nat) (s : string) : take n (take n s) = take n s.
Proof.
  revert s. induction n as [ | n IH]; intros [ | c s]; cbn; auto.
  now rewrite IH.
Qed.

Lemma handler_accepted (U : Completions.Imports) (V : Imports) (req : Request) :
  accepted V req = true ->
  exists given,
    json req = Some given /\
    handler U V req
    = match complete U V req given (truncated V req) (projectIdOf req) with
      | (evs, Ok response) => (RateLimit (projectIdOf req) :: evs, response)
      | (evs, Throw e) =>
          (RateLimit (projectIdOf req) :: evs,
           mkResponse 500 None
             (Text ("Error processing POST request: " +++ stringifyError V e)))
      end.
Proof.
  unfold accepted, handler, answer, truncated, projectIdOf.
  destruct (method req) as [m | ]; [ | discriminate].
  destruct (json req) as [given | ]; [ | discriminate].
  intros A. apply andb_prop in A. destruct A as (A & Rate).
  apply andb_prop in A. destruct A as (A & Prompt).
  apply andb_prop in A. destruct A as (Post & Proj).
  apply String.eqb_eq in Post. subst m.
  exists given. split; [reflexivity | ].
  cbn [String.eqb Ascii.eqb Bool.eqb negb bind ret fst snd].
  rewrite Proj. cbn [negb].
  destruct (prompt given) as [p | ]; [ | discriminate].
  cbn [option_map truthy]. rewrite Prompt. cbn [negb].
  unfold emit. cbn [bind]. rewrite Rate. cbn [negb].
  destruct (complete U V req given (take (MAX_PROMPT_LENGTH V) p)
              match projectIdParam req with Some i => i | None => "" end)
    as [evs [response | e]]; reflexivity.
Qed.

Lemma retrieval_accepted (U : Completions.Imports) (V : Imports)
    (req : Request) (given : Params) :
  json req = Some given ->
  retrieval U V req
  = retrieve U V (effectiveParams V req (projectIdOf req) given)
      (truncated V req) (projectIdOf req).
Proof. intros J. unfold retrieval, paramsOf. now rewrite J. Qed.

(** When the retrieval stage throws, the handler stores one row, with reason
    [no_sections] and neither response nor embedding, and answers with the
    error. *)
Lemma complete_failed (U : Completions.Imports) (V : Imports) (req : Request)
    (given : Params) (prompt pid : string) (e : Exn) :
  snd (retrieve U V (effectiveParams V req pid given) prompt pid) = Throw e ->
  exists row,
    complete U V req given prompt pid
    = (fst (retrieve U V (effectiveParams V req pid given) prompt pid)
         ++ [Insert row],
       Ok (match e with
           | ApiError code message =>
               mkResponse code (Some (mkHeaderData [] (insert_id U row)))
                 (Text message)
           | Failure text =>
               mkResponse 400 (Some (mkHeaderData [] (insert_id U row)))
                 (Text text)
           end)) /\
    q_meta_noResponseReason row = Some no_sections /\
    q_response row = None /\ q_embedding row = None.
Proof.
  intros R. unfold complete.
  destruct (retrieve U V (effectiveParams V req pid given) prompt pid)
    as [found [[fs emb] | e']]; cbn [snd fst] in *; [discriminate | ].
  injection R as ->.
  unfold sectionsFailed, _storePrompt, storePrompt.
  destruct (isTruthy (excludeFromInsights given));
    (eexists; split; [destruct e; cbn; reflexivity | ]);
    cbn; destruct (insightsTypeFor V req pid) as [[ | ] | ]; auto.
Qed.

(** C5.  When moderation flags the sanitized query of a request that reached
    the pipeline, [getMatchingSections] throws
    [ApiError(400, "Flagged content")] having called nothing but the
    moderation: no embedding, no retrieval, no token count.  The handler
    answers 400 with that message and stores a row without response or
    embedding. *)
Theorem flagged_query_stops_before_embedding (U : Completions.Imports)
    (V : Imports) (req : Request) :
  let asked := Moderation (sanitize V (truncated V req))
                 (getProjectConfigData V (projectIdOf req)) in
  accepted V req = true ->
  createModeration U (sanitize V (truncated V req))
    (getProjectConfigData V (projectIdOf req)) = Fulfilled true ->
  retrieval U V req = ([asked], Throw (ApiError 400 "Flagged content")) /\
  exists row,
    handler U V req
    = ([RateLimit (projectIdOf req); asked; Insert row],
       mkResponse 400 (Some (mkHeaderData [] (insert_id U row)))
         (Text "Flagged content")) /\
    q_response row = None /\ q_embedding row = None.
Proof.
  intros asked A Flag. subst asked.
  destruct (handler_accepted U V req A) as (given & J & Hd).
  assert (R : retrieval U V req
              = ([Moderation (sanitize V (truncated V req))
                    (getProjectConfigData V (projectIdOf req))],
                 Throw (ApiError 400 "Flagged content"))).
  { rewrite (retrieval_accepted U V req given J).
    unfold retrieve, getMatchingSections. rewrite Flag. reflexivity. }
  split; [exact R | ].
  rewrite (retrieval_accepted U V req given J) in R.
  destruct (complete_failed U V req given (truncated V req) (projectIdOf req)
              (ApiError 400 "Flagged content")) as (row & C & _ & Rs & Em).
  { now rewrite R. }
  exists row. rewrite Hd, C, R. auto.
Qed.

(** The theorem at a flagged question. *)
Lemma flagged_query_stops_before_embedding_witness :
  exists row,
    handler (EngineExamples.services true None)
      (EngineExamples.engine EngineExamples.refusal)
      (EngineExamples.post (EngineExamples.asking "What is X?" JUndefined))
    = ([RateLimit "project-1"; Moderation "What is X?" None; Insert row],
       mkResponse 400
         (Some (mkHeaderData []
                  (insert_id (EngineExamples.services true None) row)))
         (Text "Flagged content")) /\
    q_response row = None /\ q_embedding row = None.
Proof.
  apply (flagged_query_stops_before_embedding
           (EngineExamples.services true None)
           (EngineExamples.engine EngineExamples.refusal)
           (EngineExamples.post (EngineExamples.asking "What is X?" JUndefined))).
  - reflexivity.
  - reflexivity.
Defined.

(** A retrieval that the vector index answers with no sections throws. *)
Lemma no_sections_at_retrieval (U : Completions.Imports) (q v : string)
    (th c : option Q) (pid : string) (key : option string) (src : string)
    (pid' : string) (emb : Embedding) (t n : Q) (len : Z)
    (d : option (list FileSectionMatchResult)) :
  In (MatchFileSections pid' emb t n len)
     (fst (getMatchingSections U q v th c pid key src)) ->
  match_file_sections U pid' emb t n len = Fulfilled (mkMatchResponse None d) ->
  d = None \/ d = Some [] ->
  snd (getMatchingSections U q v th c pid key src)
  = Throw (ApiError 400 "No relevant sections found").
Proof.
  intros I Ans Empty. unfold getMatchingSections in *.
  rewrite fst_bind, fst_await, snd_await in I. rewrite snd_bind, snd_await.
  destruct (createModeration U q key) as [flagged | x].
  2:{ cbn in I. destruct I as [I | []]. discriminate. }
  destruct flagged.
  { cbn in I. destruct I as [I | []]. discriminate. }
  rewrite fst_bind in I. rewrite snd_bind.
  pose proof (embedQuery_events (fun e => ~ isRetrieval e) U q v pid key src)
    as NoR.
  rewrite Forall_forall in NoR.
  cbn [app In] in I. destruct I as [I | I]; [discriminate | ].
  apply in_app_or in I. destruct I as [I | I].
  { exfalso. apply (NoR ltac:(cbn; auto) ltac:(cbn; auto) ltac:(cbn; auto) _ I).
    exact Logic.I. }
  destruct (snd (embedQuery U q v pid key src)) as [r | x]; [ | contradiction].
  destruct (er_embedding r) as [emb0 | ]; [ | contradiction].
  unfold matchSections in *.
  rewrite fst_bind, fst_await, snd_await in I. rewrite snd_bind, snd_await.
  assert (Same : MatchFileSections pid' emb t n len
                 = MatchFileSections pid emb0 (numOr th (1 # 2)) (numOr c 10) 30).
  { cbn [app In] in I. destruct I as [I | I]; [now symmetry | ].
    destruct (match_file_sections U pid emb0 (numOr th (1 # 2)) (numOr c 10) 30)
      as [a | x]; [ | contradiction].
    destruct (mr_error a); [cbn in I; destruct I as [I | []]; discriminate | ].
    destruct (mr_data a) as [[ | s0 r0] | ]; cbn in I;
      try contradiction; destruct I as [I | []]; discriminate. }
  injection Same as <- <- <- <- <-. rewrite Ans. cbn [mr_error mr_data].
  destruct Empty as [-> | ->]; reflexivity.
Qed.

(** C6.  When the vector index answers the retrieval of a request with no
    sections (an empty or a null result), [getMatchingSections] throws
    [ApiError(400, "No relevant sections found")], the handler answers 400
    with that message, and the row it stores carries the reason
    [no_sections]. *)
Theorem empty_retrieval_is_recorded (U : Completions.Imports) (V : Imports)
    (req : Request) (pid : string) (emb : Embedding) (t n : Q) (len : Z)
    (d : option (list FileSectionMatchResult)) :
  accepted V req = true ->
  In (MatchFileSections pid emb t n len) (fst (retrieval U V req)) ->
  match_file_sections U pid emb t n len = Fulfilled (mkMatchResponse None d) ->
  d = None \/ d = Some [] ->
  snd (retrieval U V req) = Throw (ApiError 400 "No relevant sections found") /\
  exists row,
    handler U V req
    = (RateLimit (projectIdOf req) :: fst (retrieval U V req) ++ [Insert row],
       mkResponse 400 (Some (mkHeaderData [] (insert_id U row)))
         (Text "No relevant sections found")) /\
    q_meta_noResponseReason row = Some no_sections.
Proof.
  intros A I Ans Empty.
  destruct (handler_accepted U V req A) as (given & J & Hd).
  rewrite (retrieval_accepted U V req given J) in *.
  assert (R : snd (retrieve U V (effectiveParams V req (projectIdOf req) given)
                     (truncated V req) (projectIdOf req))
              = Throw (ApiError 400 "No relevant sections found"))
    by (eapply no_sections_at_retrieval; eassumption).
  split; [exact R | ].
  destruct (complete_failed U V req given (truncated V req) (projectIdOf req)
              _ R) as (row & C & Reason & _).
  exists row. rewrite Hd, C. auto.
Qed.

(** The theorem at the question of the scenario, with an index that finds
    nothing. *)
Lemma empty_retrieval_is_recorded_witness :
  exists row,
    handler (EngineExamples.services false (Some []))
      (EngineExamples.engine EngineExamples.refusal)
      (EngineExamples.post (EngineExamples.asking "What is X?" JUndefined))
    = (RateLimit "project-1"
         :: fst (retrieval (EngineExamples.services false (Some []))
                   (EngineExamples.engine EngineExamples.refusal)
                   (EngineExamples.post
                      (EngineExamples.asking "What is X?" JUndefined)))
         ++ [Insert row],
       mkResponse 400
         (Some (mkHeaderData []
                  (insert_id (EngineExamples.services false (Some [])) row)))
         (Text "No relevant sections found")) /\
    q_meta_noResponseReason row = Some no_sections.
Proof.
  refine (proj2 (empty_retrieval_is_recorded
           (EngineExamples.services false (Some []))
           (EngineExamples.engine EngineExamples.refusal)
           (EngineExamples.post (EngineExamples.asking "What is X?" JUndefined))
           "project-1" [1 # 2; 1 # 4] (1 # 2) 10 30 (Some []) _ _ _ _)).
  - reflexivity.
  - vm_compute. do 3 right. left. reflexivity.
  - reflexivity.
  - right. reflexivity.
Defined.

(** *** Errors of the model provider *)

Lemma streamResponse_events (U : Completions.Imports) (V : Imports)
    (P : Event -> Prop) (pid : string) (m : LLMInfo) (key : option string)
    (full idkMessage : string) (paths : list string) (promptId : option string)
    (events : list ParsedEvent) :
  (forall info n kind, P (TokenCount pid info n kind)) ->
  (forall i r n, P (Update i r n)) ->
  Forall P (fst (streamResponse U V pid m key full idkMessage paths promptId
                   events)).
Proof.
  intros Pt Pu. unfold streamResponse.
  assert (F : Forall P
                (fst (wrapUp U pid m key full idkMessage promptId
                        (streamed V m paths events)))).
  { unfold wrapUp. apply events_bind.
    - destruct (truthy key); [constructor | now apply events_await].
    - intros _ _. destruct (truthy promptId); cbn; auto. }
  destruct (wrapUp U pid m key full idkMessage promptId
              (streamed V m paths events)) as [evs [u | e]]; exact F.
Qed.


(** Without streaming a refusal of the provider is answered with status 400,
    the header of references and prompt id, and a row of reason
    [api_error]. *)
Lemma provider_error_without_streaming (U : Completions.Imports) (V : Imports)
    (params : Params) (prompt pid idkMessage : string)
    (insights : option InsightsType) (exclude redact : bool)
    (fileSections : list FileSectionMatchResult) (emb : Embedding)
    (res : ProviderResponse) :
  (forall url authorization payload,
     fetchCompletions V url authorization payload = Fulfilled res) ->
  p_ok res = false ->
  exists evs row,
    deliver U V params prompt pid idkMessage insights false exclude redact
      fileSections emb
    = (evs ++ [Insert row],
       Ok (mkResponse 400
             (Some (mkHeaderData (snd (assemble V 0 "" [] fileSections))
                      (insert_id U row)))
             (Text ("Unable to retrieve completions response: "
                    +++ p_text res)))) /\
    q_meta_noResponseReason row = Some api_error.
Proof.
  intros Fetch NotOk. unfold deliver.
  destruct (assemble V 0 "" [] fileSections) as [contextText references].
  cbn [snd]. rewrite Fetch. unfold emit, await. cbn [bind negb].
  rewrite NotOk. cbn [negb].
  unfold _storePrompt, storePrompt.
  destruct exclude; cbn; (eexists [_; _]; eexists; split; [reflexivity | ]);
    reflexivity.
Qed.

Lemma storedReasons_app (l1 l2 : list Event) :
  storedReasons (l1 ++ l2) = storedReasons l1 ++ storedReasons l2.
Proof. apply flat_map_app. Qed.

Lemma storedReasons_none (evs : list Event) :
  Forall (fun e => match e with Insert _ => False | _ => True end) evs ->
  storedReasons evs = [].
Proof.
  induction 1 as [ | e evs Pe _ IH]; [reflexivity | ].
  destruct e; try contradiction; exact IH.
Qed.

(** With streaming the handler answers with status 200 and stores a row
    without a reason whatever the provider answered, refusal or not. *)
Lemma provider_answer_with_streaming (U : Completions.Imports) (V : Imports)
    (params : Params) (prompt pid idkMessage : string)
    (insights : option InsightsType) (exclude redact : bool)
    (fileSections : list FileSectionMatchResult) (emb : Embedding)
    (res : ProviderResponse) :
  (forall url authorization payload,
     fetchCompletions V url authorization payload = Fulfilled res) ->
  exists evs response,
    deliver U V params prompt pid idkMessage insights true exclude redact
      fileSections emb = (evs, Ok response) /\
    status response = 200%Z /\
    storedReasons evs = [None].
Proof.
  intros Fetch. unfold deliver.
  destruct (assemble V 0 "" [] fileSections) as [contextText references].
  rewrite Fetch. unfold emit, await. cbn [bind negb].
  match goal with
  | |- context [streamResponse ?a ?b ?c ?d ?e ?f ?g ?h] =>
      set (streaming := streamResponse a b c d e f g h)
  end.
  assert (Quiet : forall i events,
            storedReasons (fst (streaming i events)) = []).
  { intros i events. apply storedReasons_none. subst streaming.
    apply streamResponse_events; cbn; auto. }
  unfold _storePrompt, storePrompt in *.
  destruct exclude; cbn [bind emit ret app];
    match goal with
    | |- context [streaming ?i ?ev] =>
        specialize (Quiet i ev); destruct (streaming i ev) as [evs body]
    end;
    cbn [fst] in Quiet;
    (eexists; eexists; split; [reflexivity | split; [reflexivity | ]]);
    cbn; fold (storedReasons evs); rewrite Quiet; reflexivity.
Qed.

(** C7, the code at a streaming request (the default) that the provider
    refuses: the handler does not look at [res.ok]; it stores a row without
    a reason, answers with status 200 and an empty stream, and later marks
    the row as unanswered.  The same request without streaming is answered
    with status 400 and a row of reason [api_error]. *)
Theorem streaming_ignores_provider_errors :
  let run := fun stream =>
    handler (EngineExamples.services false (Some [EngineExamples.oneSection]))
      (EngineExamples.engine EngineExamples.refusal)
      (EngineExamples.post (EngineExamples.asking "What is X?" stream)) in
  status (snd (run JUndefined)) = 200%Z /\
  body (snd (run JUndefined)) = Stream [] None /\
  storedReasons (fst (run JUndefined)) = [None] /\
  In (Update "prompt-1" None (Some true)) (fst (run JUndefined)) /\
  status (snd (run (JBool false))) = 400%Z /\
  storedReasons (fst (run (JBool false))) = [Some api_error].
Proof. vm_compute. repeat split. do 9 right. left. reflexivity. Qed.

(** *** The fragments of a streamed answer *)

(** What [onParse] does with a fragment once the header is out and the
    stream is sound: while fewer than two fragments were passed on, a
    fragment with a newline anywhere in it is dropped; any other fragment is
    passed on unchanged. *)
Lemma onParse_fragment (V : Imports) (modelInfo : LLMInfo)
    (paths : list string) (data t : string) (s : Streaming) :
  String.eqb data "[DONE]" = false ->
  didSendHeader s = true -> failure s = None ->
  chunkText V data modelInfo = Ok (Content t) ->
  onParse V modelInfo paths (SseEvent data) s
  = if (counter s <? 2) && hasNewline t
    then mkStreaming (counter s) (responseText s +++ t) true (enqueued s) None
    else mkStreaming (S (counter s)) (responseText s +++ t) true
           (enqueued s ++ [t]) None.
Proof.
  intros D Hd F C. unfold onParse. rewrite D, Hd, F, C.
  cbn [negb andb matchesNewline encode].
  destruct ((counter s <? 2) && hasNewline t); reflexivity.
Qed.

(** C8, the code at two streams.  In the first the opening fragment has a
    newline between two words: it is dropped, though it does not consist of
    newlines only.  In the second two newline fragments are followed by a
    third: it is dropped as well, though it is not among the first two
    fragments. *)
Theorem fragments_with_newlines_are_dropped :
  let V := EngineExamples.engine EngineExamples.refusal in
  let m := mkLLMInfo chat_completions "gpt-3.5-turbo" in
  let header := stringifyPaths V ["docs/a.md"] +++ STREAM_SEPARATOR V in
  enqueued (streamed V m ["docs/a.md"]
              [SseEvent ("Hello" +++ nl +++ "world"); SseEvent "!";
               SseEvent "[DONE]"])
  = [header; "!"] /\
  enqueued (streamed V m ["docs/a.md"]
              [SseEvent nl; SseEvent nl; SseEvent (nl +++ nl); SseEvent "Hi";
               SseEvent "[DONE]"])
  = [header; "Hi"].
Proof. vm_compute. split; reflexivity. Qed.

(** *** The length of the prompt *)

Lemma unset_setPrompt (f : Field) (x y : Params) :
  setPrompt None x = setPrompt None y ->
  setPrompt None (unset f x) = setPrompt None (unset f y).
Proof.
  unfold setPrompt. intros E. injection E.
  intros E1 E2 E3 E4 E5 E6 E7 E8 E9 E10 E11 E12 E13 E14 E15 E16 E17 E18 E19.
  destruct f; unfold unset;
    cbn [prompt i_dont_know_message iDontKnowMessage stream
         excludeFromInsights redact model sectionsMatchThreshold
         sectionsMatchCount promptTemplate contextTag promptTag idkTag
         doNotInjectContext doNotInjectPrompt temperature topP
         frequencyPenalty presencePenalty maxTokens];
    rewrite ?E1, ?E2, ?E3, ?E4, ?E5, ?E6, ?E7, ?E8, ?E9, ?E10, ?E11, ?E12,
      ?E13, ?E14, ?E15, ?E16, ?E17, ?E18, ?E19; reflexivity.
Qed.

Lemma withoutModelConfig_setPrompt (V : Imports) (x y : Params) :
  setPrompt None x = setPrompt None y ->
  setPrompt None (withoutModelConfig V x)
  = setPrompt None (withoutModelConfig V y).
Proof.
  unfold withoutModelConfig. revert x y.
  induction (modelConfigFields V) as [ | f fs IH]; intros x y E; cbn; auto.
  apply IH, unset_setPrompt, E.
Qed.

Lemma effectiveParams_setPrompt (V : Imports) (req1 req2 : Request)
    (pid : string) (a b : option string) (ps : Params) :
  origin req1 = origin req2 ->
  setPrompt None (effectiveParams V req1 pid (setPrompt a ps))
  = setPrompt None (effectiveParams V req2 pid (setPrompt b ps)).
Proof.
  intros O. unfold effectiveParams. rewrite O.
  destruct (isRequestFromMarkprompt V (origin req2)); [reflexivity | ].
  destruct (getTeamTierInfo V pid) as [tier | ];
    [destruct (canUseCustomModelConfig V tier); [reflexivity | ] | ];
    now apply withoutModelConfig_setPrompt.
Qed.

(** The handler never reads [params.prompt] again. *)
Lemma complete_ignores_prompt (U : Completions.Imports) (V : Imports)
    (req1 req2 : Request) (a b : option string) (ps : Params)
    (t pid : string) :
  origin req1 = origin req2 ->
  complete U V req1 (setPrompt a ps) t pid
  = complete U V req2 (setPrompt b ps) t pid.
Proof.
  intros O.
  pose proof (effectiveParams_setPrompt V req1 req2 pid a b ps O) as E.
  unfold complete, insightsTypeFor. rewrite O.
  set (E1 := effectiveParams V req1 pid (setPrompt a ps)) in *.
  set (E2 := effectiveParams V req2 pid (setPrompt b ps)) in *.
  change (retrieve U V E1 t pid) with (retrieve U V (setPrompt None E1) t pid).
  change (deliver U V E1) with (deliver U V (setPrompt None E1)).
  rewrite E. reflexivity.
Qed.

Lemma handler_events (U : Completions.Imports) (V : Imports) (req : Request)
    (P : Event -> Prop) :
  Forall P (fst (answer U V req)) -> Forall P (fst (handler U V req)).
Proof.
  unfold handler. destruct (method req) as [m | ]; [ | constructor].
  destruct (String.eqb m "OPTIONS"); [constructor | ].
  destruct (negb (String.eqb m "POST")); [constructor | ].
  destruct (answer U V req) as [evs [r | e]]; auto.
Qed.

(** The first [n] characters of a string are its prefix of length [n], or
    the whole string when it is shorter. *)
Lemma take_prefix (n : nat) (t rest : string) :
  String.length t = Nat.min (String.length (t +++ rest)) n ->
  take n (t +++ rest) = t.
Proof.
  revert n. induction t as [ | c t IH]; intros n L; cbn in *.
  - destruct n, rest; cbn in *; try reflexivity; discriminate.
  - destruct n as [ | n]; cbn in *; [discriminate | ].
    f_equal. apply IH. lia.
Qed.

Lemma retrieve_starts (U : Completions.Imports) (V : Imports) (params : Params)
    (t pid : string) :
  exists evs,
    fst (retrieve U V params t pid)
    = Moderation (sanitize V t) (getProjectConfigData V pid) :: evs.
Proof.
  unfold retrieve, getMatchingSections. rewrite fst_bind, fst_await.
  cbn [app]. eexists. reflexivity.
Qed.

Lemma complete_starts (U : Completions.Imports) (V : Imports) (req : Request)
    (given : Params) (t pid : string) :
  exists evs,
    fst (complete U V req given t pid)
    = Moderation (sanitize V t) (getProjectConfigData V pid) :: evs.
Proof.
  unfold complete.
  destruct (retrieve_starts U V (effectiveParams V req pid given) t pid)
    as (evs & E).
  destruct (retrieve U V (effectiveParams V req pid given) t pid)
    as [found [[fileSections emb] | e]]; cbn [fst] in E; subst found;
    rewrite fst_bind; cbn [fst app]; eexists; reflexivity.
Qed.

Section Truncated.
Variables (U : Completions.Imports) (V : Imports) (req : Request).
Variables (given : Params) (t : string).
Hypothesis Body : json req = Some given.

Lemma _storePrompt_events (response : option string) (emb : option Embedding)
    (reason : option PromptNoResponseReason)
    (refs : list FileSectionReference) (insights : option InsightsType)
    (exclude redact : bool) :
  Forall (showsOnly U V req t)
    (fst (_storePrompt U (projectIdOf req) t response emb reason refs insights
            exclude redact)).
Proof.
  unfold _storePrompt. destruct exclude; apply storePrompt_events;
    intros row Q _; cbn [showsOnly]; rewrite Q; cbn;
    destruct (String.eqb t ""); auto.
Qed.

Lemma deliver_events (insights : option InsightsType)
    (stream exclude redact : bool)
    (fileSections : list FileSectionMatchResult) (emb : Embedding) :
  snd (retrieve U V (effectiveParams V req (projectIdOf req) given) t
         (projectIdOf req)) = Ok (fileSections, emb) ->
  Forall (showsOnly U V req t)
    (fst (deliver U V (effectiveParams V req (projectIdOf req) given) t
            (projectIdOf req) (iDontKnowMessageOf V given) insights stream
            exclude redact fileSections emb)).
Proof.
  intros Found. unfold deliver. apply events_bind; [shown | ]. intros _ _.
  destruct (assemble V 0 "" [] fileSections) as [contextText references] eqn:A.
  apply events_bind.
  - apply events_await. cbn [showsOnly].
    exists given, fileSections, emb. rewrite A. cbn [fst getPayload pl_prompt].
    split; [exact Body | split; [exact Found | ]].
    destruct (model_type (stringToLLMInfo U
                (model (effectiveParams V req (projectIdOf req) given)))); auto.
  - intros res _. destruct stream; cbn [negb].
    + apply events_bind; [apply _storePrompt_events | ]. intros promptId _.
      match goal with
      | |- context [streamResponse ?a ?b ?c ?d ?e ?f ?g ?h ?i ?j] =>
          pose proof (streamResponse_events a b (showsOnly U V req t)
                        c d e f g h i j) as F;
          destruct (streamResponse a b c d e f g h i j) as [evs readable]
      end.
      cbn [fst] in *. apply F; cbn; auto.
    + destruct (p_ok res); cbn [negb].
      * destruct (p_json res) as [[tokenCount text] | ]; [ | constructor].
        apply events_bind; [apply events_await; cbn; auto | ]. intros _ _.
        apply events_bind; [apply _storePrompt_events | ]. intros; constructor.
      * apply events_bind; [apply _storePrompt_events | ]. intros; constructor.
Qed.

Lemma complete_events :
  Forall (showsOnly U V req t)
    (fst (complete U V req given t (projectIdOf req))).
Proof.
  unfold complete.
  pose proof (getMatchingSections_events (showsOnly U V req t) U
                (sanitize V t) t
                (sectionsMatchThreshold
                   (effectiveParams V req (projectIdOf req) given))
                (sectionsMatchCount
                   (effectiveParams V req (projectIdOf req) given))
                (projectIdOf req) (getProjectConfigData V (projectIdOf req))
                "completions") as G.
  fold (retrieve U V (effectiveParams V req (projectIdOf req) given) t
          (projectIdOf req)) in G.
  pose proof (deliver_events (insightsTypeFor V req (projectIdOf req))
                (negb (isFalsy (stream given)))
                (isTruthy (excludeFromInsights given))
                (isTruthy (redact given))) as D.
  destruct (retrieve U V (effectiveParams V req (projectIdOf req) given) t
              (projectIdOf req))
    as [found [[fileSections emb] | e]]; cbn [fst snd] in G, D.
  - apply events_bind; [apply G; cbn; auto | ]. intros _ _.
    apply D. reflexivity.
  - apply events_bind; [apply G; cbn; auto | ]. intros _ _.
    unfold sectionsFailed.
    apply events_bind; [apply _storePrompt_events | ].
    intros promptId _. destruct e; constructor.
Qed.

End Truncated.

(** C10.  Whatever prompt a request supplies, the handler works on its
    first [MAX_PROMPT_LENGTH] characters, [t] below, and on nothing else of
    it: the whole run, every call and the response, is the run for the
    request that supplies [t] itself; moderation and embedding get the
    sanitized [t], the model gets the full prompt built around it, and
    every row stored holds [t] or no prompt.  A request that supplies a
    long prompt is not turned away for it: when it is a POST for a project,
    under the rate limit, it goes through moderation with [t]. *)
Theorem prompt_is_truncated_first (U : Completions.Imports) (V : Imports)
    (req : Request) (p t rest : string) :
  p = t +++ rest ->
  String.length t = Nat.min (String.length p) (MAX_PROMPT_LENGTH V) ->
  let received := withPrompt p req in
  handler U V received = handler U V (withPrompt t req) /\
  Forall (showsOnly U V received t) (fst (handler U V received)) /\
  (method req = Some "POST" -> json req <> None ->
   truthy (projectIdParam req) = true -> t <> "" ->
   checkCompletionsRateLimits V (projectIdOf req) = true ->
   exists evs,
     fst (handler U V received)
     = RateLimit (projectIdOf req)
         :: Moderation (sanitize V t)
              (getProjectConfigData V (projectIdOf req)) :: evs).
Proof.
  intros Split Len received. subst received.
  assert (T : take (MAX_PROMPT_LENGTH V) p = t).
  { rewrite Split in *. now apply take_prefix. }
  clear Split Len. split; [ | split].
  - unfold handler, answer, withPrompt. cbn [method json pathname].
    destruct (method req) as [m | ]; [ | reflexivity].
    destruct (String.eqb m "OPTIONS"); [reflexivity | ].
    destruct (negb (String.eqb m "POST")); [reflexivity | ].
    destruct (json req) as [ps | ]; [ | reflexivity].
    cbn [option_map bind ret prompt setPrompt app].
    change (projectIdParam (mkRequest (Some m) _ (pathname req) (project req)
                              (origin req)))
      with (projectIdParam req).
    rewrite <- T. rewrite take_idempotent.
    destruct (negb (truthy (projectIdParam req))); [reflexivity | ].
    destruct (negb (truthy (Some (take (MAX_PROMPT_LENGTH V) p))));
      [reflexivity | ].
    unfold emit. cbn [bind].
    destruct (negb (checkCompletionsRateLimits V _)); [reflexivity | ].
    fold (setPrompt (Some p) ps).
    fold (setPrompt (Some (take (MAX_PROMPT_LENGTH V) p)) ps).
    erewrite complete_ignores_prompt; reflexivity.
  - apply handler_events. unfold answer.
    assert (J' : json (withPrompt p req)
                 = option_map (setPrompt (Some p)) (json req)) by reflexivity.
    rewrite J'.
    destruct (json req) as [ps | ] eqn:J; cbn [option_map]; [ | constructor].
    apply events_bind; [constructor | ]. intros given G.
    injection G as <-. cbn [prompt setPrompt option_map]. rewrite T.
    destruct (negb (truthy (projectIdParam _))); [shown | ].
    destruct (negb (truthy (Some t))); [shown | ].
    apply events_bind; [shown | ]. intros _ _.
    destruct (negb (checkCompletionsRateLimits V _)); [shown | ].
    fold (setPrompt (Some p) ps).
    change (match projectIdParam (withPrompt p req) with
            | Some i => i
            | None => ""
            end) with (projectIdOf (withPrompt p req)).
    apply complete_events. exact J'.
  - intros Post Body Proj Some_t Rate.
    assert (A : accepted V (withPrompt p req) = true).
    { unfold accepted, truncated, withPrompt. cbn [method json]. rewrite Post.
      destruct (json req) as [ps | ]; [ | contradiction].
      cbn [option_map prompt setPrompt String.eqb Ascii.eqb Bool.eqb andb].
      change (projectIdParam (mkRequest (Some "POST") _ (pathname req)
                                (project req) (origin req)))
        with (projectIdParam req).
      change (projectIdOf (mkRequest (Some "POST") _ (pathname req)
                             (project req) (origin req)))
        with (projectIdOf req).
      rewrite Proj, T, Rate.
      destruct (String.eqb t "") eqn:E; [ | reflexivity].
      apply String.eqb_eq in E. contradiction. }
    destruct (handler_accepted U V (withPrompt p req) A) as (given & J & Hd).
    rewrite Hd.
    change (projectIdOf (withPrompt p req)) with (projectIdOf req).
    destruct (complete_starts U V (withPrompt p req) given
                (truncated V (withPrompt p req)) (projectIdOf req))
      as (evs & E).
    assert (Tr : truncated V (withPrompt p req) = t).
    { unfold truncated. rewrite J.
      unfold withPrompt in J. cbn [json] in J.
      destruct (json req) as [ps | ]; [ | discriminate].
      injection J as <-. exact T. }
    rewrite Tr in *. exists evs.
    destruct (complete U V (withPrompt p req) given t (projectIdOf req))
      as [evs0 [response | e]]; cbn [fst] in *; now rewrite E.
Qed.

(** The theorem at a request whose prompt has 33 characters, for a handler
    that keeps 20. *)
Lemma prompt_is_truncated_first_witness :
  let U := EngineExamples.services false (Some [EngineExamples.oneSection]) in
  let V := EngineExamples.engine
             (EngineExamples.fragments "Hello" " world" "!") in
  let received :=
    EngineExamples.post
      (EngineExamples.asking "What is the answer to everything?" JUndefined) in
  handler U V received
  = handler U V
      (EngineExamples.post
         (EngineExamples.asking "What is the answer t" JUndefined)) /\
  Forall (showsOnly U V received "What is the answer t")
    (fst (handler U V received)) /\
  exists evs,
    fst (handler U V received)
    = RateLimit "project-1" :: Moderation "What is the answer t" None :: evs.
Proof.
  intros U V received.
  pose proof (prompt_is_truncated_first U V
                (EngineExamples.post (EngineExamples.asking "" JUndefined))
                "What is the answer to everything?" "What is the answer t"
                "o everything?" eq_refl eq_refl) as (Same & Shows & Starts).
  split; [exact Same | split; [exact Shows | ]].
  apply Starts; try reflexivity; discriminate.
Defined.

End EngineFacts.

Module PoolFacts.
Import Js Training Pool.

Lemma starts_app (l1 l2 : list Event) :
  starts (l1 ++ l2) = starts l1 ++ starts l2.
Proof. apply flat_map_app. Qed.

Lemma processed_app (l1 l2 : list Event) :
  processed (l1 ++ l2) = processed l1 ++ processed l2.
Proof. apply flat_map_app. Qed.

Lemma length_removeNth {A : Type} (k : nat) (l : list A) (t : A) :
  nth_error l k = Some t -> S (List.length (removeNth k l)) = List.length l.
Proof.
  revert k. induction l as [ | x l IH]; intros [ | k]; cbn; try discriminate.
  - reflexivity.
  - intros N. now rewrite (IH k N).
Qed.

Lemma length_keep (ts : list Task) (o : option Task) :
  List.length (keep ts o) <= S (List.length ts).
Proof. destruct o; cbn; rewrite ?length_app; cbn; lia. Qed.

Section Invariants.
Variables (U : Imports) (H : Hooks) (a : Args) (checksums : list ChecksumRow).
Variable Inv : Run -> Prop.
Hypothesis Inv_step : forall c r, Inv r -> Inv (step U H a checksums c r).

Lemma steps_invariant (cs : list Choice) (r : Run) :
  Inv r -> Inv (steps U H a checksums cs r).
Proof.
  revert r. induction cs as [ | c cs IH]; intros r I; cbn [steps fold_left];
    auto.
  apply IH, Inv_step, I.
Qed.

Lemma drain_invariant (fuel : nat) (r : Run) :
  Inv r -> Inv (drain U H a checksums fuel r).
Proof.
  revert r. induction fuel as [ | fuel IH]; intros r I; cbn [drain]; auto.
  destruct (nextChoice r); auto.
Qed.

Lemma promiseAll_invariant (sched : list Choice) (w : World) :
  Inv (initial a w) -> Inv (promiseAll U H a checksums sched w).
Proof. intros I. unfold promiseAll. apply drain_invariant, steps_invariant, I. Qed.

End Invariants.

(** *** At most five calls in flight *)

Lemma step_in_flight (U : Imports) (H : Hooks) (a : Args)
    (checksums : list ChecksumRow) (c : Choice) (r : Run) :
  List.length (active r) <= concurrency ->
  List.length (active (step U H a checksums c r)) <= concurrency.
Proof.
  intros L. destruct c as [ | k | ]; cbn [step]; [ | | exact L].
  - destruct (queue r) as [ | index q]; [exact L | ].
    destruct (List.length (active r) <? concurrency) eqn:B; [ | exact L].
    apply Nat.ltb_lt in B.
    destruct (guarded U a index (startFile U H a checksums index (world r)))
      as [w o].
    cbn [active]. pose proof (length_keep (active r) o). lia.
  - destruct (nth_error (active r) k) as [t | ] eqn:N; [ | exact L].
    destruct (guarded U a (taskIndex t) (resumeFile U a t (world r)))
      as [w o].
    cbn [active]. pose proof (length_keep (removeNth k (active r)) o).
    pose proof (length_removeNth _ _ _ N). lia.
Qed.

(** X1.  The pool never has more than five calls of
    [generateEmbeddingForFile] in flight: not after any turns of the event
    loop, and not while the run is then brought to its end. *)
Theorem at_most_five_files_in_flight (U : Imports) (H : Hooks) (a : Args)
    (checksums : list ChecksumRow) (cs : list Choice) (fuel : nat)
    (w : World) :
  List.length
    (active (drain U H a checksums fuel
               (steps U H a checksums cs (initial a w)))) <= 5.
Proof.
  apply (drain_invariant U H a checksums
           (fun r => List.length (active r) <= concurrency));
    [apply step_in_flight | ].
  apply (steps_invariant U H a checksums
           (fun r => List.length (active r) <= concurrency));
    [apply step_in_flight | ].
  cbn. unfold concurrency. lia.
Qed.

(** *** What one turn of the event loop adds *)

Lemma waiting_app (l1 l2 : list Task) :
  waiting (l1 ++ l2) = waiting l1 + waiting l2.
Proof. unfold waiting. now rewrite filter_app, length_app. Qed.

Lemma waiting_keep (ts : list Task) (o : option Task) :
  waiting (keep ts o) = waiting ts + waiting (keep [] o).
Proof.
  destruct o as [t | ]; cbn [keep]; [apply waiting_app | ].
  cbn. lia.
Qed.

Lemma waiting_removeNth (k : nat) (l : list Task) (t : Task) :
  nth_error l k = Some t ->
  waiting l = waiting [t] + waiting (removeNth k l).
Proof.
  revert k. induction l as [ | x l IH]; intros [ | k]; cbn [nth_error removeNth];
    try discriminate.
  - intros [= ->]. change (t :: l) with ([t] ++ l). apply waiting_app.
  - intros N. change (x :: l) with ([x] ++ l).
    change (x :: removeNth k l) with ([x] ++ removeNth k l).
    rewrite !waiting_app, (IH k N). lia.
Qed.

Lemma waiting_le (l : list Task) : waiting l <= List.length l.
Proof. apply filter_length_le. Qed.

Section Turns.
Variables (U : Imports) (H : Hooks) (a : Args) (checksums : list ChecksumRow).

(** Starting a call: nothing is handed to [processFile], and either the
    call ends at once without asking for data, or, the stop flag being
    down, it asks for the data of its index and waits. *)
Lemma start_adds (index : nat) (w : World) :
  exists evs,
    log (fst (guarded U a index (startFile U H a checksums index w)))
    = log w ++ evs /\
    processed evs = [] /\
    errors (fst (guarded U a index (startFile U H a checksums index w)))
    = errors w /\
    stopFlag (fst (guarded U a index (startFile U H a checksums index w)))
    = stopFlag w /\
    ((starts evs = [] /\
      snd (guarded U a index (startFile U H a checksums index w)) = None) \/
     (stopFlag w = false /\ starts evs = [index] /\
      fetched evs = [getFilePath a index] /\
      exists p prev,
        snd (guarded U a index (startFile U H a checksums index w))
        = Some (AwaitFileData index p prev))).
Proof.
  unfold startFile. destruct (stopFlag w) eqn:S; cbn [guarded fst snd].
  { exists []. rewrite app_nil_r. auto 10. }
  destruct (included U H a (getFilePath a index)); cbn [negb guarded fst snd].
  - eexists. split; [logs | ]. cbn. rewrite S. repeat split. right. eauto 10.
  - eexists. split; [logs | ]. cbn. rewrite S. auto 10.
Qed.

(** Resuming a call: no data is asked for; a call that waited for its data
    hands at most one file to [processFile], any other none; and what the
    call leaves in [errors], or will leave there, is the failure of the file
    it handed or had handed to [processFile]. *)
Lemma resume_adds (t : Task) (w : World) :
  exists evs,
    log (fst (guarded U a (taskIndex t) (resumeFile U a t w)))
    = log w ++ evs /\
    starts evs = [] /\
    stopFlag (fst (guarded U a (taskIndex t) (resumeFile U a t w)))
    = stopFlag w /\
    List.length (processed evs)
    + waiting (keep [] (snd (guarded U a (taskIndex t) (resumeFile U a t w))))
    <= waiting [t] /\
    errors (fst (guarded U a (taskIndex t) (resumeFile U a t w)))
    ++ flat_map (pending U a)
         (keep [] (snd (guarded U a (taskIndex t) (resumeFile U a t w))))
    = errors w ++ pending U a t ++ flat_map (failureOf U a) (processed evs).
Proof.
  destruct t as [i p prev | i f nm]; cbn [resumeFile taskIndex pending].
  - unfold afterFileData.
    destruct (getFileData a i) as [[fd | ] | e]; cbn [guarded fst snd].
    + destruct (sameChecksum prev _ && negb (forceRetrain a));
        cbn [guarded fst snd]; (eexists; split; [logs | ]); cbn;
        rewrite ?app_nil_r; auto.
    + eexists; split; [logs | ]. cbn. rewrite ?app_nil_r. auto.
    + eexists; split; [logs | ]. cbn. rewrite ?app_nil_r. auto.
  - unfold afterProcessFile, callOnFileProcessed, failureOf.
    destruct (processFile U (sourceId a) f) as [u | e]; cbn [guarded fst snd].
    + destruct (onFileProcessed a); cbn [guarded fst snd].
      * eexists; split; [logs | ]. cbn. rewrite ?app_nil_r. auto.
      * exists []. cbn. rewrite ?app_nil_r. auto.
    + destruct (isQuotaExceeded U e); destruct (onFileProcessed a);
        cbn [guarded fst snd]; (eexists; split; [logs | ]); cbn;
        rewrite ?app_nil_r; auto.
Qed.

(** *** The calls go out in order, each at most once *)

Lemma sorted_snoc (l : list nat) (k : nat) :
  StronglySorted lt l -> Forall (fun i => i < k) l ->
  StronglySorted lt (l ++ [k]).
Proof.
  induction 1 as [ | x l S IH Fx]; cbn; intros F.
  - repeat constructor.
  - inversion F; subst. constructor; [auto | ].
    apply Forall_app. split; [assumption | repeat constructor; assumption].
Qed.

Lemma queue_head (n k index : nat) (q : list nat) :
  seq k (n - k) = index :: q ->
  k < n /\ index = k /\ q = seq (S k) (n - S k).
Proof.
  destruct (n - k) as [ | m] eqn:M; [discriminate | ].
  cbn. intros [= <- <-]. repeat split; [lia | f_equal; lia].
Qed.

Lemma fetched_without_starts (evs : list Event) :
  starts evs = [] -> fetched evs = [].
Proof.
  induction evs as [ | e evs IH]; [reflexivity | ].
  destruct e; cbn; auto; discriminate.
Qed.

Lemma step_inOrder (w0 : World) (c : Choice) (r : Run) :
  inOrder a w0 r -> inOrder a w0 (step U H a checksums c r).
Proof.
  intros (k & evs & L & Hk & Q & So & Fk & Fe & Cn).
  destruct c as [ | j | ]; cbn [step].
  - destruct (queue r) as [ | index q] eqn:Eq.
    { exists k, evs. rewrite Eq. auto 10. }
    destruct (_ <? _).
    2:{ exists k, evs. rewrite Eq. auto 10. }
    symmetry in Q. apply queue_head in Q. destruct Q as (Hk' & -> & ->).
    destruct (start_adds k (world r)) as (evs' & L' & P' & _ & _ & Cases).
    destruct (guarded U a k (startFile U H a checksums k (world r)))
      as [w' o].
    cbn [fst snd world queue active] in *.
    exists (S k), (evs ++ evs'). cbn [world queue active].
    rewrite L', L, app_assoc, starts_app, processed_app, P', app_nil_r,
      waiting_keep, TrainingFacts.fetched_app, Fe.
    split; [reflexivity | split; [lia | split; [reflexivity | ]]].
    assert (Fk' : Forall (fun i => i < S k) (starts evs)).
    { eapply Forall_impl; [ | exact Fk]. cbn. intros; lia. }
    destruct Cases as [(St & ->) | (_ & St & Fe' & p & prev & ->)]; rewrite St.
    + rewrite (fetched_without_starts _ St), !app_nil_r. cbn.
      repeat split; auto. lia.
    + rewrite Fe', length_app, map_app. cbn. repeat split.
      * now apply sorted_snoc.
      * apply Forall_app. split; [exact Fk' | repeat constructor].
      * lia.
  - destruct (nth_error (active r) j) as [t | ] eqn:N.
    2:{ exists k, evs. auto 10. }
    destruct (resume_adds t (world r)) as (evs' & L' & St & _ & Cn' & _).
    destruct (guarded U a (taskIndex t) (resumeFile U a t (world r)))
      as [w' o].
    cbn [fst snd world queue active] in *.
    exists k, (evs ++ evs'). cbn [world queue active].
    rewrite L', L, app_assoc, starts_app, processed_app, St, app_nil_r,
      length_app, waiting_keep, TrainingFacts.fetched_app,
      (fetched_without_starts _ St), app_nil_r.
    pose proof (waiting_removeNth _ _ _ N). repeat split; auto. lia.
  - exists k, evs. cbn. auto 10.
Qed.

(** *** After a request to stop *)

Lemma step_winding (n : nat) (w0 : World) (c : Choice) (r : Run) :
  winding n w0 r -> winding n w0 (step U H a checksums c r).
Proof.
  intros (SF & evs & L & St & Cn).
  destruct c as [ | j | ]; cbn [step].
  - destruct (queue r) as [ | index q] eqn:Eq; [split; eauto | ].
    destruct (_ <? _); [ | split; eauto].
    destruct (start_adds index (world r)) as (evs' & L' & P' & _ & S' & Cases).
    destruct (guarded U a index (startFile U H a checksums index (world r)))
      as [w' o].
    cbn [fst snd world queue active] in *.
    destruct Cases as [(St' & ->) | (F & _)]; [ | congruence].
    split; [cbn [world]; congruence | ]. exists (evs ++ evs').
    cbn [world queue active]. rewrite L', L, app_assoc, starts_app, processed_app, P', St, St',
      !app_nil_r. cbn [keep]. auto.
  - destruct (nth_error (active r) j) as [t | ] eqn:N; [ | split; eauto].
    destruct (resume_adds t (world r)) as (evs' & L' & St' & S' & Cn' & _).
    destruct (guarded U a (taskIndex t) (resumeFile U a t (world r)))
      as [w' o].
    cbn [fst snd world queue active] in *.
    split; [cbn [world]; congruence | ]. exists (evs ++ evs').
    cbn [world queue active]. rewrite L', L, app_assoc, starts_app, processed_app, St, St',
      length_app, waiting_keep.
    pose proof (waiting_removeNth _ _ _ N). repeat split; auto. lia.
  - split; [reflexivity | ]. exists evs. cbn. auto.
Qed.

(** *** The error list *)

Lemma pending_keep (ts : list Task) (o : option Task) :
  flat_map (pending U a) (keep ts o)
  = flat_map (pending U a) ts ++ flat_map (pending U a) (keep [] o).
Proof.
  destruct o as [t | ]; cbn [keep]; [apply flat_map_app | ].
  cbn. now rewrite app_nil_r.
Qed.

Lemma pending_removeNth (k : nat) (l : list Task) (t : Task) :
  nth_error l k = Some t ->
  Permutation (flat_map (pending U a) l)
              (pending U a t ++ flat_map (pending U a) (removeNth k l)).
Proof.
  revert k. induction l as [ | x l IH]; intros [ | k];
    cbn [nth_error removeNth flat_map]; try discriminate.
  - intros [= ->]. reflexivity.
  - intros N. rewrite (IH k N), !app_assoc.
    apply Permutation_app_tail, Permutation_app_comm.
Qed.

Lemma step_accounted (w0 : World) (c : Choice) (r : Run) :
  accounted U a w0 r -> accounted U a w0 (step U H a checksums c r).
Proof.
  intros (evs & L & P).
  destruct c as [ | j | ]; cbn [step].
  - destruct (queue r) as [ | index q] eqn:Eq; [exists evs; auto | ].
    destruct (_ <? _); [ | exists evs; auto].
    destruct (start_adds index (world r)) as (evs' & L' & P' & E' & _ & Cases).
    destruct (guarded U a index (startFile U H a checksums index (world r)))
      as [w' o].
    cbn [fst snd world queue active] in *.
    exists (evs ++ evs'). cbn [world queue active].
    rewrite L', L, app_assoc, processed_app, P', app_nil_r, E', pending_keep.
    split; [reflexivity | ].
    destruct Cases as [(_ & ->) | (_ & _ & _ & p & prev & ->)]; cbn;
      rewrite app_nil_r; exact P.
  - destruct (nth_error (active r) j) as [t | ] eqn:N; [ | exists evs; auto].
    destruct (resume_adds t (world r)) as (evs' & L' & _ & _ & _ & E').
    destruct (guarded U a (taskIndex t) (resumeFile U a t (world r)))
      as [w' o].
    cbn [fst snd world queue active] in *.
    exists (evs ++ evs'). cbn [world queue active].
    rewrite L', L, app_assoc, processed_app, flat_map_app, pending_keep.
    split; [reflexivity | ].
    rewrite <- P, (pending_removeNth _ _ _ N).
    rewrite (Permutation_app_comm (flat_map (pending U a) (removeNth j (active r)))),
      app_assoc, E', <- !app_assoc.
    apply Permutation_app_head, Permutation_app_head, Permutation_app_comm.
  - exists evs. cbn. auto.
Qed.

End Turns.

Lemma since_same (w w' : World) : log w' = log w -> since w w' = [].
Proof. intros E. unfold since. rewrite E. apply skipn_all. Qed.

Lemma generateEmbeddings_inOrder (U : Imports) (H : Hooks) (a : Args)
    (query : Await (option (list ChecksumRow))) (sched : list Choice)
    (w : World) :
  exists evs,
    log (fst (generateEmbeddings U H a query sched w)) = log w ++ evs /\
    StronglySorted lt (starts evs) /\
    Forall (fun i => i < numFiles a) (starts evs) /\
    fetched evs = map (getFilePath a) (starts evs) /\
    List.length (processed evs) <= List.length (starts evs).
Proof.
  unfold generateEmbeddings.
  destruct (project_id H) as [pid | ].
  2:{ exists []. cbn. rewrite app_nil_r. repeat constructor. }
  destruct query as [cs | e].
  2:{ exists []. cbn. rewrite app_nil_r. repeat constructor. }
  cbn [fst].
  set (w1 := setStopFlag false (setErrors (fun _ => []) w)).
  destruct (promiseAll_invariant U H a (listOr cs) (inOrder a w1)
              (step_inOrder U H a (listOr cs) w1) sched w1)
    as (k & evs & L & Hk & _ & So & Fk & Fe & Cn).
  { exists 0, []. cbn. rewrite app_nil_r, Nat.sub_0_r.
    repeat split; try constructor; lia. }
  exists evs. repeat split; [exact L | exact So | | exact Fe | lia].
  eapply Forall_impl; [ | exact Fk]. cbn. intros; lia.
Qed.

(** X2.  In a run of [generateEmbeddings] the calls of [getFileData] go out
    in strictly increasing order of index, so at most once for an index,
    all below [numFiles] and each for the path of its index; and
    [processFile] is called at most once for a file whose data was asked
    for. *)
Theorem files_are_fetched_once_in_order (U : Imports) (H : Hooks) (a : Args)
    (query : Await (option (list ChecksumRow))) (sched : list Choice)
    (w : World) :
  let evs := since w (fst (generateEmbeddings U H a query sched w)) in
  StronglySorted lt (starts evs) /\
  Forall (fun i => i < numFiles a) (starts evs) /\
  fetched evs = map (getFilePath a) (starts evs) /\
  List.length (processed evs) <= List.length (starts evs).
Proof.
  destruct (generateEmbeddings_inOrder U H a query sched w)
    as (evs & L & So & Fk & Fe & Cn).
  cbv zeta. rewrite (TrainingFacts.since_app w _ evs) by exact L. auto.
Qed.

(** X3.  Once [stopGeneratingEmbeddings] has run, whatever the event loop
    does next and until the run has ended, no further call of [getFileData]
    goes out, and [processFile] is called for at most as many files as
    there were calls in flight. *)
Theorem stop_request_starts_no_new_file (U : Imports) (H : Hooks) (a : Args)
    (checksums : list ChecksumRow) (r : Run) (cs : list Choice)
    (fuel : nat) :
  let r' := drain U H a checksums fuel
              (steps U H a checksums (Stop :: cs) r) in
  stopFlag (world r') = true /\
  starts (since (world r) (world r')) = [] /\
  List.length (processed (since (world r) (world r')))
  <= List.length (active r).
Proof.
  cbn [steps fold_left step].
  fold (steps U H a checksums cs
          (mkRun (stopGeneratingEmbeddings (world r)) (queue r) (active r))).
  destruct (drain_invariant U H a checksums
              (winding (waiting (active r)) (world r))
              (step_winding U H a checksums (waiting (active r)) (world r))
              fuel
              (steps U H a checksums cs
                 (mkRun (stopGeneratingEmbeddings (world r)) (queue r)
                    (active r))))
    as (SF & evs & L & St & Cn).
  { apply (steps_invariant U H a checksums
             (winding (waiting (active r)) (world r))
             (step_winding U H a checksums (waiting (active r)) (world r))).
    split; [reflexivity | ]. exists []. cbn. rewrite app_nil_r. auto. }
  rewrite (TrainingFacts.since_app _ _ evs) by exact L.
  pose proof (waiting_le (active r)). repeat split; auto. lia.
Qed.

(** X4.  When a run of [generateEmbeddings] has ended, [errors] holds, in
    some order, one message for every file handed to [processFile] whose call
    failed with another error than the quota error, and nothing else:
    nothing of an earlier run, nothing of a quota error. *)
Theorem errors_are_the_failures_of_the_run (U : Imports) (H : Hooks)
    (a : Args) (cs : option (list ChecksumRow)) (sched : list Choice)
    (w : World) (pid : string) :
  project_id H = Some pid ->
  let w' := fst (generateEmbeddings U H a (Fulfilled cs) sched w) in
  Permutation (errors w')
    (flat_map (failureOf U a) (processed (since w w'))).
Proof.
  intros P. rewrite (TrainingFacts.generateEmbeddings_run _ _ _ _ _ _ _ P).
  cbn [fst].
  set (w1 := setStopFlag false (setErrors (fun _ => []) w)).
  destruct (promiseAll_invariant U H a (listOr cs) (accounted U a w1)
              (step_accounted U H a (listOr cs) w1) sched w1)
    as (evs & L & Pm).
  { exists []. cbn. rewrite app_nil_r. auto. }
  destruct (TrainingFacts.promiseAll_complete U H a (listOr cs) sched w1)
    as (_ & Ae).
  rewrite Ae in Pm. cbn [flat_map] in Pm. rewrite app_nil_r in Pm.
  rewrite (TrainingFacts.since_app w _ evs) by exact L.
  exact Pm.
Qed.

(** The theorem at seven files of which the one that fails is settled
    first: [errors] holds its message and nothing else. *)
Lemma errors_are_the_failures_of_the_run_witness :
  Permutation
    (errors (fst (generateEmbeddings MoreExamples.failingOnThird
                    TrainingExamples.hooks TrainingExamples.sevenFiles
                    (Fulfilled (Some [])) TrainingExamples.thirdFirst
                    TrainingExamples.fresh)))
    (flat_map (failureOf MoreExamples.failingOnThird TrainingExamples.sevenFiles)
       (processed
          (since TrainingExamples.fresh
             (fst (generateEmbeddings MoreExamples.failingOnThird
                     TrainingExamples.hooks TrainingExamples.sevenFiles
                     (Fulfilled (Some [])) TrainingExamples.thirdFirst
                     TrainingExamples.fresh))))).
Proof.
  apply (errors_are_the_failures_of_the_run MoreExamples.failingOnThird
           TrainingExamples.hooks TrainingExamples.sevenFiles (Some [])
           TrainingExamples.thirdFirst TrainingExamples.fresh "project-1").
  reflexivity.
Defined.


End PoolFacts.

(** ** The crawler on a site whose links are written in one form *)
Module CrawlFacts.
Import Js Training Pool Crawl.

Lemma uniqFrom_NoDup (seen xs : list string) :
  NoDup (uniqFrom seen xs) /\
  forall x, In x (uniqFrom seen xs) -> ~ In x seen.
Proof.
  revert seen. induction xs as [ | y r IH]; intros seen; cbn [uniqFrom].
  - split; [constructor | intros x []].
  - destruct (includes seen y) eqn:I; [apply IH | ].
    destruct (IH (y :: seen)) as (N & Out). split.
    + constructor; [ | exact N]. intros Iy. apply (Out _ Iy). now left.
    + intros x [<- | Ix].
      * intros Is. apply TrainingFacts.includes_In in Is. congruence.
      * intros Is. apply (Out _ Ix). now right.
Qed.

Lemma NoDup_map_in {A B : Type} (f : A -> B) (l : list A) :
  (forall x y, In x l -> In y l -> f x = f y -> x = y) ->
  NoDup l -> NoDup (map f l).
Proof.
  intros Inj N. induction N as [ | x l Nx N IH]; cbn; constructor.
  - intros I. apply in_map_iff in I. destruct I as (y & E & Iy).
    apply Nx. rewrite (Inj x y); cbn; auto.
  - apply IH. intros; apply Inj; cbn; auto.
Qed.

Lemma sorted_NoDup (l : list nat) : StronglySorted lt l -> NoDup l.
Proof.
  induction 1 as [ | x l S IH F]; constructor; [ | exact IH].
  intros I. rewrite Forall_forall in F. specialize (F _ I). lia.
Qed.

Section Distinct.
Variables (U : Imports) (W : WebImports) (H : Hooks) (R : Rounds).
Variables (src : string) (force cb : bool) (baseUrl : string).
Hypothesis One : oneForm W baseUrl.

(** A round over distinct URLs fetches no URL twice. *)
Lemma round_distinct (round : nat) (urls : list string) (w : World) :
  NoDup urls ->
  exists evs,
    log (fst (generateEmbeddingsForUrls U W H R src force cb round urls w))
    = log w ++ evs /\
    NoDup (fetched evs) /\
    (forall u, In u (fetched evs) -> In u urls) /\
    (forall pc,
       snd (generateEmbeddingsForUrls U W H R src force cb round urls w)
       = Fulfilled pc ->
       forall c, In c pc ->
       exists u, In u urls /\ fetchPageContent W u = Fulfilled (Some c)).
Proof.
  intros N.
  destruct (TrainingFacts.round_events U W H R src force cb round urls w)
    as (evs & L & F & Pc).
  exists evs. repeat split; auto.
  destruct (PoolFacts.generateEmbeddings_inOrder U H
              (urlArgs W src force cb urls) (checksumsAt R round)
              (schedAt R round) w) as (evs' & L' & So & Fk & Fe & _).
  assert (E : evs' = evs).
  { unfold generateEmbeddingsForUrls in L.
    destruct (generateEmbeddings U H (urlArgs W src force cb urls)
                (checksumsAt R round) (schedAt R round) w) as [w' [e | ]];
      cbn [fst] in *; rewrite L in L'; now apply app_inv_head in L'. }
  subst evs'. rewrite Fe. cbn [urlArgs getFilePath numFiles] in *.
  apply NoDup_map_in; [ | now apply sorted_NoDup].
  intros i j Ii Ij. rewrite Forall_forall in Fk.
  apply (proj1 (NoDup_nth urls "") N); auto.
Qed.

Lemma discoveredLinks_distinct (pc found : list string) :
  (forall c, In c pc -> exists u, fetchPageContent W u = Fulfilled (Some c)) ->
  discoveredLinks W baseUrl pc = Some found ->
  NoDup found.
Proof.
  intros Pc. unfold discoveredLinks.
  destruct (traverse (extractLinksFromHtml W) pc) as [hrefs | ] eqn:T;
    [ | discriminate].
  intros [= <-].
  assert (Page : forall h,
            In h (filter (isHrefFromBaseUrl W baseUrl)
                    (uniq (List.concat hrefs))) ->
            isHrefFromBaseUrl W baseUrl h = true /\
            exists u c hs, fetchPageContent W u = Fulfilled (Some c) /\
                           extractLinksFromHtml W c = Some hs /\ In h hs).
  { intros h Ih. apply filter_In in Ih. destruct Ih as (Ih & Same).
    split; [exact Same | ].
    apply TrainingFacts.uniqFrom_incl, in_concat in Ih.
    destruct Ih as (hs & Ihs & Ih).
    destruct (TrainingFacts.traverse_In _ _ _ T _ Ihs) as (c & Ic & E).
    destruct (Pc _ Ic) as (u & F). eauto 10. }
  apply NoDup_map_in.
  - intros x y Ix Iy E.
    destruct (Page _ Ix) as (Sx & ux & cx & hx & Fx & Ex & Hx).
    destruct (Page _ Iy) as (Sy & uy & cy & hy & Fy & Ey & Hy).
    apply (One ux cx hx x uy cy hy y); assumption.
  - apply NoDup_filter, uniqFrom_NoDup.
Qed.

Lemma discover_distinct (fuel : nat) :
  forall round processedLinks linksToProcess w w' links,
    NoDup linksToProcess ->
    (forall x, In x linksToProcess -> ~ In x processedLinks) ->
    discover U W H R src force cb baseUrl fuel round processedLinks
      linksToProcess w = Some (w', links) ->
    exists evs, log w' = log w ++ evs /\
      NoDup (fetched evs) /\
      forall u, In u (fetched evs) -> ~ In u processedLinks.
Proof.
  induction fuel as [ | fuel IH];
    intros round processedLinks linksToProcess w w' links N New E.
  { destruct linksToProcess; [ | discriminate]. cbn in E.
    injection E as <- <-. exists []. rewrite app_nil_r.
    repeat split; [constructor | intros u []]. }
  assert (Ix : linksToProcess = [] \/ linksToProcess <> []).
  { destruct linksToProcess; [now left | right; discriminate]. }
  destruct Ix as [-> | Ne].
  { cbn in E. injection E as <- <-. exists []. rewrite app_nil_r.
    repeat split; [constructor | intros u []]. }
  rewrite (TrainingFacts.discover_round _ _ _ _ _ _ _ _ _ _ _ _ _ Ne) in E.
  destruct (round_distinct round linksToProcess w N) as (evs & L & Nf & F & Pc).
  destruct (generateEmbeddingsForUrls U W H R src force cb round linksToProcess w)
    as [w1 [pc | e]]; cbn [fst snd] in *.
  2:{ injection E as <- <-. exists evs. repeat split; auto. }
  specialize (Pc pc eq_refl).
  destruct (discoveredLinks W baseUrl pc) as [found | ] eqn:D.
  2:{ injection E as <- <-. exists evs. repeat split; auto. }
  apply IH in E.
  - destruct E as (evs2 & L2 & N2 & F2).
    exists (evs ++ evs2).
    rewrite L2, L, app_assoc, TrainingFacts.fetched_app.
    split; [reflexivity | split].
    + apply NoDup_app; auto.
      intros u I1 I2. apply (F2 _ I2), in_or_app. auto.
    + intros u Iu. apply in_app_or in Iu. destruct Iu as [Iu | Iu]; auto.
      intros I. apply (F2 _ Iu), in_or_app. auto.
  - apply NoDup_filter. eapply discoveredLinks_distinct; [ | exact D].
    intros c Ic. destruct (Pc _ Ic) as (u & _ & Fu). eauto.
  - intros y Iy. apply filter_In in Iy. destruct Iy as (_ & Ny).
    intros I. apply TrainingFacts.includes_In in I. rewrite I in Ny.
    discriminate.
Qed.

End Distinct.

(** X5.  On a finite site whose same-origin links are written in one form
    only, the discovery loop of the website branch ends and hands no URL to
    [fetchPageContent] twice. *)
Theorem crawler_fetches_no_page_twice_on_a_tidy_site (U : Imports)
    (W : WebImports) (H : Hooks) (R : Rounds) (src data_url : string)
    (force cb : bool) (universe : list string) (w : World) :
  isSitemapUrl W (toNormalizedUrl W data_url) = false ->
  In (removeTrailingSlashQueryParamsAndHash W data_url) universe ->
  closedSite W (toNormalizedUrl W data_url) universe ->
  oneForm W (toNormalizedUrl W data_url) ->
  exists w',
    trainWebsite U W H R src data_url force cb (S (List.length universe)) w
    = Some w' /\
    NoDup (fetched (since w w')).
Proof.
  intros NoMap Root Cl One. unfold trainWebsite. rewrite NoMap.
  destruct (TrainingFacts.discover_terminates U W H R src force cb
              (toNormalizedUrl W data_url) universe Cl
              (S (List.length universe)) 0 []
              [removeTrailingSlashQueryParamsAndHash W data_url] w)
    as (w' & links & E & _).
  - intros x [<- | []]. exact Root.
  - intros x _ [].
  - unfold unvisited.
    pose proof (filter_length_le (fun u => negb (includes [] u)) universe).
    lia.
  - exists w'. rewrite E. split; [reflexivity | ].
    assert (N0 : NoDup [removeTrailingSlashQueryParamsAndHash W data_url])
      by (repeat constructor; intros []).
    destruct (discover_distinct U W H R src force cb
                (toNormalizedUrl W data_url) One _ _ _ _ _ _ _
                N0 (fun x _ (I : In x []) => I) E)
      as (evs & L & N & _).
    now rewrite (TrainingFacts.since_app w w' evs L).
Qed.

Lemma threePages_links (u c h : string) (hrefs : list string) :
  fetchPageContent MoreExamples.threePages u = Fulfilled (Some c) ->
  extractLinksFromHtml MoreExamples.threePages c = Some hrefs ->
  In h hrefs ->
  In u MoreExamples.site /\ In h ["/a"; "/b"; "/"].
Proof.
  cbn [MoreExamples.threePages fetchPageContent extractLinksFromHtml].
  destruct (String.eqb u "https://x.io") eqn:E0;
    [ | destruct (String.eqb u "https://x.io/a") eqn:E1;
        [ | destruct (String.eqb u "https://x.io/b") eqn:E2;
            [ | discriminate]]];
    intros [= <-] [= <-] I; cbn in I;
    [apply String.eqb_eq in E0 | apply String.eqb_eq in E1
     | apply String.eqb_eq in E2]; subst u; cbn; intuition.
Qed.

Lemma threePages_closed :
  closedSite MoreExamples.threePages "https://x.io/" MoreExamples.site.
Proof.
  intros u c hrefs href _ F E I _.
  destruct (threePages_links u c href hrefs F E I) as (_ & [<- | [<- | [<- | []]]]);
    cbn; auto.
Qed.

Lemma threePages_oneForm : oneForm MoreExamples.threePages "https://x.io/".
Proof.
  intros u1 c1 hs1 h1 u2 c2 hs2 h2 F1 E1 I1 F2 E2 I2 _ _.
  destruct (threePages_links u1 c1 h1 hs1 F1 E1 I1) as (_ & [<- | [<- | [<- | []]]]);
    destruct (threePages_links u2 c2 h2 hs2 F2 E2 I2) as (_ & [<- | [<- | [<- | []]]]);
    cbn; intros N; try reflexivity; discriminate.
Qed.

(** The theorem at the site of three pages. *)
Lemma crawler_fetches_no_page_twice_on_a_tidy_site_witness :
  exists w',
    trainWebsite TrainingExamples.everyFileOk MoreExamples.threePages
      TrainingExamples.hooks TrainingExamples.calmRounds "site-1"
      "https://x.io/" false true 4 TrainingExamples.fresh = Some w' /\
    NoDup (fetched (since TrainingExamples.fresh w')).
Proof.
  apply (crawler_fetches_no_page_twice_on_a_tidy_site
           TrainingExamples.everyFileOk MoreExamples.threePages
           TrainingExamples.hooks TrainingExamples.calmRounds "site-1"
           "https://x.io/" false true MoreExamples.site
           TrainingExamples.fresh).
  - reflexivity.
  - cbn. auto.
  - exact threePages_closed.
  - exact threePages_oneForm.
Defined.


End CrawlFacts.



(** ** The callbacks of [submitPrompt] *)
Module CallbackFacts.
Import Js Callbacks Core.

Section Loop.
Context {J : Type} (P : Platform J).

Lemma onChunk_chunks (chunkValue : string) (r : Reading J)
    (texts : list string) :
  calls r = answerChunks texts ->
  exists more, calls (onChunk P chunkValue r) = answerChunks (texts ++ more).
Proof.
  intros C. unfold onChunk.
  destruct (negb (didHandleHeader r));
    [destruct (includes (startText r +++ chunkValue) STREAM_SEPARATOR) | ];
    cbn [calls]; rewrite C.
  - eexists [_]. unfold answerChunks. now rewrite map_app.
  - exists []. now rewrite app_nil_r.
  - eexists [_]. unfold answerChunks. now rewrite map_app.
Qed.

Lemma readSome_chunks (bytes : list string) (r : Reading J)
    (texts : list string) :
  calls r = answerChunks texts ->
  exists more, calls (readSome P bytes r) = answerChunks (texts ++ more).
Proof.
  revert r texts. induction bytes as [ | c rest IH]; intros r texts C.
  - exists []. now rewrite app_nil_r.
  - unfold readSome. cbn [fold_left].
    destruct (onChunk_chunks (decode c) r texts C) as (m1 & C1).
    destruct (IH _ _ C1) as (m2 & C2).
    exists (m1 ++ m2). rewrite app_assoc. exact C2.
Qed.


End Loop.

(** The calls of [submitPrompt] for callbacks that return. *)
Lemma submitPrompt_wellEnded {J : Type} (P : Platform J)
    (prompt projectKey : string) (options : option Options) :
  projectKey <> "" -> prompt <> "" ->
  snd (submitPrompt P prompt projectKey options) = Resolves /\
  wellEnded (fallbackMessage options)
    (fst (submitPrompt P prompt projectKey options)).
Proof.
  intros K Q. rewrite (CoreFacts.submitPrompt_requests _ _ _ _ K Q).
  assert (Failed : forall error,
            wellEnded (fallbackMessage options)
              [AnswerChunk (fallbackMessage options); @Error J error]).
  { intros error. exists []. right. now exists error. }
  destruct (fetch P _) as [e | ok body text];
    [split; [reflexivity | apply Failed] | ].
  destruct ok, body as [b | ];
    try (destruct text; (split; [reflexivity | cbn [fst]; apply Failed])).
  cbv zeta.
  destruct (readSome_chunks P (chunks b)
              (mkReading "" false (emptyArray P) []) [] eq_refl)
    as (texts & C).
  destruct (broken b) as [error | ]; cbn [fst snd];
    (split; [reflexivity | ]).
  - exists texts. right. exists error. now rewrite C.
  - destruct (onChunk_chunks P (decode "") _ _ C) as (more & C').
    exists (texts ++ more). left. eexists. unfold readAll. now rewrite C'.
Qed.

(** The promise is rejected by the [catch] block only, with what its last
    call threw. *)
Lemma caught_rejects {J : Type} (K : Handlers J) (iDontKnowMessage : string)
    (before : list (Callback J)) (error thrown : string) :
  snd (caught K iDontKnowMessage before error) = Rejects thrown ->
  exists earlier call,
    fst (caught K iDontKnowMessage before error) = earlier ++ [call] /\
    K earlier call = Some thrown /\
    (call = AnswerChunk iDontKnowMessage \/ exists e, call = Error e).
Proof.
  unfold caught, invoke.
  destruct (K before (AnswerChunk iDontKnowMessage)) as [t | ] eqn:E1;
    cbn [fst snd].
  - intros [= <-]. exists before, (AnswerChunk iDontKnowMessage). auto.
  - destruct (K (before ++ [AnswerChunk iDontKnowMessage]) (Error error))
      as [t | ] eqn:E2; cbn [fst snd]; [ | discriminate].
    intros [= <-].
    exists (before ++ [AnswerChunk iDontKnowMessage]), (Error error).
    repeat split; eauto.
Qed.

Lemma settle_rejects {J : Type} (K : Handlers J) (iDontKnowMessage : string)
    (tried : list (Callback J) * option string) (thrown : string) :
  snd (settle K iDontKnowMessage tried) = Rejects thrown ->
  exists earlier call,
    fst (settle K iDontKnowMessage tried) = earlier ++ [call] /\
    K earlier call = Some thrown /\
    (call = AnswerChunk iDontKnowMessage \/ exists e, call = Error e).
Proof.
  destruct tried as [calls [t | ]]; cbn [settle];
    [apply caught_rejects | discriminate].
Qed.

(** X6.  A call of [submitPrompt] with a project key and a prompt, and with
    callbacks that return, never rejects, and its callbacks come in one of
    two shapes: answer chunks followed by one call of [onReferences], or
    answer chunks followed by the fallback message and one call of
    [onError]; so exactly one of [onReferences] and [onError] is called,
    once, and last.  Whatever the callbacks do, the promise is rejected only
    by the [catch] block: with what the call of [onAnswerChunk] for the
    fallback message, or the call of [onError], threw there, that call being
    the last one made. *)
Theorem submitPrompt_ends_with_references_or_error {J : Type}
    (P : Platform J) (K : Handlers J) (prompt projectKey : string)
    (options : option Options) :
  projectKey <> "" -> prompt <> "" ->
  let made := Callbacks.submitPrompt P K prompt projectKey options in
  (returns K ->
   snd made = Resolves /\ wellEnded (fallbackMessage options) (fst made)) /\
  (forall thrown, snd made = Rejects thrown ->
   exists earlier call,
     fst made = earlier ++ [call] /\ K earlier call = Some thrown /\
     (call = AnswerChunk (fallbackMessage options)
      \/ exists error, call = Error error)).
Proof.
  intros Key Q made. subst made. split.
  - intros Returns. rewrite (CoreFacts.submitPrompt_returning P K Returns).
    now apply submitPrompt_wellEnded.
  - intros thrown. unfold Callbacks.submitPrompt.
    apply String.eqb_neq in Key. apply String.eqb_neq in Q. rewrite Key, Q.
    cbv zeta.
    destruct (fetch P _) as [e | ok body [t | e]];
      try apply caught_rejects;
      (destruct (if ok then body else None) as [b | ];
       [ | first [apply settle_rejects | apply caught_rejects]]);
      (destruct (broken b);
       [destruct (Callbacks.readSome P K (chunks b) _) as [r [x | ]];
        apply caught_rejects
       | apply settle_rejects]).
Qed.

(** The theorem at the scenario of the protocol, for callbacks that
    return, and at a [fetch] that throws, for an [onError] that throws: the
    promise is rejected with what [onError] threw in the [catch] block. *)
Lemma submitPrompt_ends_with_references_or_error_witness :
  (snd (Callbacks.submitPrompt
          (serving CoreExamples.offline CoreExamples.helloWorld)
          MoreExamples.returning "What is X?" "pk_test" None) = Resolves /\
   wellEnded (fallbackMessage None)
     (fst (Callbacks.submitPrompt
             (serving CoreExamples.offline CoreExamples.helloWorld)
             MoreExamples.returning "What is X?" "pk_test" None))) /\
  exists earlier call,
    fst (Callbacks.submitPrompt CoreExamples.offline
           MoreExamples.onErrorThrows "What is X?" "pk_test" None)
    = earlier ++ [call] /\
    MoreExamples.onErrorThrows earlier call = Some "onError failed" /\
    (call = AnswerChunk (fallbackMessage None)
     \/ exists error, call = Error error).
Proof.
  split.
  - refine (proj1 (submitPrompt_ends_with_references_or_error
             (serving CoreExamples.offline CoreExamples.helloWorld)
             MoreExamples.returning "What is X?" "pk_test" None _ _) _).
    + discriminate.
    + discriminate.
    + intros before call. reflexivity.
  - refine (proj2 (submitPrompt_ends_with_references_or_error
             CoreExamples.offline MoreExamples.onErrorThrows
             "What is X?" "pk_test" None _ _) "onError failed" _).
    + discriminate.
    + discriminate.
    + reflexivity.
Defined.





End CallbackFacts.

(** ** [getMatchingSections] *)
Module RetrievalFacts.
Import Js Completions Retrieval.

Lemma attempts_app (l1 l2 : list Event) :
  attempts (l1 ++ l2) = attempts l1 ++ attempts l2.
Proof. apply flat_map_app. Qed.

Lemma attempts_none (evs : list Event) :
  Forall embedsNothing evs -> attempts evs = [].
Proof.
  induction 1 as [ | e evs Pe _ IH]; [reflexivity | ].
  destruct e; try contradiction; exact IH.
Qed.

Lemma attempts_calls (input : string) (key : option string)
    (modelId : string) (ns : list nat) :
  attempts (map (fun n => CreateEmbedding n input key modelId) ns) = ns.
Proof.
  unfold attempts. induction ns as [ | n ns IH]; cbn; [reflexivity | ].
  now rewrite IH.
Qed.

(** [backOff] calls [createEmbedding] for the attempts [attempt],
    [attempt + 1], ... up to the first that is fulfilled, [left] more times
    at most, and ends as the last of its calls. *)
Lemma backOff_run (U : Imports) (left : nat) :
  forall attempt input key modelId,
  exists k, k <= left /\
    fst (backOff U left attempt input key modelId)
    = map (fun n => CreateEmbedding n input key modelId) (seq attempt (S k)) /\
    (forall n, attempt <= n < attempt + k ->
       exists x, createEmbedding U n input key modelId = Rejected x) /\
    match snd (backOff U left attempt input key modelId) with
    | Ok r => createEmbedding U (attempt + k) input key modelId = Fulfilled r
    | Throw x =>
        k = left /\
        createEmbedding U (attempt + k) input key modelId = Rejected x
    end.
Proof.
  induction left as [ | left IH]; intros attempt input key modelId;
    cbn [backOff].
  - exists 0. rewrite Nat.add_0_r.
    destruct (createEmbedding U attempt input key modelId) eqn:E; cbn;
      repeat split; auto; intros; lia.
  - destruct (createEmbedding U attempt input key modelId) as [r | x] eqn:E.
    + exists 0. rewrite Nat.add_0_r. cbn. repeat split; auto; intros; lia.
    + destruct (IH (S attempt) input key modelId) as (k & Hk & F & Rj & S').
      exists (S k). rewrite EngineFacts.fst_bind, EngineFacts.snd_bind.
      cbn [emit fst snd]. rewrite F.
      replace (attempt + S k) with (S attempt + k) by lia.
      repeat split; [lia | | ].
      * intros n Hn. destruct (Nat.eq_dec n attempt) as [-> | Ne]; [eauto | ].
        apply Rj. lia.
      * destruct (snd (backOff U left (S attempt) input key modelId));
          [exact S' | ]. destruct S' as (-> & S'). auto.
Qed.

Lemma embedQuery_attempts (U : Imports) (q v pid : string)
    (key : option string) (src : string) :
  attempts (fst (embedQuery U q v pid key src))
  = attempts (fst (backOff U 9 0 q key embeddingsModel)).
Proof.
  unfold embedQuery.
  rewrite EngineFacts.fst_catch, EngineFacts.fst_bind, EngineFacts.snd_bind,
    !attempts_app.
  destruct (snd (backOff U 9 0 q key embeddingsModel)) as [r | x].
  - destruct (er_error r); cbn [throw fst snd attempts flat_map app];
      [now rewrite !app_nil_r | ].
    rewrite EngineFacts.fst_bind, EngineFacts.snd_bind.
    destruct (truthy key); cbn [ret fst snd attempts flat_map app];
      [now rewrite !app_nil_r | ].
    destruct (er_total_tokens r); cbn [throw fst snd attempts flat_map app];
      [ | now rewrite !app_nil_r].
    rewrite EngineFacts.fst_await, EngineFacts.snd_await.
    destruct (recordProjectTokenCount U pid _ z "sections"); cbn;
      now rewrite !app_nil_r.
  - cbn. now rewrite !app_nil_r.
Qed.

(** X8.  [getMatchingSections] asks for the embedding of the query ten times
    at most, the attempts numbered 0, 1, 2, ... without a gap, and it asks
    again only after a rejected attempt. *)
Theorem embedding_is_attempted_at_most_ten_times (U : Imports)
    (q v : string) (th c : option Q) (pid : string) (key : option string)
    (src : string) :
  exists k, k <= 10 /\
    attempts (fst (getMatchingSections U q v th c pid key src)) = seq 0 k /\
    forall n, S n < k ->
      exists x, createEmbedding U n q key embeddingsModel = Rejected x.
Proof.
  unfold getMatchingSections.
  rewrite EngineFacts.fst_bind, EngineFacts.fst_await, EngineFacts.snd_await.
  cbn [app attempts flat_map].
  destruct (createModeration U q key) as [[ | ] | x].
  1, 3: exists 0; cbn; repeat split; [lia | intros; lia].
  rewrite EngineFacts.fst_bind, attempts_app, embedQuery_attempts.
  destruct (backOff_run U 9 0 q key embeddingsModel) as (k & Hk & F & Rj & _).
  exists (S k). rewrite F, attempts_calls.
  match goal with
  | |- context [attempts ?m] => assert (N : attempts m = [])
  end.
  { destruct (snd (embedQuery U q v pid key src)) as [r | x]; [ | reflexivity].
    destruct (er_embedding r) as [emb | ]; [ | reflexivity].
    apply attempts_none, EngineFacts.matchSections_events; cbn; auto. }
  rewrite N, app_nil_r. repeat split; [lia | ].
  intros n Hn. apply Rj. lia.
Qed.

(** X9.  When moderation and the vector index answer at all, every failure
    of [getMatchingSections] is an [ApiError] of status 400: flagged
    content, a failed embedding, an error of the index, or no sections. *)
Theorem retrieval_fails_with_status_400 (U : Imports) (q v : string)
    (th c : option Q) (pid : string) (key : option string) (src : string)
    (e : Exn) :
  snd (getMatchingSections U q v th c pid key src) = Throw e ->
  (forall x, createModeration U q key <> Rejected x) ->
  (forall emb t n x, match_file_sections U pid emb t n 30 <> Rejected x) ->
  exists message, e = ApiError 400 message.
Proof.
  unfold getMatchingSections.
  rewrite EngineFacts.snd_bind, EngineFacts.snd_await.
  intros T Mod Idx.
  destruct (createModeration U q key) as [[ | ] | x];
    [injection T as <-; eauto | | now destruct (Mod x)].
  rewrite EngineFacts.snd_bind in T. unfold embedQuery in T.
  rewrite EngineFacts.snd_catch in T.
  match type of T with
  | context [match snd ?m with Ok _ => _ | Throw _ => _ end] =>
      destruct (snd m) as [r | x]
  end.
  2:{ cbn in T. injection T as <-. eauto. }
  destruct (er_embedding r) as [emb | ]; [ | injection T as <-; eauto].
  unfold matchSections in T.
  rewrite EngineFacts.snd_bind, EngineFacts.snd_await in T.
  destruct (match_file_sections U pid emb (numOr th (1 # 2)) (numOr c 10) 30)
    as [a | x] eqn:A; [ | now destruct (Idx _ _ _ _ A)].
  destruct (mr_error a); [cbn in T; injection T as <-; eauto | ].
  destruct (mr_data a) as [[ | s0 r0] | ]; cbn in T;
    try discriminate; injection T as <-; eauto.
Qed.

(** The theorem at services whose embedding endpoint rejects every
    attempt. *)
Lemma retrieval_fails_with_status_400_witness :
  exists message,
    ApiError 400
      "Error creating embedding for prompt 'What is X?': too_many_requests"
    = ApiError 400 message.
Proof.
  apply (retrieval_fails_with_status_400 MoreExamples.noEmbedding
           "What is X?" "What is X?" None None "project-1" None
           "completions").
  - reflexivity.
  - discriminate.
  - discriminate.
Defined.


Lemma numOr_asksFor (d : Q) (given : option Q) (x : Q) :
  asksFor d given x -> numOr given d = x.
Proof.
  intros [q N | q Z | ]; cbn [numOr]; [ | | reflexivity].
  - destruct (Qeq_bool q 0) eqn:E; [ | reflexivity].
    apply Qeq_bool_iff in E. contradiction.
  - apply Qeq_bool_iff in Z. now rewrite Z.
Qed.

(** What a call of [getMatchingSections] that returns has done, the
    threshold and the count as the code computes them. *)
Lemma retrieved_sections (U : Imports)
    (q v : string) (th c : option Q) (pid : string) (key : option string)
    (src : string) (fileSections : list FileSectionMatchResult)
    (promptEmbedding : Embedding) :
  snd (getMatchingSections U q v th c pid key src)
  = Ok (fileSections, promptEmbedding) ->
  fileSections <> [] /\
  createModeration U q key = Fulfilled false /\
  (exists n r, n < 10 /\
     createEmbedding U n q key embeddingsModel = Fulfilled r /\
     er_error r = None /\ er_embedding r = Some promptEmbedding) /\
  In (MatchFileSections pid promptEmbedding
        (numOr th (1 # 2)) (numOr c 10) 30)
     (fst (getMatchingSections U q v th c pid key src)) /\
  exists a,
    match_file_sections U pid promptEmbedding
      (numOr th (1 # 2)) (numOr c 10) 30 = Fulfilled a /\
    mr_error a = None /\ mr_data a = Some fileSections.
Proof.
  unfold getMatchingSections.
  rewrite EngineFacts.snd_bind, EngineFacts.snd_await,
    EngineFacts.fst_bind, EngineFacts.fst_await, EngineFacts.snd_await.
  destruct (createModeration U q key) as [[ | ] | x]; try discriminate.
  rewrite EngineFacts.snd_bind, EngineFacts.fst_bind.
  intros T.
  assert (Emb : forall r, snd (embedQuery U q v pid key src) = Ok r ->
            exists n, n < 10 /\
              createEmbedding U n q key embeddingsModel = Fulfilled r /\
              er_error r = None).
  { intros r. unfold embedQuery.
    rewrite EngineFacts.snd_catch, EngineFacts.snd_bind.
    destruct (backOff_run U 9 0 q key embeddingsModel) as (k & Hk & _ & _ & S').
    destruct (snd (backOff U 9 0 q key embeddingsModel)) as [r' | x];
      [ | discriminate].
    destruct (er_error r') eqn:Er; [discriminate | ].
    rewrite EngineFacts.snd_bind.
    match goal with
    | |- context [match snd ?m with Ok _ => _ | Throw _ => _ end] =>
        destruct (snd m); [ | discriminate]
    end.
    cbn. intros [= <-]. exists (0 + k). repeat split; [lia | exact S' | exact Er]. }
  destruct (snd (embedQuery U q v pid key src)) as [r | x]; [ | discriminate].
  destruct (Emb r eq_refl) as (n & Hn & Cr & Er).
  destruct (er_embedding r) as [emb | ] eqn:Ee; [ | discriminate].
  unfold matchSections in *.
  rewrite EngineFacts.snd_bind, EngineFacts.snd_await in T.
  rewrite EngineFacts.fst_bind, EngineFacts.fst_await.
  destruct (match_file_sections U pid emb (numOr th (1 # 2)) (numOr c 10) 30)
    as [a | x] eqn:A; [ | discriminate].
  destruct (mr_error a) eqn:Me; [discriminate | ].
  destruct (mr_data a) as [[ | s0 r0] | ] eqn:Md; try discriminate.
  cbn in T. injection T as <- <-.
  repeat split; [discriminate | eauto 10 | | eauto].
  cbn [app In]. right. apply in_or_app. right. now left.
Qed.

(** X10.  When [getMatchingSections] returns, moderation did not flag the
    query, the embedding it returns is the one an attempt of
    [createEmbedding] gave, and the sections are those the vector index
    answered for that embedding, one at least, asked with a minimal content
    length of 30 and with the threshold and the count the caller gave: the
    caller's numbers themselves, 0.5 and 10 standing in for a number that is
    absent or zero. *)
Theorem retrieved_sections_are_the_answer_of_the_index (U : Imports)
    (q v : string) (th c : option Q) (pid : string) (key : option string)
    (src : string) (fileSections : list FileSectionMatchResult)
    (promptEmbedding : Embedding) (threshold count : Q) :
  snd (getMatchingSections U q v th c pid key src)
  = Ok (fileSections, promptEmbedding) ->
  asksFor (1 # 2) th threshold ->
  asksFor 10 c count ->
  fileSections <> [] /\
  createModeration U q key = Fulfilled false /\
  (exists n r, n < 10 /\
     createEmbedding U n q key embeddingsModel = Fulfilled r /\
     er_error r = None /\ er_embedding r = Some promptEmbedding) /\
  In (MatchFileSections pid promptEmbedding threshold count 30)
     (fst (getMatchingSections U q v th c pid key src)) /\
  exists a,
    match_file_sections U pid promptEmbedding threshold count 30
    = Fulfilled a /\
    mr_error a = None /\ mr_data a = Some fileSections.
Proof.
  intros Returned Th Co.
  apply numOr_asksFor in Th. apply numOr_asksFor in Co. subst threshold count.
  now apply retrieved_sections.
Qed.

(** The theorem at a caller who asks for five sections above 0.75, and at
    one who gives no threshold and a count of zero. *)
Lemma retrieved_sections_are_the_answer_of_the_index_witness :
  In (MatchFileSections "project-1" [1 # 2; 1 # 4] (3 # 4) 5 30)
     (fst (getMatchingSections
             (EngineExamples.services false (Some [EngineExamples.oneSection]))
             "What is X?" "What is X?" (Some (3 # 4)) (Some 5%Q) "project-1"
             None "completions")) /\
  In (MatchFileSections "project-1" [1 # 2; 1 # 4] (1 # 2) 10 30)
     (fst (getMatchingSections
             (EngineExamples.services false (Some [EngineExamples.oneSection]))
             "What is X?" "What is X?" None (Some 0%Q) "project-1" None
             "completions")).
Proof.
  split.
  - refine (proj1 (proj2 (proj2 (proj2
      (retrieved_sections_are_the_answer_of_the_index
         (EngineExamples.services false (Some [EngineExamples.oneSection]))
         "What is X?" "What is X?" (Some (3 # 4)) (Some 5%Q) "project-1" None
         "completions" [EngineExamples.oneSection] [1 # 2; 1 # 4]
         (3 # 4) 5 _ _ _))))).
    + reflexivity.
    + apply asks_given. discriminate.
    + apply asks_given. discriminate.
  - refine (proj1 (proj2 (proj2 (proj2
      (retrieved_sections_are_the_answer_of_the_index
         (EngineExamples.services false (Some [EngineExamples.oneSection]))
         "What is X?" "What is X?" None (Some 0%Q) "project-1" None
         "completions" [EngineExamples.oneSection] [1 # 2; 1 # 4]
         (1 # 2) 10 _ _ _))))).
    + reflexivity.
    + apply asks_absent.
    + apply asks_zero. reflexivity.
Defined.

End RetrievalFacts.

(** ** The completion handler *)
Module ServingFacts.
Import Js Completions Handler Serving.

(** *** Requests that do not reach the pipeline *)

Lemma handler_rejected (U : Completions.Imports) (V : Imports) (req : Request) :
  accepted V req = false ->
  Forall cheap (fst (handler U V req)) /\
  headers (snd (handler U V req)) = None.
Proof.
  unfold accepted, handler, answer, truncated, projectIdOf.
  destruct (method req) as [m | ]; [ | split; [constructor | reflexivity]].
  destruct (String.eqb m "OPTIONS"); [split; [constructor | reflexivity] | ].
  destruct (String.eqb m "POST"); cbn [negb andb];
    [ | split; [constructor | reflexivity]].
  destruct (json req) as [given | ]; [ | split; [constructor | reflexivity]].
  cbn [bind ret fst snd app].
  destruct (truthy (projectIdParam req)); cbn [negb andb];
    [ | split; [repeat constructor | reflexivity]].
  destruct (prompt given) as [p | ]; cbn [option_map truthy negb];
    [ | split; [repeat constructor | reflexivity]].
  destruct (String.eqb (take (MAX_PROMPT_LENGTH V) p) ""); cbn [negb andb];
    [split; [repeat constructor | reflexivity] | ].
  unfold emit. cbn [bind].
  destruct (checkCompletionsRateLimits V _); [discriminate | ].
  intros _. split; [repeat constructor | reflexivity].
Qed.

(** *** The events of a request, kind by kind *)

Section Kinds.
Variables (U : Completions.Imports) (V : Imports) (P : Event -> Prop).

Lemma embedQuery_kinds (q v pid : string) (key : option string)
    (src : string) :
  (forall n, P (CreateEmbedding n q key embeddingsModel)) ->
  (truthy key = false -> forall info c, P (TokenCount pid info c "sections")) ->
  (forall m, P (ConsoleError m)) ->
  Forall P (fst (embedQuery U q v pid key src)).
Proof.
  intros Pe Pt Pc. unfold embedQuery. apply EngineFacts.events_catch.
  - apply EngineFacts.events_bind; [now apply EngineFacts.backOff_events | ].
    intros r _. destruct (er_error r); [constructor | ].
    apply EngineFacts.events_bind; [ | constructor].
    destruct (truthy key); [constructor | ].
    destruct (er_total_tokens r); [ | constructor].
    apply EngineFacts.events_await. now apply Pt.
  - intros e _. apply EngineFacts.events_bind; cbn; auto.
Qed.

Lemma retrieve_kinds (params : Params) (prompt pid : string) :
  (forall q key, P (Moderation q key)) ->
  (forall n q key m, P (CreateEmbedding n q key m)) ->
  (truthy (getProjectConfigData V pid) = false ->
   forall info c kind, P (TokenCount pid info c kind)) ->
  (forall emb t n len, P (MatchFileSections pid emb t n len)) ->
  (forall m, P (ConsoleError m)) ->
  Forall P (fst (retrieve U V params prompt pid)).
Proof.
  intros Pm Pe Pt Pr Pc. unfold retrieve, getMatchingSections.
  apply EngineFacts.events_bind; [now apply EngineFacts.events_await | ].
  intros flagged _. destruct flagged; [constructor | ].
  apply EngineFacts.events_bind; [apply embedQuery_kinds; auto | ].
  intros r _. destruct (er_embedding r); [ | constructor].
  apply EngineFacts.matchSections_events; auto.
Qed.

Lemma streamResponse_kinds (pid : string) (m : LLMInfo) (key : option string)
    (full idkMessage : string) (paths : list string) (promptId : option string)
    (events : list ParsedEvent) :
  (truthy key = false -> forall info n kind, P (TokenCount pid info n kind)) ->
  (forall i r n, P (Update i r n)) ->
  Forall P (fst (streamResponse U V pid m key full idkMessage paths promptId
                   events)).
Proof.
  intros Pt Pu. unfold streamResponse.
  assert (F : Forall P
                (fst (wrapUp U pid m key full idkMessage promptId
                        (streamed V m paths events)))).
  { unfold wrapUp. apply EngineFacts.events_bind.
    - destruct (truthy key); [constructor | ].
      apply EngineFacts.events_await. now apply Pt.
    - intros _ _. destruct (truthy promptId); cbn; auto. }
  destruct (wrapUp U pid m key full idkMessage promptId
              (streamed V m paths events)) as [evs [u | e]]; exact F.
Qed.

Lemma deliver_kinds (params : Params) (prompt pid idkMessage : string)
    (insights : option InsightsType) (stream exclude redact : bool)
    (fileSections : list FileSectionMatchResult) (emb : Embedding) :
  let info := stringToLLMInfo U (model params) in
  (forall what, P (Track pid what)) ->
  (stream = true -> forall i r n, P (Update i r n)) ->
  (stream && truthy (getProjectConfigData V pid) = false ->
   forall info n kind, P (TokenCount pid info n kind)) ->
  (forall authorization full,
     P (Completion (getCompletionsUrl V info) authorization
          (getPayload full info
             (numOr (temperature params) (1 # 10)) (numOr (topP params) 1)
             (numOr (frequencyPenalty params) 0)
             (numOr (presencePenalty params) 0)
             (numOr (maxTokens params) 500) stream))) ->
  (forall response e reason references,
     Forall P (fst (_storePrompt U pid prompt response e reason references
                      insights exclude redact))) ->
  Forall P (fst (deliver U V params prompt pid idkMessage insights stream
                   exclude redact fileSections emb)).
Proof.
  intros info Pk Pu Pt Pc Ps. unfold deliver.
  apply EngineFacts.events_bind; [cbn; auto | ]. intros _ _.
  destruct (assemble V 0 "" [] fileSections) as [contextText references].
  apply EngineFacts.events_bind; [apply EngineFacts.events_await, Pc | ].
  intros res _. destruct stream; cbn [negb].
  - apply EngineFacts.events_bind; [apply Ps | ]. intros promptId _.
    match goal with
    | |- context [streamResponse ?a ?b ?c ?d ?e ?f ?g ?h ?i ?j] =>
        pose proof (streamResponse_kinds c d e f g h i j) as F;
        destruct (streamResponse a b c d e f g h i j) as [evs readable]
    end.
    cbn [fst] in *. apply F; [ | apply Pu; reflexivity].
    intros K. apply Pt. rewrite K. reflexivity.
  - destruct (p_ok res); cbn [negb].
    + destruct (p_json res) as [[tokenCount text] | ]; [ | constructor].
      apply EngineFacts.events_bind;
        [apply EngineFacts.events_await, Pt; reflexivity | ].
      intros _ _. apply EngineFacts.events_bind; [apply Ps | ].
      intros; constructor.
    + apply EngineFacts.events_bind; [apply Ps | ]. intros; constructor.
Qed.

Lemma complete_kinds (req : Request) (given : Params) (prompt pid : string) :
  let params := effectiveParams V req pid given in
  let info := stringToLLMInfo U (model params) in
  let stream := negb (isFalsy (stream given)) in
  (forall q key, P (Moderation q key)) ->
  (forall n q key m, P (CreateEmbedding n q key m)) ->
  (forall emb t n len, P (MatchFileSections pid emb t n len)) ->
  (forall m, P (ConsoleError m)) ->
  (forall what, P (Track pid what)) ->
  (stream = true -> forall i r n, P (Update i r n)) ->
  (stream && truthy (getProjectConfigData V pid) = false ->
   forall info n kind, P (TokenCount pid info n kind)) ->
  (forall authorization full,
     P (Completion (getCompletionsUrl V info) authorization
          (getPayload full info
             (numOr (temperature params) (1 # 10)) (numOr (topP params) 1)
             (numOr (frequencyPenalty params) 0)
             (numOr (presencePenalty params) 0)
             (numOr (maxTokens params) 500) stream))) ->
  (forall response e reason references,
     Forall P (fst (_storePrompt U pid prompt response e reason references
                      (insightsTypeFor V req pid)
                      (isTruthy (excludeFromInsights given))
                      (isTruthy (redact given))))) ->
  Forall P (fst (complete U V req given prompt pid)).
Proof.
  intros params info stream Pm Pe Pr Pc Pk Pu Pt Pl Ps. unfold complete.
  pose proof (retrieve_kinds params prompt pid Pm Pe) as G.
  fold params.
  destruct (retrieve U V params prompt pid)
    as [found [[fileSections emb] | e]]; cbn [fst] in G.
  - apply EngineFacts.events_bind.
    + apply G; auto. intros K. apply Pt. rewrite K. apply andb_false_r.
    + intros _ _. apply deliver_kinds; auto.
  - apply EngineFacts.events_bind.
    + apply G; auto. intros K. apply Pt. rewrite K. apply andb_false_r.
    + intros _ _. unfold sectionsFailed.
      apply EngineFacts.events_bind; [apply Ps | ].
      intros promptId _. destruct e; constructor.
Qed.

Lemma handler_kinds (req : Request) :
  (forall e, cheap e -> P e) ->
  (accepted V req = true ->
   forall given, json req = Some given ->
     Forall P (fst (complete U V req given (truncated V req)
                      (projectIdOf req)))) ->
  Forall P (fst (handler U V req)).
Proof.
  intros Pc Pa. destruct (accepted V req) eqn:A.
  - destruct (EngineFacts.handler_accepted U V req A) as (given & J & Hd).
    specialize (Pa eq_refl given J). rewrite Hd.
    destruct (complete U V req given (truncated V req) (projectIdOf req))
      as [evs [response | e]]; cbn [fst] in *;
      (constructor; [apply Pc; exact I | exact Pa]).
  - destruct (handler_rejected U V req A) as (F & _).
    eapply Forall_impl; [ | exact F]. exact Pc.
Qed.

End Kinds.




(** *** What is stored *)



Lemma _storePrompt_id (U : Completions.Imports) (pid prompt : string)
    (response : option string) (e : option Embedding)
    (reason : option PromptNoResponseReason)
    (references : list FileSectionReference)
    (insights : option InsightsType) (exclude redact : bool) (id : string) :
  (forall row, insert_id U row = Some id) ->
  snd (_storePrompt U pid prompt response e reason references insights
         exclude redact) = Ok (Some id).
Proof.
  intros Ins. unfold _storePrompt, storePrompt.
  destruct exclude; cbn; now rewrite Ins.
Qed.

Lemma truthy_Some (x : string) : x <> "" -> truthy (Some x) = true.
Proof.
  intros N. cbn. destruct (String.eqb x "") eqn:E; [ | reflexivity].
  apply String.eqb_eq in E. contradiction.
Qed.

(** The end of the stream, for a row that has an id and an answer that is
    not empty: the last call is the update of the row. *)
Lemma wrapUp_updates (U : Completions.Imports) (pid : string) (m : LLMInfo)
    (key : option string) (full idkMessage id : string) (s : Streaming) :
  (forall pid info n kind,
     recordProjectTokenCount U pid info n kind = Fulfilled tt) ->
  id <> "" -> responseText s <> "" ->
  exists evs,
    wrapUp U pid m key full idkMessage (Some id) s
    = (evs ++ [Update id (Some (responseText s))
                 (if isIDontKnowResponse (responseText s) idkMessage
                  then Some true else None)],
       Ok tt).
Proof.
  intros Tok Id Text. unfold wrapUp, updatePrompt.
  rewrite (truthy_Some id Id), (truthy_Some _ Text).
  destruct (truthy key).
  - exists []. cbn. now destruct (isIDontKnowResponse _ _).
  - rewrite Tok. eexists [_]. cbn. now destruct (isIDontKnowResponse _ _).
Qed.

(** X21.  The answer of a streamed request is written into the stored row
    whatever the request and the plan say about insights.  When a streamed
    request reaches the model provider and the stream brings an answer, the
    handler, once the stream has ended, updates the row it inserted with
    the whole response text: also for a request that set
    [excludeFromInsights], and also for a team without an insights plan. *)
Theorem streamed_response_is_stored_whatever_the_flags
    (U : Completions.Imports) (V : Imports) (req : Request) (given : Params)
    (fileSections : list FileSectionMatchResult) (emb : Embedding)
    (res : ProviderResponse) (id : string) :
  let params := effectiveParams V req (projectIdOf req) given in
  let s := streamed V (stringToLLMInfo U (model params))
             (map file_path (snd (assemble V 0 "" [] fileSections)))
             (p_events res) in
  accepted V req = true ->
  json req = Some given ->
  streams req = true ->
  snd (retrieval U V req) = Ok (fileSections, emb) ->
  (forall url authorization payload,
     fetchCompletions V url authorization payload = Fulfilled res) ->
  (forall row, insert_id U row = Some id) -> id <> "" ->
  (forall pid info n kind,
     recordProjectTokenCount U pid info n kind = Fulfilled tt) ->
  responseText s <> "" ->
  In (Update id (Some (responseText s))
        (if isIDontKnowResponse (responseText s) (iDontKnowMessageOf V given)
         then Some true else None))
     (fst (handler U V req)).
Proof.
  intros params s A J St R Fetch Ins Id Tok Text.
  destruct (EngineFacts.handler_accepted U V req A) as (g & J' & Hd).
  rewrite J in J'. injection J' as <-.
  assert (E : In (Update id (Some (responseText s))
                    (if isIDontKnowResponse (responseText s)
                          (iDontKnowMessageOf V given)
                     then Some true else None))
                (fst (complete U V req given (truncated V req)
                        (projectIdOf req)))).
  { unfold complete.
    rewrite (EngineFacts.retrieval_accepted U V req given J) in R.
    subst params.
    destruct (retrieve U V (effectiveParams V req (projectIdOf req) given)
                (truncated V req) (projectIdOf req))
      as [found [[fs e0] | x]]; cbn [snd] in R; [ | discriminate].
    injection R as -> ->.
    rewrite EngineFacts.fst_bind. cbn [fst snd]. apply in_or_app. right.
    unfold streams in St. rewrite J in St. rewrite St.
    unfold deliver. fold (iDontKnowMessageOf V given).
    subst s.
    destruct (assemble V 0 "" [] fileSections) as [contextText references].
    cbn [snd] in *.
    rewrite EngineFacts.fst_bind. cbn [emit fst snd]. right.
    rewrite EngineFacts.fst_bind, EngineFacts.fst_await, EngineFacts.snd_await,
      Fetch.
    cbn [app negb]. right.
    rewrite EngineFacts.fst_bind, (_storePrompt_id _ _ _ _ _ _ _ _ _ _ id Ins).
    apply in_or_app. right.
    unfold streamResponse.
    match goal with
    | |- context [wrapUp ?a ?b ?c ?d ?e ?f (Some id) ?g] =>
        destruct (wrapUp_updates a b c d e f id g Tok Id Text) as (evs & W);
        rewrite W
    end.
    cbn [fst]. apply in_or_app. right. now left. }
  rewrite Hd.
  destruct (complete U V req given (truncated V req) (projectIdOf req))
    as [evs [r | e]]; cbn [fst] in *; right; exact E.
Qed.

(** The theorem at a streamed request that asks to be left out of the
    insights: the row is inserted without the prompt, and the answer is
    written into it when the stream has ended. *)
Lemma streamed_response_is_stored_whatever_the_flags_witness :
  let events :=
    fst (handler
           (EngineExamples.services false (Some [EngineExamples.oneSection]))
           (EngineExamples.engine
              (EngineExamples.fragments "Hello" " world" "!"))
           (EngineExamples.post (MoreExamples.unlisted "What is X?"))) in
  map q_prompt (inserts events) = [None] /\
  In (Update "prompt-1" (Some "Hello world!") None) events.
Proof.
  split; [reflexivity | ].
  refine (streamed_response_is_stored_whatever_the_flags
            (EngineExamples.services false (Some [EngineExamples.oneSection]))
            (EngineExamples.engine
               (EngineExamples.fragments "Hello" " world" "!"))
            (EngineExamples.post (MoreExamples.unlisted "What is X?"))
            (MoreExamples.unlisted "What is X?")
            [EngineExamples.oneSection] [1 # 2; 1 # 4]
            (EngineExamples.fragments "Hello" " world" "!") "prompt-1"
            _ _ _ _ _ _ _ _ _).
  - reflexivity.
  - reflexivity.
  - reflexivity.
  - reflexivity.
  - intros; reflexivity.
  - intros; reflexivity.
  - discriminate.
  - intros; reflexivity.
  - vm_compute. discriminate.
Defined.

(** X13.  For a project with an OpenAI key of its own, a request that is
    answered as a stream records no token count: neither for the embedding
    of the query nor for the completion. *)
Theorem own_key_records_no_token_count (U : Completions.Imports)
    (V : Imports) (req : Request) :
  truthy (getProjectConfigData V (projectIdOf req)) = true ->
  streams req = true ->
  Forall countsNothing (fst (handler U V req)).
Proof.
  intros Key St. apply handler_kinds.
  - intros [ ]; cbn; auto.
  - intros _ given J. unfold streams in St. rewrite J in St.
    apply complete_kinds; try (intros; exact I).
    + rewrite Key, St. discriminate.
    + intros response e reason references.
      unfold _storePrompt, storePrompt.
      destruct (isTruthy (excludeFromInsights given)); cbn;
        repeat constructor.
Qed.

(** The theorem at a streamed answer for a project with a key of its own. *)
Lemma own_key_records_no_token_count_witness :
  Forall countsNothing
    (fst (handler
            (EngineExamples.services false (Some [EngineExamples.oneSection]))
            (MoreExamples.engineFor true (Some "sk-own")
               (EngineExamples.fragments "Hello" " world" "!"))
            (EngineExamples.post
               (EngineExamples.asking "What is X?" JUndefined)))).
Proof.
  apply (own_key_records_no_token_count
           (EngineExamples.services false (Some [EngineExamples.oneSection]))
           (MoreExamples.engineFor true (Some "sk-own")
              (EngineExamples.fragments "Hello" " world" "!"))
           (EngineExamples.post
              (EngineExamples.asking "What is X?" JUndefined)));
    reflexivity.
Defined.


(** *** A withheld model configuration *)

Lemma unset_everywhere {A : Type} (get : Params -> option A) (field : Field) :
  (forall ps, get (unset field ps) = None) ->
  (forall other ps, get ps = None -> get (unset other ps) = None) ->
  forall fields ps,
    In field fields ->
    get (fold_left (fun ps f => unset f ps) fields ps) = None.
Proof.
  intros Here Stays.
  assert (Kept : forall fields ps, get ps = None ->
            get (fold_left (fun ps f => unset f ps) fields ps) = None).
  { induction fields as [ | f fs IH]; intros ps N; cbn; auto. }
  induction fields as [ | f fs IH]; intros ps I; [contradiction | ].
  cbn. destruct I as [-> | I]; [apply Kept, Here | apply IH, I].
Qed.

Ltac unset_field :=
  apply unset_everywhere;
  [reflexivity | intros other ps N; destruct other; cbn; auto].

Lemma withheld_params (V : Imports) (req : Request) (given : Params) :
  withheld V req = true ->
  effectiveParams V req (projectIdOf req) given = withoutModelConfig V given.
Proof.
  unfold withheld, effectiveParams.
  destruct (isRequestFromMarkprompt V (origin req)); [discriminate | ].
  destruct (getTeamTierInfo V (projectIdOf req)) as [tier | ];
    [ | reflexivity].
  destruct (canUseCustomModelConfig V tier); [discriminate | reflexivity].
Qed.

(** X14.  When the model configuration is withheld from a request (it comes
    from outside the dashboard, for a team that may not use a custom
    configuration), the fields of [modelConfigFields] sent with the request
    do not reach the model provider: the payload carries the default model,
    temperature 0.1, top_p 1, both penalties 0 and 500 tokens at most. *)
Theorem withheld_configuration_falls_back_to_defaults
    (U : Completions.Imports) (V : Imports) (req : Request) :
  withheld V req = true ->
  Forall (defaultsOnly U V) (fst (handler U V req)).
Proof.
  intros W. apply handler_kinds.
  - intros [ ]; cbn; try contradiction; auto.
  - intros _ given J.
    apply complete_kinds; try (intros; exact I).
    + intros authorization full. rewrite (withheld_params V req given W).
      unfold withoutModelConfig. cbn [defaultsOnly getPayload pl_model
        pl_temperature pl_top_p pl_frequency_penalty pl_presence_penalty
        pl_max_tokens].
      repeat split; intros In.
      * replace (model (fold_left _ _ given)) with (@None string);
          [reflexivity | symmetry; revert In; unset_field].
      * replace (temperature (fold_left _ _ given)) with (@None Q);
          [reflexivity | symmetry; revert In; unset_field].
      * replace (topP (fold_left _ _ given)) with (@None Q);
          [reflexivity | symmetry; revert In; unset_field].
      * replace (frequencyPenalty (fold_left _ _ given)) with (@None Q);
          [reflexivity | symmetry; revert In; unset_field].
      * replace (presencePenalty (fold_left _ _ given)) with (@None Q);
          [reflexivity | symmetry; revert In; unset_field].
      * replace (maxTokens (fold_left _ _ given)) with (@None Q);
          [reflexivity | symmetry; revert In; unset_field].
    + intros response e reason references.
      unfold _storePrompt, storePrompt.
      destruct (isTruthy (excludeFromInsights given)); cbn;
        repeat constructor.
Qed.

(** The theorem at a request from outside the dashboard that asks for a
    model and a temperature of its own. *)
Lemma withheld_configuration_falls_back_to_defaults_witness :
  Forall (defaultsOnly
            (EngineExamples.services false (Some [EngineExamples.oneSection]))
            (MoreExamples.engineFor false None EngineExamples.refusal))
    (fst (handler
            (EngineExamples.services false (Some [EngineExamples.oneSection]))
            (MoreExamples.engineFor false None EngineExamples.refusal)
            (EngineExamples.post (MoreExamples.tuned "What is X?")))).
Proof.
  apply (withheld_configuration_falls_back_to_defaults
           (EngineExamples.services false (Some [EngineExamples.oneSection]))
           (MoreExamples.engineFor false None EngineExamples.refusal)
           (EngineExamples.post (MoreExamples.tuned "What is X?"))).
  reflexivity.
Defined.


(** *** One row for a request *)

Lemma inserts_app (l1 l2 : list Event) :
  inserts (l1 ++ l2) = inserts l1 ++ inserts l2.
Proof. apply flat_map_app. Qed.

Lemma inserts_none (evs : list Event) :
  Forall insertsNothing evs -> inserts evs = [].
Proof.
  induction 1 as [ | e evs Pe _ IH]; [reflexivity | ].
  destruct e; try contradiction; exact IH.
Qed.

Lemma _storePrompt_row (U : Completions.Imports) (pid prompt : string)
    (response : option string) (e : option Embedding)
    (reason : option PromptNoResponseReason)
    (references : list FileSectionReference)
    (insights : option InsightsType) (exclude redact : bool) :
  exists row,
    _storePrompt U pid prompt response e reason references insights exclude
      redact = ([Insert row], Ok (insert_id U row)).
Proof. unfold _storePrompt, storePrompt. destruct exclude; cbn; eauto. Qed.

Ltac stored :=
  match goal with
  | |- context [_storePrompt ?a ?b ?c ?d ?e ?f ?g ?h ?i ?j] =>
      let row := fresh "row" in
      let E := fresh "E" in
      destruct (_storePrompt_row a b c d e f g h i j) as (row & E);
      rewrite E
  end.

Lemma deliver_oneRow (U : Completions.Imports) (V : Imports)
    (params : Params) (prompt pid idkMessage : string)
    (insights : option InsightsType) (stream exclude redact : bool)
    (fileSections : list FileSectionMatchResult) (emb : Embedding) :
  oneRow U
    (fst (deliver U V params prompt pid idkMessage insights stream exclude
            redact fileSections emb))
    (snd (deliver U V params prompt pid idkMessage insights stream exclude
            redact fileSections emb)).
Proof.
  unfold deliver.
  destruct (assemble V 0 "" [] fileSections) as [contextText references].
  unfold emit at 1. cbn [bind].
  match goal with
  | |- context [fetchCompletions V ?u ?a ?p] =>
      destruct (fetchCompletions V u a p) as [res | x]
  end; [ | reflexivity].
  unfold await. cbn [bind].
  destruct stream; cbn [negb].
  - stored. cbn [bind].
    match goal with
    | |- context [streamResponse ?a ?b ?c ?d ?e ?f ?g ?h ?i ?j] =>
        pose proof (streamResponse_kinds a b insertsNothing c d e f g h i j)
          as F;
        destruct (streamResponse a b c d e f g h i j) as [evs readable]
    end.
    cbn [fst snd app oneRow headers] in *.
    exists row. cbn [inserts flat_map app].
    fold (inserts evs). rewrite (inserts_none evs); [auto | ].
    apply F; intros; exact I.
  - destruct (p_ok res); cbn [negb].
    + destruct (p_json res) as [[tokenCount text] | ]; [ | reflexivity].
      destruct (recordProjectTokenCount U pid _ tokenCount "completions");
        [ | reflexivity].
      cbn [bind]. stored. cbn. eauto.
    + stored. cbn. eauto.
Qed.

Lemma complete_oneRow (U : Completions.Imports) (V : Imports) (req : Request)
    (given : Params) (prompt pid : string) :
  oneRow U (fst (complete U V req given prompt pid))
    (snd (complete U V req given prompt pid)).
Proof.
  unfold complete.
  pose proof (retrieve_kinds U V insertsNothing
                (effectiveParams V req pid given) prompt pid) as G.
  destruct (retrieve U V (effectiveParams V req pid given) prompt pid)
    as [found [[fileSections emb] | e]]; cbn [fst] in G.
  - match goal with
    | |- context [deliver ?a ?b ?c ?d ?e ?f ?g ?h ?i ?j ?k ?l] =>
        pose proof (deliver_oneRow a b c d e f g h i j k l) as D;
        destruct (deliver a b c d e f g h i j k l) as [evs r]
    end.
    cbn [bind fst snd] in *.
    assert (N : inserts (found ++ evs) = inserts evs).
    { rewrite inserts_app, (inserts_none found); [reflexivity | ].
      apply G; intros; exact I. }
    unfold oneRow in *. rewrite N. exact D.
  - unfold sectionsFailed. stored. cbn [bind].
    assert (N : inserts found = []) by (apply inserts_none, G; intros; exact I).
    destruct e; cbn [bind ret fst snd app oneRow headers];
      exists row; rewrite !inserts_app, N; cbn; auto.
Qed.

(** X15.  A response with the header [x-markprompt-data] comes with exactly
    one row inserted into [query_stats], and the [promptId] of the header
    is the id the insert returned; a response without the header comes with
    no row at all. *)
Theorem header_names_the_stored_row (U : Completions.Imports) (V : Imports)
    (req : Request) :
  oneRow U (fst (handler U V req)) (Ok (snd (handler U V req))).
Proof.
  destruct (accepted V req) eqn:A.
  - destruct (EngineFacts.handler_accepted U V req A) as (given & J & Hd).
    rewrite Hd.
    pose proof (complete_oneRow U V req given (truncated V req)
                  (projectIdOf req)) as C.
    destruct (complete U V req given (truncated V req) (projectIdOf req))
      as [evs [response | e]]; cbn [fst snd oneRow headers] in *; exact C.
  - destruct (handler_rejected U V req A) as (F & Hd).
    cbn [oneRow]. rewrite Hd. apply inserts_none.
    eapply Forall_impl; [ | exact F]. intros [ ]; cbn; auto.
Qed.

(** *** The context handed to the model *)

Lemma tokens_cons (s : FileSectionMatchResult)
    (l : list FileSectionMatchResult) :
  tokens (s :: l) = (file_sections_token_count s + tokens l)%Z.
Proof. reflexivity. Qed.

Lemma assemble_run (V : Imports) (l : list FileSectionMatchResult) :
  forall (numTokens : Z) (contextText : string)
         (references : list FileSectionReference),
  exists n, n <= List.length l /\
    assemble V numTokens contextText references l
    = (contextText +++ Core.joined (map (sectionText V) (firstn n l)),
       references
       ++ map (buildSectionReferenceFromMatchResult V) (firstn n l)) /\
    (forall m, 0 < m <= n ->
       (numTokens + tokens (firstn m l) < CONTEXT_TOKENS_CUTOFF V)%Z) /\
    (n < List.length l ->
       (CONTEXT_TOKENS_CUTOFF V <= numTokens + tokens (firstn (S n) l))%Z).
Proof.
  induction l as [ | s l IH]; intros numTokens contextText references.
  - exists 0. cbn. rewrite CoreFacts.append_nil_r, app_nil_r.
    repeat split; intros; lia.
  - cbn [assemble].
    destruct (numTokens + file_sections_token_count s
              >=? CONTEXT_TOKENS_CUTOFF V)%Z eqn:C.
    + exists 0. cbn [firstn map Core.joined fold_right List.length].
      rewrite CoreFacts.append_nil_r, app_nil_r.
      repeat split; [lia | intros; lia | ].
      intros _. rewrite tokens_cons. cbn [tokens map fold_right]. lia.
    + match goal with
      | |- context [assemble V ?t ?c ?r l] =>
          destruct (IH t c r) as (n & Hn & E & Below & Above)
      end.
      exists (S n). rewrite E.
      cbn [firstn map Core.joined fold_right List.length].
      fold (Core.joined (map (sectionText V) (firstn n l))).
      unfold sectionText at 2.
      rewrite <- app_assoc, !CoreFacts.append_assoc.
      repeat split; [lia | | ].
      * intros m Hm. destruct m as [ | m]; [lia | ].
        cbn [firstn]. rewrite tokens_cons.
        destruct m as [ | m].
        -- cbn [firstn tokens map fold_right]. lia.
        -- specialize (Below (S m) ltac:(lia)). lia.
      * intros L. cbn [firstn]. rewrite tokens_cons.
        specialize (Above ltac:(lia)). cbn [firstn] in Above. lia.
Qed.

(** X16.  The context and the references are built from the first sections of
    the retrieval, in their order: as many as come before the first section
    with which the running sum of the token counts reaches
    [CONTEXT_TOKENS_CUTOFF].  That section and all after it are left out,
    so the token counts of the sections used stay below the cutoff. *)
Theorem context_stays_below_the_cutoff (V : Imports)
    (fileSections : list FileSectionMatchResult) :
  exists n, n <= List.length fileSections /\
    assemble V 0 "" [] fileSections
    = (Core.joined (map (sectionText V) (firstn n fileSections)),
       map (buildSectionReferenceFromMatchResult V) (firstn n fileSections)) /\
    (forall m, 0 < m <= n ->
       (tokens (firstn m fileSections) < CONTEXT_TOKENS_CUTOFF V)%Z) /\
    (n < List.length fileSections ->
       (CONTEXT_TOKENS_CUTOFF V <= tokens (firstn (S n) fileSections))%Z).
Proof.
  destruct (assemble_run V fileSections 0 "" []) as (n & Hn & E & B & A).
  exists n. repeat split; auto.
Qed.

(** *** The stream *)

Section Stream.
Variables (V : Imports) (modelInfo : LLMInfo) (referencePaths : list string).

Local Abbreviation header :=
  (stringifyPaths V referencePaths +++ STREAM_SEPARATOR V).
Local Abbreviation headed := (Serving.headed header).

Lemma onParse_headed (event : ParsedEvent) (s : Streaming) :
  headed s ->
  headed (onParse V modelInfo referencePaths event s) /\
  (carriesData event = true ->
   didSendHeader (onParse V modelInfo referencePaths event s) = true) /\
  (carriesData event = false ->
   onParse V modelInfo referencePaths event s = s).
Proof.
  intros Hd. destruct event as [data | ]; cbn [onParse carriesData];
    [ | repeat split; [exact Hd | discriminate]].
  destruct (String.eqb data "[DONE]"); cbn [negb];
    [repeat split; [exact Hd | discriminate] | ].
  unfold Serving.headed in Hd.
  destruct (didSendHeader s) eqn:D.
  - destruct Hd as (texts & E). cbn [negb andb].
    destruct (chunkText V data modelInfo) as [text | e];
      [destruct ((counter s <? 2) && matchesNewline text);
       [ | destruct (failure s)] | ];
      unfold Serving.headed; cbn [didSendHeader enqueued]; rewrite ?E;
      repeat split; eauto; try discriminate.
    exists (texts ++ [encode text]).
    reflexivity.
  - destruct Hd as (E & F). rewrite F. cbn [negb andb]. rewrite E.
    destruct (chunkText V data modelInfo) as [text | e];
      [destruct ((counter s <? 2) && matchesNewline text) | ];
      unfold Serving.headed; cbn [didSendHeader enqueued app];
      repeat split; eauto; try discriminate.
Qed.

Lemma fold_headed (events : list ParsedEvent) (s : Streaming) :
  headed s ->
  let s' := fold_left (fun s event =>
                         onParse V modelInfo referencePaths event s)
              events s in
  headed s' /\
  (existsb carriesData events = true -> didSendHeader s' = true) /\
  (existsb carriesData events = false -> s' = s).
Proof.
  revert s. induction events as [ | event events IH]; intros s Hd;
    cbn [fold_left existsb].
  - repeat split; [exact Hd | discriminate].
  - destruct (onParse_headed event s Hd) as (Hd1 & Out & Same).
    destruct (IH _ Hd1) as (Hd2 & Out2 & Same2).
    repeat split; [exact Hd2 | | ].
    + destruct (carriesData event); cbn [orb]; [intros _ | exact Out2].
      unfold Serving.headed in Hd1. rewrite (Out eq_refl) in Hd1.
      destruct (existsb carriesData events) eqn:X; [now apply Out2 | ].
      rewrite (Same2 eq_refl). now apply Out.
    + destruct (carriesData event); cbn [orb]; [discriminate | ].
      intros X. rewrite (Same2 X). now apply Same.
Qed.

(** What is sent begins with the header as soon as the provider sends an
    event with data, and nothing is sent before. *)
Lemma streamed_header (events : list ParsedEvent) :
  if existsb carriesData events
  then exists texts,
         enqueued (streamed V modelInfo referencePaths events)
         = header :: texts
  else streamed V modelInfo referencePaths events
       = mkStreaming 0 "" false [] None.
Proof.
  unfold streamed.
  destruct (fold_headed events (mkStreaming 0 "" false [] None))
    as (Hd & Out & Same); [split; reflexivity | ].
  destruct (existsb carriesData events).
  - unfold Serving.headed in Hd. now rewrite (Out eq_refl) in Hd.
  - now apply Same.
Qed.

End Stream.

(** X17.  The stream the handler answers with begins with the header, the
    JSON list of the reference paths followed by the separator, sent once,
    as soon as the provider's stream brings an event with data; when the
    provider's stream brings none (it is empty, or only says [[DONE]]),
    nothing is sent at all, not even the header. *)
Theorem stream_begins_with_the_reference_header (V : Imports)
    (modelInfo : LLMInfo) (referencePaths : list string)
    (events : list ParsedEvent) :
  let s := streamed V modelInfo referencePaths events in
  if existsb carriesData events
  then exists texts,
         enqueued s
         = (stringifyPaths V referencePaths +++ STREAM_SEPARATOR V) :: texts
  else enqueued s = [] /\ responseText s = "".
Proof.
  cbv zeta.
  pose proof (streamed_header V modelInfo referencePaths events) as Hd.
  destruct (existsb carriesData events); [exact Hd | ].
  rewrite Hd. split; reflexivity.
Qed.

End ServingFacts.

(** ** From the handler's stream to the callbacks of [submitPrompt] *)
Module ProtocolFacts.
Import Js.




End ProtocolFacts.



(** ** Training all sources *)
Module TrainAllFacts.
Import Js Training Sources TrainAll Pool.

Lemma reports_app (l1 l2 : list Event) :
  reports (l1 ++ l2) = reports l1 ++ reports l2.
Proof. apply flat_map_app. Qed.

Lemma reports_none (evs : list Event) :
  Forall reportsNothing evs -> reports evs = [].
Proof.
  induction 1 as [ | e evs Pe _ IH]; [reflexivity | ].
  destruct e; try contradiction; exact IH.
Qed.

(** *** The pool never calls [onError] *)

Section Silent.
Variables (U : Imports) (H : Hooks) (a : Args) (checksums : list ChecksumRow).

Lemma start_silent (index : nat) (w : World) :
  exists evs,
    log (fst (guarded U a index (startFile U H a checksums index w)))
    = log w ++ evs /\ Forall reportsNothing evs.
Proof.
  unfold startFile. destruct (stopFlag w); cbn [guarded fst].
  { exists []. rewrite app_nil_r. auto. }
  destruct (included U H a (getFilePath a index)); cbn [negb guarded fst];
    (eexists; split; [logs | repeat constructor]).
Qed.

Lemma resume_silent (t : Task) (w : World) :
  exists evs,
    log (fst (guarded U a (taskIndex t) (resumeFile U a t w)))
    = log w ++ evs /\ Forall reportsNothing evs.
Proof.
  destruct t as [i p prev | i f nm]; cbn [resumeFile taskIndex].
  - unfold afterFileData.
    destruct (getFileData a i) as [[fd | ] | e]; cbn [guarded fst].
    + destruct (sameChecksum prev _ && negb (forceRetrain a));
        cbn [guarded fst]; (eexists; split; [logs | repeat constructor]).
    + eexists; split; [logs | repeat constructor].
    + eexists; split; [logs | repeat constructor].
  - unfold afterProcessFile, callOnFileProcessed.
    destruct (processFile U (sourceId a) f) as [u | e]; cbn [guarded fst].
    + destruct (onFileProcessed a); cbn [guarded fst].
      * eexists; split; [logs | repeat constructor].
      * exists []. rewrite app_nil_r. auto.
    + destruct (isQuotaExceeded U e); destruct (onFileProcessed a);
        cbn [guarded fst]; (eexists; split; [logs | repeat constructor]).
Qed.

Lemma step_silent (w0 : World) (c : Choice) (r : Run) :
  silent w0 r -> silent w0 (step U H a checksums c r).
Proof.
  intros (evs & L & F).
  destruct c as [ | j | ]; cbn [step].
  - destruct (queue r) as [ | index q]; [exists evs; auto | ].
    destruct (_ <? _); [ | exists evs; auto].
    destruct (start_silent index (world r)) as (evs' & L' & F').
    destruct (guarded U a index (startFile U H a checksums index (world r)))
      as [w' o].
    cbn [fst world] in *. exists (evs ++ evs'). cbn [world].
    rewrite L', L, app_assoc. split; [reflexivity | now apply Forall_app].
  - destruct (nth_error (active r) j) as [t | ]; [ | exists evs; auto].
    destruct (resume_silent t (world r)) as (evs' & L' & F').
    destruct (guarded U a (taskIndex t) (resumeFile U a t (world r)))
      as [w' o].
    cbn [fst world] in *. exists (evs ++ evs'). cbn [world].
    rewrite L', L, app_assoc. split; [reflexivity | now apply Forall_app].
  - exists evs. cbn. auto.
Qed.

End Silent.

Lemma generateEmbeddings_silent (U : Imports) (H : Hooks) (a : Args)
    (query : Await (option (list ChecksumRow))) (sched : list Choice)
    (w : World) :
  exists evs,
    log (fst (generateEmbeddings U H a query sched w)) = log w ++ evs /\
    Forall reportsNothing evs.
Proof.
  unfold generateEmbeddings.
  destruct (project_id H) as [pid | ].
  2:{ exists []. cbn. rewrite app_nil_r. auto. }
  destruct query as [cs | e].
  2:{ exists []. cbn. rewrite app_nil_r. auto. }
  cbn [fst].
  set (w1 := setStopFlag false (setErrors (fun _ => []) w)).
  destruct (PoolFacts.promiseAll_invariant U H a (listOr cs) (silent w1)
              (step_silent U H a (listOr cs) w1) sched w1) as (evs & L & F).
  { exists []. cbn. rewrite app_nil_r. auto. }
  exists evs. auto.
Qed.

(** *** One source *)

Section OneSource.
Variables (U : Imports) (W : WebImports) (S : SourceImports) (H : Hooks).
Variables (R : Rounds) (forceRetrain cb : bool).

Lemma silent_oneReport (w w' : World) (evs : list Event) :
  log w' = log w ++ evs -> Forall reportsNothing evs -> oneReport w w'.
Proof.
  intros L F. exists evs. split; [exact L | ].
  rewrite (reports_none _ F). cbn. lia.
Qed.

Lemma callOnError_outcome (message : string) (w w0 : World)
    (evs : list Event) :
  log w0 = log w ++ evs -> Forall reportsNothing evs ->
  oneReport w (fst (callOnError S message w0)) /\
  forall e, snd (callOnError S message w0) = Some e ->
    exists message, onErrorThrows S message = Some e.
Proof.
  intros L F. unfold callOnError. cbn [fst snd]. split; [ | eauto].
  exists (evs ++ [OnError message]). cbn [log emit].
  rewrite L, app_assoc, reports_app, (reports_none _ F).
  split; [reflexivity | cbn; lia].
Qed.

Lemma trainGitHub_outcome (source : DbSource) (w : World) :
  s_type source = github ->
  oneReport w (fst (trainGitHub U S H R source forceRetrain cb w)) /\
  forall e, snd (trainGitHub U S H R source forceRetrain cb w) = Some e ->
    stops S H source e.
Proof.
  intros T. unfold trainGitHub.
  assert (Failed : forall e w0 evs,
            log w0 = log w ++ evs -> Forall reportsNothing evs ->
            let r := match getGitHubOwnerRepoString S (s_url source) with
                     | Fulfilled ownerAndRepo =>
                         callOnError S
                           ("Error processing repo " +++ ownerAndRepo +++ ": "
                            +++ detail e) w0
                     | Rejected thrown => (w0, Some thrown)
                     end in
            oneReport w (fst r) /\
            forall x, snd r = Some x -> stops S H source x).
  { intros e w0 evs L F.
    destruct (getGitHubOwnerRepoString S (s_url source)) as [name | thrown]
      eqn:G; cbn zeta.
    - destruct (callOnError_outcome
                  ("Error processing repo " +++ name +++ ": " +++ detail e)
                  w w0 evs L F) as (O & X).
      split; [exact O | ]. intros x Sx. do 3 right. now apply X.
    - cbn [fst snd]. split; [now apply (silent_oneReport w w0 evs) | ].
      intros x [= <-]. right. right. left. auto. }
  destruct (getGitHubFiles S _ _ _ _) as [fileData | e].
  2:{ apply (Failed e _ [ConsoleInfo ["Fetching GitHub archive for";
                                      s_url source]]);
        [reflexivity | repeat constructor]. }
  match goal with
  | |- context [generateEmbeddings U H ?a ?q ?s ?w0] =>
      destruct (generateEmbeddings_silent U H a q s w0) as (evs & L & F);
      destruct (generateEmbeddings U H a q s w0) as [w' [e | ]]
  end; cbn [fst snd log emit] in *.
  - apply (Failed e w'
             ([ConsoleInfo ["Fetching GitHub archive for"; s_url source];
               ConsoleInfo ["Done fetching GitHub archive. Now processing "
                            +++ decimal (List.length fileData)
                            +++ " files..."]] ++ evs)).
    + rewrite L, <- !app_assoc. reflexivity.
    + apply Forall_app. split; [repeat constructor | exact F].
  - split; [ | discriminate].
    apply (silent_oneReport w w'
             ([ConsoleInfo ["Fetching GitHub archive for"; s_url source];
               ConsoleInfo ["Done fetching GitHub archive. Now processing "
                            +++ decimal (List.length fileData)
                            +++ " files..."]] ++ evs)).
    + rewrite L, <- !app_assoc. reflexivity.
    + apply Forall_app. split; [repeat constructor | exact F].
Qed.

Lemma trainMotif_outcome (source : DbSource) (w : World) :
  oneReport w (fst (trainMotif U S H R source forceRetrain cb w)) /\
  forall e, snd (trainMotif U S H R source forceRetrain cb w) = Some e ->
    stops S H source e.
Proof.
  unfold trainMotif.
  destruct (getMotifPublicFileMetadata S _ _ _) as [filesMetadata | e].
  2:{ destruct (callOnError_outcome
                  ("Error processing Motif project "
                   +++ s_projectDomain source +++ ": " +++ detail e)
                  w w [] ltac:(now rewrite app_nil_r) ltac:(constructor))
        as (O & X).
      split; [exact O | ]. intros x Sx. do 3 right. now apply X. }
  match goal with
  | |- context [generateEmbeddings U H ?a ?q ?s ?w0] =>
      destruct (generateEmbeddings_silent U H a q s w0) as (evs & L & F);
      destruct (generateEmbeddings U H a q s w0) as [w' [e | ]]
  end; cbn [fst snd] in *.
  - destruct (callOnError_outcome
                ("Error processing Motif project "
                 +++ s_projectDomain source +++ ": " +++ detail e)
                w w' evs L F) as (O & X).
    split; [exact O | ]. intros x Sx. do 3 right. now apply X.
  - split; [now apply (silent_oneReport w w' evs) | discriminate].
Qed.

Lemma round_silent (src : string) (round : nat) (urls : list string)
    (w : World) :
  exists evs,
    log (fst (generateEmbeddingsForUrls U W H R src forceRetrain cb round
                urls w))
    = log w ++ evs /\ Forall reportsNothing evs.
Proof.
  unfold generateEmbeddingsForUrls.
  match goal with
  | |- context [generateEmbeddings U H ?a ?q ?s ?w0] =>
      destruct (generateEmbeddings_silent U H a q s w0) as (evs & L & F);
      destruct (generateEmbeddings U H a q s w0) as [w' [e | ]]
  end; cbn [fst] in *; eauto.
Qed.

Lemma discover_silent (src baseUrl : string) (fuel : nat) :
  forall round processedLinks linksToProcess w w' links,
    discover U W H R src forceRetrain cb baseUrl fuel round processedLinks
      linksToProcess w = Some (w', links) ->
    exists evs, log w' = log w ++ evs /\ Forall reportsNothing evs.
Proof.
  induction fuel as [ | fuel IH];
    intros round processedLinks linksToProcess w w' links E.
  { destruct linksToProcess; [ | discriminate]. cbn in E.
    injection E as <- <-. exists []. rewrite app_nil_r. auto. }
  assert (Ix : linksToProcess = [] \/ linksToProcess <> []).
  { destruct linksToProcess; [now left | right; discriminate]. }
  destruct Ix as [-> | Ne].
  { cbn in E. injection E as <- <-. exists []. rewrite app_nil_r. auto. }
  rewrite (TrainingFacts.discover_round _ _ _ _ _ _ _ _ _ _ _ _ _ Ne) in E.
  destruct (round_silent src round linksToProcess w) as (evs & L & F).
  destruct (generateEmbeddingsForUrls U W H R src forceRetrain cb round
              linksToProcess w) as [w1 [pc | e]]; cbn [fst] in *.
  2:{ injection E as <- <-. eauto. }
  destruct (discoveredLinks W baseUrl pc) as [found | ].
  2:{ injection E as <- <-. eauto. }
  apply IH in E. destruct E as (evs2 & L2 & F2).
  exists (evs ++ evs2). rewrite L2, L, app_assoc.
  split; [reflexivity | now apply Forall_app].
Qed.

Lemma trainWebsite_outcome (src data_url : string) (fuel : nat)
    (w w' : World) :
  trainWebsite U W H R src data_url forceRetrain cb fuel w = Some w' ->
  oneReport w w'.
Proof.
  unfold trainWebsite.
  destruct (isSitemapUrl W (toNormalizedUrl W data_url)).
  - destruct (fetchSitemapUrls W (toNormalizedUrl W data_url))
      as [sitemapUrls | e].
    2:{ intros [= <-]. eexists. split; [logs | ]. cbn. lia. }
    destruct (round_silent src 0 (firstn 10 sitemapUrls) w) as (evs & L & F).
    destruct (generateEmbeddingsForUrls U W H R src forceRetrain cb 0
                (firstn 10 sitemapUrls) w) as [w1 [pc | e]];
      cbn [fst] in *; intros [= <-].
    + now apply (silent_oneReport w w1 evs).
    + eexists (evs ++ [_]). cbn [log emit]. rewrite L, app_assoc.
      split; [reflexivity | ].
      rewrite reports_app, (reports_none _ F). cbn. lia.
  - destruct (discover U W H R src forceRetrain cb (toNormalizedUrl W data_url)
                fuel 0 [] [removeTrailingSlashQueryParamsAndHash W data_url] w)
      as [[w1 links] | ] eqn:D; [ | discriminate].
    intros [= <-]. apply discover_silent in D. destruct D as (evs & L & F).
    now apply (silent_oneReport w w1 evs).
Qed.

Lemma firstThrown_thrown (messages : list string) (e : Thrown) :
  firstThrown S messages = Some e ->
  exists message, onErrorThrows S message = Some e.
Proof.
  induction messages as [ | m rest IH]; cbn [firstThrown]; [discriminate | ].
  destruct (onErrorThrows S m) as [x | ] eqn:E; [ | exact IH].
  intros [= <-]. eauto.
Qed.

Lemma trainWebsiteSource_outcome (source : DbSource) (fuel : nat)
    (w : World) :
  s_type source = website ->
  match trainWebsiteSource U W S H R source forceRetrain cb fuel w with
  | Some (w', ended) =>
      oneReport w w' /\ forall e, ended = Some e -> stops S H source e
  | None => True
  end.
Proof.
  intros T. unfold trainWebsiteSource.
  destruct (toNormalizedUrlThrows S (s_url source)) as [thrown | ] eqn:N.
  - split.
    + exists []. rewrite app_nil_r. cbn. split; [reflexivity | lia].
    + intros e [= <-]. right. left. auto.
  - destruct (trainWebsite U W H R (s_id source) (s_url source) forceRetrain
                cb fuel w) as [w' | ] eqn:E; [ | exact I].
    split; [eapply trainWebsite_outcome; eassumption | ].
    intros e X. do 3 right. eapply firstThrown_thrown, X.
Qed.

Lemma trainNango_outcome (source : DbSource) (w : World) :
  s_type source = nango ->
  fst (trainNango S H source w) = w /\
  forall e, snd (trainNango S H source w) = Some e ->
    syncRejects S H source e.
Proof.
  intros T. unfold trainNango, syncRejects.
  destruct (project_id H) as [pid | ] eqn:P; cbn [present negb];
    [ | split; [reflexivity | discriminate]].
  destruct (String.eqb pid ""); cbn [negb];
    [split; [reflexivity | discriminate] | ].
  destruct (getIntegrationId S source) as [integrationId | ] eqn:G;
    cbn [present negb]; [ | split; [reflexivity | discriminate]].
  destruct (String.eqb integrationId ""); cbn [negb];
    [split; [reflexivity | discriminate] | ].
  destruct (triggerSync S pid integrationId _ _) as [u | x] eqn:Tr;
    cbn [fst snd]; (split; [reflexivity | ]); [discriminate | ].
  intros e [= <-]. split; [exact T | ]. exists pid, integrationId. auto.
Qed.

Lemma _trainSource_outcome (source : DbSource) (fuel : nat) (w : World) :
  match _trainSource U W S H R source forceRetrain cb fuel w with
  | Some (w', ended) =>
      oneReport w w' /\ forall e, ended = Some e -> stops S H source e
  | None => s_type source = website
  end.
Proof.
  unfold _trainSource. destruct (s_type source) eqn:T.
  - destruct (trainGitHub_outcome source w T) as (O & N).
    destruct (trainGitHub U S H R source forceRetrain cb w) as [w' ended].
    exact (conj O N).
  - destruct (trainMotif_outcome source w) as (O & N).
    destruct (trainMotif U S H R source forceRetrain cb w) as [w' ended].
    exact (conj O N).
  - pose proof (trainWebsiteSource_outcome source fuel w T) as O.
    destruct (trainWebsiteSource U W S H R source forceRetrain cb fuel w)
      as [[w' ended] | ]; [exact O | reflexivity].
  - destruct (trainNango_outcome source w T) as (Same & Rej).
    destruct (trainNango S H source w) as [w' ended]. cbn [fst snd] in *.
    subst w'. split; [ | intros e E; left; now apply Rej].
    exists []. rewrite app_nil_r. cbn. split; [reflexivity | lia].
  - split; [ | discriminate].
    exists []. rewrite app_nil_r. cbn. split; [reflexivity | lia].
  - split; [ | discriminate].
    exists []. rewrite app_nil_r. cbn. split; [reflexivity | lia].
Qed.

End OneSource.

(** *** The loop over the sources *)

Lemma trainSources_turns (U : Imports) (W : WebImports) (S : SourceImports)
    (H : Hooks) (rounds : nat -> Rounds) (forceRetrain cb : bool)
    (fuel : nat) (sources : list DbSource) :
  forall k w,
    match trainSources U W S H rounds forceRetrain cb fuel k sources w with
    | Some (w', None) =>
        trainedInTurn U W S H rounds forceRetrain cb fuel k sources w w' /\
        exists evs, log w' = log w ++ evs /\
          List.length (reports evs) <= List.length sources
    | Some (w', Some e) =>
        exists before source after w1,
          sources = before ++ source :: after /\
          trainedInTurn U W S H rounds forceRetrain cb fuel k before w w1 /\
          _trainSource U W S H (rounds (k + List.length before)) source
            forceRetrain cb fuel w1 = Some (w', Some e) /\
          stops S H source e /\
          exists evs, log w' = log w ++ evs /\
            List.length (reports evs) <= List.length before + 1
    | None =>
        exists before source after w1,
          sources = before ++ source :: after /\
          trainedInTurn U W S H rounds forceRetrain cb fuel k before w w1 /\
          _trainSource U W S H (rounds (k + List.length before)) source
            forceRetrain cb fuel w1 = None /\
          s_type source = website
    end.
Proof.
  induction sources as [ | source rest IH]; intros k w; cbn [trainSources].
  - split; [constructor | ]. exists []. rewrite app_nil_r. cbn. auto.
  - pose proof (_trainSource_outcome U W S H (rounds k) forceRetrain cb
                  source fuel w) as O.
    destruct (_trainSource U W S H (rounds k) source forceRetrain cb fuel w)
      as [[w1 [e | ]] | ] eqn:T.
    + destruct O as ((evs & L & N) & Rej).
      exists [], source, rest, w. cbn [app List.length].
      rewrite Nat.add_0_r.
      repeat split; [constructor | exact T | now apply Rej | ].
      exists evs. split; [exact L | lia].
    + destruct O as ((evs & L & N) & _). specialize (IH (k + 1) w1).
      destruct (trainSources U W S H rounds forceRetrain cb fuel (k + 1) rest w1)
        as [[w2 [e | ]] | ].
      * destruct IH as (before & s0 & after & w3 & -> & Tr & T0 & St
                        & evs2 & L2 & N2).
        exists (source :: before), s0, after, w3. cbn [app List.length].
        replace (k + Datatypes.S (List.length before))
          with (k + 1 + List.length before) by lia.
        repeat split; [econstructor; eassumption | exact T0 | exact St | ].
        exists (evs ++ evs2). rewrite L2, L, app_assoc, reports_app, length_app.
        split; [reflexivity | lia].
      * destruct IH as (Tr & evs2 & L2 & N2).
        split; [econstructor; eassumption | ].
        exists (evs ++ evs2). rewrite L2, L, app_assoc, reports_app, length_app.
        cbn [List.length]. split; [reflexivity | lia].
      * destruct IH as (before & s0 & after & w3 & -> & Tr & T0 & Ws).
        exists (source :: before), s0, after, w3. cbn [app List.length].
        replace (k + Datatypes.S (List.length before))
          with (k + 1 + List.length before) by lia.
        repeat split; [econstructor; eassumption | exact T0 | exact Ws].
    + exists [], source, rest, w. cbn [app List.length]. rewrite Nat.add_0_r.
      repeat split; [constructor | exact T | exact O].
Qed.

(** X19.  [trainAllSources] sets the state to [fetching_data] and trains the
    sources one after the other, in their order, each from what the one
    before left; a source that fails is reported to [onError] at most once,
    and the loop goes on with the next source.  When no promise of
    [_trainSource] is rejected, every source is trained and the state ends
    as [idle].  When the promise is rejected for a source, the promise of
    [trainAllSources] is rejected with the same error: the sources before
    it were trained, those after it are not, and the state is not set to
    [idle].  That happens only for a Nango source whose [triggerSync] is
    rejected, for a website source whose URL cannot be normalised, for a
    GitHub source when [getGitHubOwnerRepoString] throws while its failure
    is reported, or when [onError] itself throws. *)
Theorem training_stops_only_where_a_source_rejects (U : Imports)
    (W : WebImports) (S : SourceImports) (H : Hooks) (rounds : nat -> Rounds)
    (forceRetrain cb : bool) (fuel : nat) (sources : list DbSource)
    (w : World) :
  let started := setState fetching_data w in
  match trainAllSources U W S H rounds forceRetrain cb fuel sources w with
  | Some (w', None) =>
      exists w1,
        trainedInTurn U W S H rounds forceRetrain cb fuel 0 sources
          started w1 /\
        w' = setState idle w1 /\
        List.length (reports (since w w')) <= List.length sources
  | Some (w', Some e) =>
      exists before source after w1,
        sources = before ++ source :: after /\
        trainedInTurn U W S H rounds forceRetrain cb fuel 0 before
          started w1 /\
        _trainSource U W S H (rounds (List.length before)) source
          forceRetrain cb fuel w1 = Some (w', Some e) /\
        stops S H source e /\
        List.length (reports (since w w')) <= List.length before + 1
  | None =>
      exists before source after w1,
        sources = before ++ source :: after /\
        trainedInTurn U W S H rounds forceRetrain cb fuel 0 before
          started w1 /\
        _trainSource U W S H (rounds (List.length before)) source
          forceRetrain cb fuel w1 = None /\
        s_type source = website
  end.
Proof.
  intros started. subst started. unfold trainAllSources.
  pose proof (trainSources_turns U W S H rounds forceRetrain cb fuel sources
                0 (setState fetching_data w)) as O.
  destruct (trainSources U W S H rounds forceRetrain cb fuel 0 sources
              (setState fetching_data w)) as [[w' [e | ]] | ].
  - destruct O as (before & source & after & w1 & E & Tr & T & St
                   & evs & L & N).
    exists before, source, after, w1.
    rewrite (TrainingFacts.since_app w w' evs L). auto.
  - destruct O as (Tr & evs & L & N). exists w'.
    rewrite (TrainingFacts.since_app w (setState idle w') evs L). auto.
  - exact O.
Qed.

(** The theorem at a repository, a Nango source whose sync is rejected and
    a Motif project: the file of the repository is processed, the promise
    is rejected with the error of the sync, and nothing of the Motif project
    is fetched. *)
Lemma training_stops_only_where_a_source_rejects_witness :
  let run :=
    trainAllSources TrainingExamples.everyFileOk TrainingExamples.twoPages
      MoreExamples.integrations TrainingExamples.hooks
      (fun _ => TrainingExamples.calmRounds) false true 4
      [MoreExamples.repository; MoreExamples.knowledgeBase;
       MoreExamples.notes]
      TrainingExamples.fresh in
  exists w',
    run = Some (w', Some MoreExamples.syncError) /\
    fetched (log w') = ["docs-main/guide.md"] /\
    exists before source after w1,
      [MoreExamples.repository; MoreExamples.knowledgeBase;
       MoreExamples.notes] = before ++ source :: after /\
      trainedInTurn TrainingExamples.everyFileOk TrainingExamples.twoPages
        MoreExamples.integrations TrainingExamples.hooks
        (fun _ => TrainingExamples.calmRounds) false true 4 0 before
        (setState fetching_data TrainingExamples.fresh) w1 /\
      _trainSource TrainingExamples.everyFileOk TrainingExamples.twoPages
        MoreExamples.integrations TrainingExamples.hooks
        TrainingExamples.calmRounds source false true 4 w1
      = Some (w', Some MoreExamples.syncError) /\
      stops MoreExamples.integrations TrainingExamples.hooks source
        MoreExamples.syncError /\
      List.length (reports (since TrainingExamples.fresh w'))
      <= List.length before + 1.
Proof.
  intros run.
  pose proof (training_stops_only_where_a_source_rejects
                TrainingExamples.everyFileOk TrainingExamples.twoPages
                MoreExamples.integrations TrainingExamples.hooks
                (fun _ => TrainingExamples.calmRounds) false true 4
                [MoreExamples.repository; MoreExamples.knowledgeBase;
                 MoreExamples.notes]
                TrainingExamples.fresh) as T.
  cbv zeta in T. fold run in T.
  assert (E : exists w', run = Some (w', Some MoreExamples.syncError) /\
                fetched (log w') = ["docs-main/guide.md"]).
  { eexists. split; [vm_compute; reflexivity | reflexivity]. }
  destruct E as (w' & E & F). rewrite E in T.
  exists w'. repeat split; [exact E | exact F | exact T].
Defined.

End TrainAllFacts.

(** ** Names of sources *)
Module SourcesFacts.
Import Js Sources.

Lemma isNameAvailable_taken (sources : option (list DbSource))
    (name : string) :
  isNameAvailable sources name = false <-> In name (takenNames sources).
Proof.
  unfold isNameAvailable, takenNames. destruct sources as [l | ]; cbn.
  2:{ split; [discriminate | intros []]. }
  induction l as [ | s l IH]; cbn; [split; [discriminate | intros []] | ].
  destruct (isNango (s_type s)); cbn.
  - destruct (String.eqb (s_name s) name) eqn:E.
    + apply String.eqb_eq in E. split; auto.
    + apply String.eqb_neq in E. rewrite IH. split; [auto | ].
      intros [X | X]; [contradiction | exact X].
  - exact IH.
Qed.

Lemma append_cancel (a x y : string) : a +++ x = a +++ y -> x = y.
Proof. induction a as [ | c a IH]; cbn; [auto | ]. intros [= E]. auto. Qed.

Lemma decimal_injective (m n : nat) : decimal m = decimal n -> m = n.
Proof.
  unfold decimal. intros E.
  assert (D : Nat.to_uint m = Nat.to_uint n).
  { pose proof (NilEmpty.usu (Nat.to_uint m)) as A.
    pose proof (NilEmpty.usu (Nat.to_uint n)) as B.
    rewrite E in A. congruence. }
  rewrite <- (Unsigned.of_to m), <- (Unsigned.of_to n). now rewrite D.
Qed.

Section Names.
Variables (sources : option (list DbSource)) (baseName : string).

Local Abbreviation candidate := (fun c => baseName +++ " " +++ decimal c).

Lemma candidate_injective (m n : nat) : candidate m = candidate n -> m = n.
Proof.
  intros E. apply append_cancel, append_cancel in E.
  now apply decimal_injective.
Qed.

(** The loop ends at the first counter whose name is free. *)
Lemma nextFreeName_found (fuel : nat) :
  forall c k,
    k <= fuel ->
    isNameAvailable sources (candidate (c + k)) = true ->
    (forall j, j < k -> isNameAvailable sources (candidate (c + j)) = false) ->
    nextFreeName sources baseName fuel c = Some (candidate (c + k)).
Proof.
  induction fuel as [ | fuel IH]; intros c k Hk Free Taken.
  - assert (k = 0) as -> by lia. rewrite Nat.add_0_r in *.
    cbn [nextFreeName]. rewrite Free. reflexivity.
  - cbn [nextFreeName]. destruct k as [ | k].
    + rewrite Nat.add_0_r in *. rewrite Free. reflexivity.
    + pose proof (Taken 0 ltac:(lia)) as T0. rewrite Nat.add_0_r in T0.
      rewrite T0. cbn [negb]. replace (c + S k) with (c + 1 + k) by lia.
      apply IH; [lia | now replace (c + 1 + k) with (c + S k) by lia | ].
      intros j Hj. replace (c + 1 + j) with (c + S j) by lia.
      apply Taken. lia.
Qed.

(** Among more candidates than there are names taken, one is free. *)
Lemma some_candidate_is_free (c : nat) :
  exists k, k <= List.length (takenNames sources) /\
    isNameAvailable sources (candidate (c + k)) = true /\
    forall j, j < k -> isNameAvailable sources (candidate (c + j)) = false.
Proof.
  assert (Least : forall n,
            (forall j, j < n ->
               isNameAvailable sources (candidate (c + j)) = false) \/
            exists k, k < n /\
              isNameAvailable sources (candidate (c + k)) = true /\
              forall j, j < k ->
                isNameAvailable sources (candidate (c + j)) = false).
  { induction n as [ | n [All | (k & Hk & F & T)]].
    - left. intros; lia.
    - destruct (isNameAvailable sources (candidate (c + n))) eqn:A.
      + right. exists n. auto.
      + left. intros j Hj. destruct (Nat.eq_dec j n) as [-> | ]; auto.
        apply All. lia.
    - right. exists k. auto. }
  destruct (Least (S (List.length (takenNames sources))))
    as [All | (k & Hk & F & T)]; [exfalso | exists k; repeat split; auto; lia].
  assert (N : NoDup (map (fun j => candidate (c + j))
                       (seq 0 (S (List.length (takenNames sources)))))).
  { apply CrawlFacts.NoDup_map_in; [ | apply seq_NoDup].
    intros x y _ _ E. apply candidate_injective in E. lia. }
  apply NoDup_incl_length with (l' := takenNames sources) in N.
  - rewrite length_map, length_seq in N. lia.
  - intros name I. apply in_map_iff in I. destruct I as (j & <- & Ij).
    apply in_seq in Ij. apply isNameAvailable_taken, All. lia.
Qed.

End Names.

(** X20.  [generateUniqueName] ends, after as many rounds of its loop as
    there are Nango sources at most, with a name that is available: the
    base name when that is available, else the base name followed by a
    space and the least counter from 1 on whose name is available. *)
Theorem generateUniqueName_is_available (getIntegrationName : string -> string)
    (sources : option (list DbSource)) (integrationId : string)
    (candidateBaseName : option string) :
  let baseName := strOr candidateBaseName (getIntegrationName integrationId) in
  exists name,
    generateUniqueName getIntegrationName sources
      (List.length (takenNames sources)) integrationId candidateBaseName
    = Some name /\
    isNameAvailable sources name = true /\
    (name = baseName \/
     isNameAvailable sources baseName = false /\
     exists c, 1 <= c /\ name = baseName +++ " " +++ decimal c /\
       forall j, 1 <= j < c ->
         isNameAvailable sources (baseName +++ " " +++ decimal j) = false).
Proof.
  intros baseName. unfold generateUniqueName. fold baseName.
  destruct (isNameAvailable sources baseName) eqn:A.
  { exists baseName. auto. }
  destruct (some_candidate_is_free sources baseName 1) as (k & Hk & F & T).
  exists (baseName +++ " " +++ decimal (1 + k)).
  repeat split; [now apply nextFreeName_found | exact F | ].
  right. split; [reflexivity | ]. exists (1 + k). repeat split; [lia | ].
  intros j Hj. replace j with (1 + (j - 1)) by lia. apply T. lia.
Qed.

End SourcesFacts.
